(** * happy-helper: the OTP credential engine, embedded and verified

    A shallow embedding of the repository's credential code:

    - [parseOTPAuthURI] and [validateSecret], the module
      [@/lib/otpauth-parser] (in the sources: the second module of
      [src/types/account.ts], after the interfaces [Account] and
      [ParsedOTPAuth]);
    - [useTOTP] with its [generateCode] and countdown, and the store
      [useAccounts] (both in [src/hooks/useTOTP.ts]);
    - [accountSchema], [backupSchema] and [handleImport] of
      [src/components/SettingsMenu.tsx];
    - [manualEntrySchema], [handleQRScan] and [handleManualSubmit] of
      [src/pages/Index.tsx];
    - the handlers of the account card, of the backup codes dialog and
      of the backup codes page.

    The first part gives the model, and shows that its reference
    platform keeps the laws asked of every platform; the second and the
    third part give the theorems.

    Conventions of the model.  A JavaScript string is a [string], the
    sequence of its UTF-16 code units; white space ([\s], [trim],
    [parseInt]) is the white space of ECMAScript, and [toUpperCase],
    which depends on the Unicode tables of the engine, is a function of
    the platform.  A JavaScript number is a [number]: not-a-number, an
    infinity or a rational (every finite double is one); [parseInt]
    rounds to the nearest double; the subtraction and the remainder of
    the countdown are those of the rationals, which are those of doubles
    on integers below 2^53; the two zeros are one.  A computation that
    may throw returns a [Completion].  Handlers that touch React state,
    [localStorage], [crypto.randomUUID] or [Date.now] are functions on a
    [World]; [crypto.randomUUID] and [localStorage.setItem] are taken to
    complete (a platform without the first, or a storage that is full,
    is not modelled), and what the handlers do to the dialog and to the
    inputs of the form is left out. *)

From Stdlib Require Import ZArith NArith QArith Qround Qcanon Lia Strings.Byte.
From stdpp Require Import base option list countable gmap.

Local Open Scope Z_scope.

(* ===================================================================== *)
(** * Part I: the model                                                   *)
(* ===================================================================== *)

(** ** JavaScript values *)

Module Js.

(** *** Strings

    A string is the sequence of its UTF-16 code units; a code unit is a
    number below 65536 (no definition depends on that bound). *)

Definition code_unit : Set := N.

Inductive string :=
| EmptyString
| String (c : code_unit) (s : string).

(** [s + t] *)
Fixpoint append (s t : string) : string :=
  match s with
  | EmptyString => t
  | String c s' => String c (append s' t)
  end.

(** The number of code units. *)
Fixpoint len (s : string) : nat :=
  match s with
  | EmptyString => O
  | String _ s' => S (len s')
  end.

Fixpoint to_list (s : string) : list code_unit :=
  match s with
  | EmptyString => []
  | String c s' => c :: to_list s'
  end.

Fixpoint of_list (l : list code_unit) : string :=
  match l with
  | [] => EmptyString
  | c :: l' => String c (of_list l')
  end.

#[global] Instance string_eq_dec : EqDecision string.
Proof. solve_decision. Defined.

#[global] Instance string_countable : Countable string.
Proof.
  apply (inj_countable' to_list of_list).
  intros s. induction s as [|c s IH]; simpl; [reflexivity | now rewrite IH].
Defined.

(** The literals of this development are written in UTF-8: a literal
    stands for the code units of the text it shows, a character outside
    the basic plane for its two surrogates. *)
Definition units_of_code_point (cp : N) : list code_unit :=
  if (cp <? 0x10000)%N then [cp]
  else [(0xD800 + N.shiftr (cp - 0x10000) 10)%N;
        (0xDC00 + N.land (cp - 0x10000) 0x3FF)%N].

Fixpoint utf8 (fuel : nat) (bytes : list N) : option (list code_unit) :=
  match fuel, bytes with
  | O, _ | _, [] => Some []
  | S k, b0 :: r =>
      if (b0 <? 0x80)%N then cons b0 <$> utf8 k r
      else if (b0 <? 0xC0)%N then None
      else if (b0 <? 0xE0)%N then
        match r with
        | b1 :: r' =>
            app (units_of_code_point ((b0 - 0xC0) * 64 + (b1 - 0x80))%N)
              <$> utf8 k r'
        | _ => None
        end
      else if (b0 <? 0xF0)%N then
        match r with
        | b1 :: b2 :: r' =>
            app (units_of_code_point
                   ((b0 - 0xE0) * 4096 + (b1 - 0x80) * 64 + (b2 - 0x80))%N)
              <$> utf8 k r'
        | _ => None
        end
      else
        match r with
        | b1 :: b2 :: b3 :: r' =>
            app (units_of_code_point
                   ((b0 - 0xF0) * 262144 + (b1 - 0x80) * 4096
                    + (b2 - 0x80) * 64 + (b3 - 0x80))%N)
              <$> utf8 k r'
        | _ => None
        end
  end.

Definition of_bytes (l : list Byte.byte) : option string :=
  of_list <$> utf8 (length l) (Byte.to_N <$> l).

(** Only texts of the ASCII range are shown as literals. *)
Definition to_bytes (s : string) : option (list Byte.byte) :=
  mapM (fun c => if (c <? 0x80)%N then Byte.of_N c else None) (to_list s).

Definition unit_of_bytes (l : list Byte.byte) : option N :=
  match of_bytes l with
  | Some (String c EmptyString) => Some c
  | _ => None
  end.

Definition bytes_of_unit (c : N) : option (list Byte.byte) := None.

Declare Scope js_scope.
Delimit Scope js_scope with js.
Bind Scope js_scope with string.
String Notation string of_bytes to_bytes : js_scope.

(** ["c"%u] is the code unit of a character of the basic plane. *)
Declare Scope unit_scope.
Delimit Scope unit_scope with u.
Bind Scope unit_scope with code_unit.
String Notation N unit_of_bytes bytes_of_unit : unit_scope.

Infix "+:+" := append (at level 60, right associativity) : js_scope.

Local Open Scope js_scope.

(** *** Completions *)

(** An exception object: its constructor name and its message. *)
Record exn := Exn { exn_name : string; exn_message : string }.

(** The outcome of evaluating an expression or a function body. *)
Inductive Completion (A : Type) :=
| Normal (a : A)
| Throw (e : exn).
Arguments Normal {A} a.
Arguments Throw {A} e.

Definition bind {A B} (c : Completion A) (k : A -> Completion B) : Completion B :=
  match c with
  | Normal a => k a
  | Throw e => Throw e
  end.

(** [try { body } catch (error) { handler }] *)
Definition try_catch {A} (body : Completion A) (handler : exn -> Completion A)
  : Completion A :=
  match body with
  | Normal a => Normal a
  | Throw e => handler e
  end.

(** *** Numbers *)

Inductive number :=
| NaN
| PosInf
| NegInf
| Fin (q : Q).

Definition of_Z (z : Z) : number := Fin (inject_Z z).

(** [a <= b] and [a >= b] on numbers; any comparison with [NaN] is false. *)
Definition num_le (a b : number) : bool :=
  match a, b with
  | NaN, _ | _, NaN => false
  | NegInf, _ => true
  | _, PosInf => true
  | PosInf, _ => false
  | _, NegInf => false
  | Fin x, Fin y => Qle_bool x y
  end.

Definition num_ge (a b : number) : bool := num_le b a.

(** [a === b] on numbers. *)
Definition num_strict_eq (a b : number) : bool :=
  match a, b with
  | Fin x, Fin y => Qeq_bool x y
  | PosInf, PosInf | NegInf, NegInf => true
  | _, _ => false
  end.




(** The double nearest to an integer, ties to the even significand: an
    integer below 2^53 in size is a double; a larger one keeps its 53
    leading bits, rounded; one that rounds to 2^1024 or more is an
    infinity. *)
Definition double_of_Z (z : Z) : number :=
  let a := Z.abs z in
  if a <? 2 ^ 53 then of_Z z
  else
    let e := Z.log2 a - 52 in
    let m := Z.shiftr a e in
    let r := a - Z.shiftl m e in
    let half := 2 ^ (e - 1) in
    let m' := if (half <? r) || ((r =? half) && Z.odd m) then m + 1 else m in
    let v := m' * 2 ^ e in
    if 2 ^ 1024 <=? v then (if z <? 0 then NegInf else PosInf)
    else of_Z (Z.sgn z * v).

(** *** Code units and the functions of strings *)

Definition in_range (lo hi : N) (c : code_unit) : bool :=
  ((lo <=? c) && (c <=? hi))%N.

Definition is_unit (u : N) (c : code_unit) : bool := (c =? u)%N.

(** White space and line terminators: what the class [\s] of a regular
    expression matches and what [trim] and [parseInt] strip.  Tab, line
    feed, vertical tab, form feed, carriage return, space, no-break
    space, the ogham space mark, the spaces U+2000 to U+200A, the line
    and the paragraph separator, the narrow no-break space, the medium
    mathematical space, the ideographic space and the byte order mark. *)
Definition is_space (c : code_unit) : bool :=
  in_range 0x09 0x0D c || is_unit 0x20 c || is_unit 0xA0 c
  || is_unit 0x1680 c || in_range 0x2000 0x200A c
  || is_unit 0x2028 c || is_unit 0x2029 c || is_unit 0x202F c
  || is_unit 0x205F c || is_unit 0x3000 c || is_unit 0xFEFF c.

Definition is_digit (c : code_unit) : bool := in_range 48 57 c.

(** The letters [a] to [z]. *)
Definition is_lower (c : code_unit) : bool := in_range 97 122 c.

Definition is_hex (c : code_unit) : bool :=
  is_digit c || in_range 65 70 c || in_range 97 102 c.

(** The upper case of a code unit of the ASCII range: a letter [a] to [z]
    becomes the letter [A] to [Z], any other code unit is kept. *)
Definition ascii_upper (c : code_unit) : code_unit :=
  if is_lower c then (c - 32)%N else c.

Fixpoint str_map (f : code_unit -> code_unit) (s : string) : string :=
  match s with
  | EmptyString => EmptyString
  | String c s' => String (f c) (str_map f s')
  end.

Fixpoint str_filter (p : code_unit -> bool) (s : string) : string :=
  match s with
  | EmptyString => EmptyString
  | String c s' => if p c then String c (str_filter p s') else str_filter p s'
  end.

Fixpoint str_forall (p : code_unit -> bool) (s : string) : bool :=
  match s with
  | EmptyString => true
  | String c s' => p c && str_forall p s'
  end.

Fixpoint str_exists (p : code_unit -> bool) (s : string) : bool :=
  match s with
  | EmptyString => false
  | String c s' => p c || str_exists p s'
  end.

(** [s.replace(/\s/g, '')] *)
Definition remove_whitespace (s : string) : string :=
  str_filter (fun c => negb (is_space c)) s.

(** [s.length] *)
Definition str_length (s : string) : Z := Z.of_nat (len s).

(** [s.slice(1)] *)
Definition slice1 (s : string) : string :=
  match s with
  | EmptyString => EmptyString
  | String _ s' => s'
  end.

(** [s.includes(c)] for a one-character needle. *)
Definition includes (s : string) (c : code_unit) : bool :=
  str_exists (fun d => bool_decide (d = c)) s.

(** [s.split(c)] for a one-character separator: the fragments between the
    separators, always at least one. *)
Fixpoint split (s : string) (c : code_unit) : list string :=
  match s with
  | EmptyString => [EmptyString]
  | String d s' =>
      if bool_decide (d = c) then EmptyString :: split s' c
      else match split s' c with
           | [] => [String d EmptyString]
           | f :: fs => String d f :: fs
           end
  end.

(** [parts.join(sep)] *)
Fixpoint join (parts : list string) (sep : string) : string :=
  match parts with
  | [] => EmptyString
  | [p] => p
  | p :: ps => p +:+ sep +:+ join ps sep
  end.

(** [s.trim()] *)
Fixpoint trim_start (s : string) : string :=
  match s with
  | EmptyString => EmptyString
  | String c s' => if is_space c then trim_start s' else s
  end.

Fixpoint trim_end (s : string) : string :=
  match s with
  | EmptyString => EmptyString
  | String c s' =>
      match trim_end s' with
      | EmptyString => if is_space c then EmptyString else String c EmptyString
      | t => String c t
      end
  end.

Definition trim (s : string) : string := trim_end (trim_start s).

(** [x || d] where [x] is a string or [null]/[undefined]: the empty string
    is falsy. *)
Definition or_else (x : option string) (d : string) : string :=
  match x with
  | Some (String c s) => String c s
  | _ => d
  end.

(** [!x] for the same. *)
Definition falsy (x : option string) : bool :=
  match x with
  | Some (String _ _) => false
  | _ => true
  end.

Definition digit_value (c : code_unit) : Z := Z.of_N (c - 48).

(** The value of the longest prefix of decimal digits, [None] when there
    is no digit. *)
Fixpoint digits_prefix (s : string) (acc : option Z) : option Z :=
  match s with
  | String c s' =>
      if is_digit c
      then digits_prefix s' (Some (10 * default 0 acc + digit_value c))
      else acc
  | EmptyString => acc
  end.

(** [parseInt(s, 10)]: leading white space is skipped, a sign is read, then
    the longest run of decimal digits; [NaN] when that run is empty.  What
    follows the digits is ignored.  The result is the double nearest to
    the integer read (the standard lets an engine be less exact from the
    21st digit on). *)
Definition parseInt10 (s : string) : number :=
  let s1 := trim_start s in
  let '(sign, s2) :=
    match s1 with
    | String c r =>
        if is_unit "-"%u c then (-1, r)
        else if is_unit "+"%u c then (1, r)
        else (1, s1)
    | EmptyString => (1, s1)
    end in
  match digits_prefix s2 None with
  | None => NaN
  | Some v => double_of_Z (sign * v)
  end.

(** [String(n)] for a natural number [n]: its decimal digits. *)
Fixpoint of_uint (d : Decimal.uint) : string :=
  match d with
  | Decimal.Nil => EmptyString
  | Decimal.D0 d' => String "0"%u (of_uint d')
  | Decimal.D1 d' => String "1"%u (of_uint d')
  | Decimal.D2 d' => String "2"%u (of_uint d')
  | Decimal.D3 d' => String "3"%u (of_uint d')
  | Decimal.D4 d' => String "4"%u (of_uint d')
  | Decimal.D5 d' => String "5"%u (of_uint d')
  | Decimal.D6 d' => String "6"%u (of_uint d')
  | Decimal.D7 d' => String "7"%u (of_uint d')
  | Decimal.D8 d' => String "8"%u (of_uint d')
  | Decimal.D9 d' => String "9"%u (of_uint d')
  end.

Definition decimal (n : nat) : string := of_uint (Nat.to_uint n).

End Js.

Import Js.
Local Open Scope js_scope.

(** Concatenation and the functions that go through a string. *)

Lemma append_assoc (s t u : string) : (s +:+ t) +:+ u = s +:+ t +:+ u.
Proof. induction s as [|c s IH]; simpl; [reflexivity | now rewrite IH]. Qed.

Lemma str_forall_app (p : code_unit -> bool) (s1 s2 : string) :
  str_forall p (s1 +:+ s2) = str_forall p s1 && str_forall p s2.
Proof.
  induction s1 as [|c s1 IH]; simpl; [reflexivity|].
  rewrite IH. now rewrite andb_assoc.
Qed.

Lemma str_exists_app (p : code_unit -> bool) (s1 s2 : string) :
  str_exists p (s1 +:+ s2) = str_exists p s1 || str_exists p s2.
Proof.
  induction s1 as [|d s1 IH]; simpl; [reflexivity|].
  rewrite IH. now rewrite orb_assoc.
Qed.

(** ** Regular expressions

    The fragment of JavaScript's regular expressions the repository uses:
    character classes, concatenation, alternation and iteration, matched
    against the whole input (a pattern of the shape [/^...$/]).  Matching
    is by derivatives. *)

Module Regex.

Inductive regex :=
| Void
| Eps
| Class (p : code_unit -> bool)
| Seq (r1 r2 : regex)
| Alt (r1 r2 : regex)
| Star (r : regex).

(** [r+] *)
Definition Plus (r : regex) : regex := Seq r (Star r).

Fixpoint nullable (r : regex) : bool :=
  match r with
  | Void => false
  | Eps => true
  | Class _ => false
  | Seq r1 r2 => nullable r1 && nullable r2
  | Alt r1 r2 => nullable r1 || nullable r2
  | Star _ => true
  end.

Fixpoint deriv (c : code_unit) (r : regex) : regex :=
  match r with
  | Void => Void
  | Eps => Void
  | Class p => if p c then Eps else Void
  | Seq r1 r2 =>
      if nullable r1
      then Alt (Seq (deriv c r1) r2) (deriv c r2)
      else Seq (deriv c r1) r2
  | Alt r1 r2 => Alt (deriv c r1) (deriv c r2)
  | Star r1 => Seq (deriv c r1) (Star r1)
  end.

(** [/^r$/.test(s)] *)
Fixpoint test (r : regex) (s : string) : bool :=
  match s with
  | EmptyString => nullable r
  | String c s' => test (deriv c r) s'
  end.

(** The words of a regular expression. *)
Inductive Matches : regex -> string -> Prop :=
| MEps : Matches Eps EmptyString
| MClass p c : p c = true -> Matches (Class p) (String c EmptyString)
| MSeq r1 r2 s1 s2 :
    Matches r1 s1 -> Matches r2 s2 -> Matches (Seq r1 r2) (s1 +:+ s2)
| MAltL r1 r2 s : Matches r1 s -> Matches (Alt r1 r2) s
| MAltR r1 r2 s : Matches r2 s -> Matches (Alt r1 r2) s
| MStarNil r : Matches (Star r) EmptyString
| MStarApp r s1 s2 :
    Matches r s1 -> Matches (Star r) s2 -> Matches (Star r) (s1 +:+ s2).

End Regex.

(** ** The module @/lib/otpauth-parser *)

(** The return type [ParsedOTPAuth].  The TypeScript type of [algorithm]
    is a union of three literals; that type is erased at run time and the
    parser fills the field with a cast, so the field holds a string. *)
Module Parsed.
Record t := Make {
  issuer : string;
  label : string;
  secret : string;
  algorithm : string;
  digits : Js.number;
  period : Js.number;
}.
End Parsed.

(** The members of the type ['SHA1' | 'SHA256' | 'SHA512']. *)
Definition is_algorithm (s : string) : bool :=
  bool_decide (s = "SHA1") || bool_decide (s = "SHA256") || bool_decide (s = "SHA512").

(** The part of a [URL] object the parser reads.  [searchParams] is the
    list of name and value pairs of the query, in order. *)
Module URL.
Record t := Make {
  protocol : string;
  host : string;
  pathname : string;
  searchParams : list (string * string);
}.
End URL.

(** [params.get(name)]: the value of the first pair of that name, or null. *)
Fixpoint params_get (params : list (string * string)) (name : string)
  : option string :=
  match params with
  | [] => None
  | (k, v) :: rest => if bool_decide (k = name) then Some v else params_get rest name
  end.

(** [params.has(name)] *)
Definition params_has (params : list (string * string)) (name : string) : bool :=
  bool_decide (is_Some (params_get params name)).

(** The functions of the host platform the repository calls.

    [toUpperCase] is [String.prototype.toUpperCase], the upper-case
    mapping of the engine's Unicode tables, which is not a mapping of
    single code units (a sharp s becomes two letters, a long s the letter
    S).  Five facts about it are all the theorems use: the empty text is
    kept; a code unit of the ASCII range is mapped by [ascii_upper]
    wherever it stands, and what is before and after it is mapped on its
    own (such a unit is no half of a surrogate pair); a text that was
    upper-cased is left as it is; no white space comes out of a text that
    holds none; and the result holds none of the letters [a] to [z].

    [new_URL] is the [URL] constructor and [decodeURIComponent] the
    function of that name; both may throw. *)
Class Platform := {
  toUpperCase : string -> string;
  new_URL : string -> Js.Completion URL.t;
  decodeURIComponent : string -> Js.Completion string;
  toUpperCase_empty : toUpperCase EmptyString = EmptyString;
  toUpperCase_ascii : forall (s : string) (c : code_unit) (t : string),
    (c < 128)%N ->
    toUpperCase (s +:+ String c t)
    = toUpperCase s +:+ String (ascii_upper c) (toUpperCase t);
  toUpperCase_settled : forall s : string,
    toUpperCase (toUpperCase s) = toUpperCase s;
  toUpperCase_space : forall s : string,
    str_exists is_space s = false ->
    str_exists is_space (toUpperCase s) = false;
  toUpperCase_lower : forall s : string,
    str_exists is_lower (toUpperCase s) = false;
}.

Module OtpauthParser.
Import Js.

Definition Error (msg : string) : exn := Exn "Error" msg.

(** The label format, ["issuer:account"] or just ["account"]: the values
    of [issuer] and [label] after the [if (path.includes(':'))] block. *)
Definition label_format (path : string) : string * string :=
  if includes path ":"
  then let parts := split path ":" in
       (hd EmptyString parts, join (tl parts) ":")
  else (EmptyString, path).

(** The body of the [try] block of [parseOTPAuthURI]. *)
Definition parseOTPAuthURI_try `{Platform} (uri : string)
  : Completion Parsed.t :=
  bind (new_URL uri) (fun url =>
  if negb (bool_decide (URL.protocol url = "otpauth:"))
  then Throw (Error "Invalid protocol")
  else if negb (bool_decide (URL.host url = "totp"))
  then Throw (Error "Only TOTP is supported")
  else
  bind (decodeURIComponent (slice1 (URL.pathname url))) (fun path =>
  let '(issuer, label) := label_format path in
  let params := URL.searchParams url in
  let secret := params_get params "secret" in
  if falsy secret
  then Throw (Error "Secret is required")
  else
  let issuer :=
    if params_has params "issuer"
    then or_else (params_get params "issuer") issuer
    else issuer in
  let algorithm :=
    or_else (toUpperCase <$> params_get params "algorithm") "SHA1" in
  let digits := parseInt10 (or_else (params_get params "digits") "6") in
  let period := parseInt10 (or_else (params_get params "period") "30") in
  Normal {|
    Parsed.issuer := or_else (Some issuer) "Unknown";
    Parsed.label := label;
    Parsed.secret := default EmptyString secret;
    Parsed.algorithm := algorithm;
    Parsed.digits := digits;
    Parsed.period := period;
  |})).

(** [parseOTPAuthURI]: the [catch] clause logs the error and returns null
    ([None]). *)
Definition parseOTPAuthURI `{Platform} (uri : string)
  : Completion (option Parsed.t) :=
  try_catch (bind (parseOTPAuthURI_try uri) (fun p => Normal (Some p)))
            (fun error => Normal None).

(** [/^[A-Z2-7]+=*$/] *)
Definition base32_char (c : code_unit) : bool :=
  in_range 65 90 c || in_range 50 55 c.

Definition pad_char (c : code_unit) : bool := bool_decide (c = "="%u).

Definition secret_pattern : Regex.regex :=
  Regex.Seq (Regex.Plus (Regex.Class base32_char))
            (Regex.Star (Regex.Class pad_char)).

(** [secret.replace(/\s/g, '').toUpperCase()] *)
Definition clean `{Platform} (secret : string) : string :=
  toUpperCase (remove_whitespace secret).

Definition validateSecret `{Platform} (secret : string) : bool :=
  let cleanSecret := clean secret in
  Regex.test secret_pattern cleanSecret && (str_length cleanSecret >=? 16).

End OtpauthParser.

(** ** A reference platform

    An executable [Platform], exact on texts written in ASCII:
    [toUpperCase] maps the letters of ASCII and of Latin-1 and a few
    more, not those of other alphabets; the [URL] constructor is after
    the URL standard's parser for an absolute URL whose scheme is not one
    of the special ones (http, https, ws, wss, ftp, file), which is the
    case of [otpauth]; [decodeURIComponent] is ECMAScript's.  The theorems
    of the second part hold for every platform; this one evaluates the
    code on concrete texts. *)

Module AsciiPlatform.
Import Js.

Definition is_alpha (c : code_unit) : bool := in_range 65 90 c || is_lower c.

Definition is_scheme_char (c : code_unit) : bool :=
  is_alpha c || is_digit c
  || bool_decide (c = "+"%u) || bool_decide (c = "-"%u)
  || bool_decide (c = "."%u).

Definition lower_char (c : code_unit) : code_unit :=
  if in_range 65 90 c then (c + 32)%N else c.

(** The text before the first character satisfying [stop], and the text
    from that character on. *)
Fixpoint break_at (stop : code_unit -> bool) (s : string) : string * string :=
  match s with
  | EmptyString => (EmptyString, EmptyString)
  | String c s' =>
      if stop c then (EmptyString, s)
      else let '(a, b) := break_at stop s' in (String c a, b)
  end.

Definition hex_value (c : code_unit) : N :=
  if is_digit c then c - 48
  else if in_range 65 70 c then c - 55
  else c - 87.

(** Percent-decoding as the URL standard does it: an escape that is not
    well formed stays as it is. *)
Fixpoint percent_decode (s : string) : string :=
  match s with
  | EmptyString => EmptyString
  | String c rest =>
      match rest with
      | String h (String l s') =>
          if bool_decide (c = "%"%u) && is_hex h && is_hex l
          then String ((16 * hex_value h + hex_value l)%N)
                      (percent_decode s')
          else String c (percent_decode rest)
      | _ => String c (percent_decode rest)
      end
  end.

(** [decodeURIComponent]: an escape [%XX] of a byte of the ASCII range
    is that character; an escape of a larger byte opens a sequence of
    escapes that is read as the UTF-8 encoding of one character, which is
    written as its one or two code units.  An escape that is not well
    formed, or a sequence that is no UTF-8 encoding of a character,
    throws a [URIError]. *)
Definition malformed {A} : Completion A :=
  Throw (Exn "URIError" "URI malformed").

(** The byte of the escape a text starts with, and what follows it. *)
Definition escape (s : string) : option (N * string) :=
  match s with
  | String p (String h (String l rest)) =>
      if is_unit "%"%u p && is_hex h && is_hex l
      then Some ((16 * hex_value h + hex_value l)%N, rest)
      else None
  | _ => None
  end.

(** [n] escapes of continuation bytes, shifted into [acc]. *)
Fixpoint continuation (n : nat) (acc : N) (s : string) : option (N * string) :=
  match n with
  | O => Some (acc, s)
  | S k =>
      match escape s with
      | Some (b, rest) =>
          if in_range 0x80 0xBF b
          then continuation k (acc * 64 + (b - 0x80))%N rest
          else None
      | None => None
      end
  end.

(** The number of continuation bytes a leading byte asks for, the bits
    it brings, and the least character a sequence of that length may
    encode. *)
Definition leading (b : N) : option (nat * N * N) :=
  if in_range 0xC0 0xDF b then Some (1%nat, (b - 0xC0)%N, 0x80%N)
  else if in_range 0xE0 0xEF b then Some (2%nat, (b - 0xE0)%N, 0x800%N)
  else if in_range 0xF0 0xF7 b then Some (3%nat, (b - 0xF0)%N, 0x10000%N)
  else None.

Definition is_scalar (lowest cp : N) : bool :=
  (lowest <=? cp)%N && (cp <=? 0x10FFFF)%N && negb (in_range 0xD800 0xDFFF cp).

(** Every step reads at least one code unit: the length of the text is
    fuel enough. *)
Fixpoint decode (fuel : nat) (s : string) : Completion string :=
  match fuel, s with
  | O, _ | _, EmptyString => Normal EmptyString
  | S k, String c rest =>
      if negb (is_unit "%"%u c)
      then bind (decode k rest) (fun t => Normal (String c t))
      else
        match escape s with
        | None => malformed
        | Some (b, rest1) =>
            if (b <? 0x80)%N
            then bind (decode k rest1) (fun t => Normal (String b t))
            else
              match leading b with
              | None => malformed
              | Some (n, bits, lowest) =>
                  match continuation n bits rest1 with
                  | None => malformed
                  | Some (cp, rest2) =>
                      if is_scalar lowest cp
                      then bind (decode k rest2) (fun t =>
                           Normal (of_list (units_of_code_point cp) +:+ t))
                      else malformed
                  end
              end
        end
  end.

Definition decodeURIComponent_reference (s : string) : Completion string :=
  decode (len s) s.

(** The parser of [application/x-www-form-urlencoded] that fills
    [searchParams]: the query is cut at every [&], empty pieces are
    dropped, each piece is cut at its first [=], [+] becomes a space and
    both halves are percent-decoded.  (An escaped byte above the ASCII
    range is kept as a code unit; the standard reads such bytes as
    UTF-8.) *)
Definition plus_to_space (c : code_unit) : code_unit :=
  if bool_decide (c = "+"%u) then " "%u else c.

Definition parse_pair (piece : string) : string * string :=
  let '(name, rest) := break_at (fun c => bool_decide (c = "="%u)) piece in
  (percent_decode (str_map plus_to_space name),
   percent_decode (str_map plus_to_space (slice1 rest))).

Definition parse_query (query : string) : list (string * string) :=
  parse_pair <$> filter (fun piece => piece <> EmptyString) (split query "&").

Definition is_authority_end (c : code_unit) : bool :=
  bool_decide (c = "/"%u) || bool_decide (c = "?"%u)
  || bool_decide (c = "#"%u).

Definition is_path_end (c : code_unit) : bool :=
  bool_decide (c = "?"%u) || bool_decide (c = "#"%u).

(** The host of an authority: what follows the last [@], if any. *)
Definition host_of (authority : string) : string :=
  List.last (split authority "@") EmptyString.

Definition starts_with_slashes (s : string) : option string :=
  match s with
  | String "/"%u (String "/"%u rest) => Some rest
  | _ => None
  end.

Definition TypeError (msg : string) : exn := Exn "TypeError" msg.

(** [new URL(uri)] without a base: a scheme, then [//] and an authority or
    an opaque path, then the query up to the fragment.  The scheme is
    lower-cased.  Of the authority the user information is dropped and
    the rest, port included, is the host.  The path is kept as written:
    the standard would percent-encode some of its characters, which
    [decodeURIComponent] decodes again.  Surrounding white space is not
    trimmed. *)
Definition URL_parse (uri : string) : Completion URL.t :=
  let '(scheme, rest) := break_at (fun c => negb (is_scheme_char c)) uri in
  match scheme, rest with
  | String c0 _, String ":"%u after =>
      if is_alpha c0
      then
        let '(host, tail) :=
          match starts_with_slashes after with
          | Some r =>
              let '(authority, t) := break_at is_authority_end r in
              (host_of authority, t)
          | None => (EmptyString, after)
          end in
        let '(path, tail2) := break_at is_path_end tail in
        let '(query, _) :=
          match tail2 with
          | String "?"%u q => break_at (fun c => bool_decide (c = "#"%u)) q
          | _ => (EmptyString, EmptyString)
          end in
        Normal {|
          URL.protocol := str_map lower_char scheme +:+ ":";
          URL.host := host;
          URL.pathname := path;
          URL.searchParams := parse_query query;
        |}
      else Throw (TypeError "Invalid URL")
  | _, _ => Throw (TypeError "Invalid URL")
  end.

(** [toUpperCase] of the reference platform.  It maps the letters [a]
    to [z] and those of Latin-1, and the code units whose upper case is
    made of capitals of the ASCII range alone: the sharp s, the dotless
    i, the long s and the ligatures of f, i, l, s and t.  Every other
    code unit is kept, so that the letters of other alphabets are not
    upper-cased. *)
Definition specials : list (code_unit * string) :=
  [(0xB5%N, String 0x39C%N EmptyString);
   (0xDF%N, "SS");
   (0xFF%N, String 0x178%N EmptyString);
   (0x131%N, "I");
   (0x17F%N, "S");
   (0xFB00%N, "FF");
   (0xFB01%N, "FI");
   (0xFB02%N, "FL");
   (0xFB03%N, "FFI");
   (0xFB04%N, "FFL");
   (0xFB05%N, "ST");
   (0xFB06%N, "ST")].

Fixpoint special (c : code_unit) (table : list (code_unit * string))
  : option string :=
  match table with
  | [] => None
  | (k, v) :: rest => if is_unit k c then Some v else special c rest
  end.

(** The letters that become the code unit 32 places before them. *)
Definition is_small (c : code_unit) : bool :=
  is_lower c || (in_range 0xE0 0xFE c && negb (is_unit 0xF7 c)).

Definition upper_units (c : code_unit) : string :=
  match special c specials with
  | Some v => v
  | None => if is_small c then String (c - 32)%N EmptyString
            else String c EmptyString
  end.

Fixpoint str_flat_map (f : code_unit -> string) (s : string) : string :=
  match s with
  | EmptyString => EmptyString
  | String c s' => f c +:+ str_flat_map f s'
  end.

Definition toUpperCase_reference (s : string) : string :=
  str_flat_map upper_units s.

(** A code unit that [upper_units] keeps, and that is no letter [a] to
    [z]. *)
Definition kept (c : code_unit) : bool :=
  bool_decide (special c specials = None) && negb (is_small c).

Lemma str_flat_map_append (f : code_unit -> string) (s t : string) :
  str_flat_map f (s +:+ t) = str_flat_map f s +:+ str_flat_map f t.
Proof.
  induction s as [|c s IH]; simpl; [reflexivity|].
  now rewrite IH, append_assoc.
Qed.

Lemma special_keys (c : code_unit) (v : string) :
  special c specials = Some v ->
  (c = 0xB5 \/ c = 0xDF \/ c = 0xFF \/ c = 0x131 \/ c = 0x17F
   \/ (0xFB00 <= c <= 0xFB06))%N
  /\ str_forall (fun u => kept u && negb (is_space u)) v = true.
Proof.
  cbn [special specials]. unfold is_unit.
  repeat match goal with
         | |- context [(c =? ?k)%N] =>
             destruct (N.eqb_spec c k) as [->|_];
             [intros [= <-]; split; [lia | reflexivity]|]
         end.
  discriminate.
Qed.

Lemma kept_units (c : code_unit) :
  kept c = true -> upper_units c = String c EmptyString /\ is_lower c = false.
Proof.
  unfold kept, upper_units. intros Hc.
  apply andb_true_iff in Hc as [Hs Hn].
  apply bool_decide_eq_true in Hs. apply negb_true_iff in Hn.
  rewrite Hs, Hn. split; [reflexivity|].
  unfold is_small in Hn. now apply orb_false_iff in Hn as [Hn _].
Qed.

Lemma is_small_not_space (c : code_unit) : is_small c = true -> is_space c = false.
Proof.
  unfold is_small, is_lower, is_space, in_range, is_unit.
  rewrite orb_true_iff, !andb_true_iff, !N.leb_le, negb_true_iff, N.eqb_neq.
  intros Hc.
  rewrite !orb_false_iff, !andb_false_iff, !N.leb_gt, !N.eqb_neq. lia.
Qed.

(** What a code unit becomes is made of kept code units, and holds white
    space only if the code unit is white space. *)
Lemma upper_units_kept (c : code_unit) :
  str_forall kept (upper_units c) = true
  /\ (is_space c = false -> str_exists is_space (upper_units c) = false).
Proof.
  unfold upper_units.
  destruct (special c specials) as [v|] eqn:Hv.
  - apply special_keys in Hv as [_ Hv]. split.
    + clear -Hv. induction v as [|u v IH]; [reflexivity|].
      simpl in *. apply andb_true_iff in Hv as [Hu Hv].
      apply andb_true_iff in Hu as [Hu _]. now rewrite Hu, IH.
    + intros _. clear -Hv. induction v as [|u v IH]; [reflexivity|].
      simpl in *. apply andb_true_iff in Hv as [Hu Hv].
      apply andb_true_iff in Hu as [_ Hu]. apply negb_true_iff in Hu.
      now rewrite Hu, IH.
  - destruct (is_small c) eqn:Hc.
    + assert (Hup : kept (c - 32)%N = true /\ is_space (c - 32)%N = false).
      { unfold is_small, is_lower, in_range, is_unit in Hc.
        rewrite orb_true_iff, !andb_true_iff, !N.leb_le, negb_true_iff,
          N.eqb_neq in Hc.
        split.
        - unfold kept. apply andb_true_iff. split.
          + apply bool_decide_eq_true.
            destruct (special (c - 32)%N specials) as [v|] eqn:Hv';
              [|reflexivity].
            apply special_keys in Hv' as [Hk _]. lia.
          + apply negb_true_iff. unfold is_small, is_lower, in_range, is_unit.
            rewrite orb_false_iff, !andb_false_iff, !N.leb_gt. lia.
        - unfold is_space, in_range, is_unit.
          rewrite !orb_false_iff, !andb_false_iff, !N.leb_gt, !N.eqb_neq. lia. }
      destruct Hup as [Hk Hsp]. simpl. rewrite Hk, Hsp. now split.
    + simpl. unfold kept. rewrite Hv, Hc, bool_decide_eq_true_2 by reflexivity.
      split; [reflexivity|]. intros ->. reflexivity.
Qed.

Lemma upper_units_ascii (c : code_unit) :
  (c < 128)%N -> upper_units c = String (ascii_upper c) EmptyString.
Proof.
  intros Hc. unfold upper_units, ascii_upper.
  destruct (special c specials) as [v|] eqn:Hv.
  - apply special_keys in Hv as [Hk _]. lia.
  - unfold is_small. destruct (is_lower c); [reflexivity|].
    replace (in_range 0xE0 0xFE c) with false; [reflexivity|].
    symmetry. unfold in_range. apply andb_false_iff. left. apply N.leb_gt. lia.
Qed.

Lemma str_flat_map_kept (s : string) :
  str_forall kept s = true ->
  str_flat_map upper_units s = s /\ str_exists is_lower s = false.
Proof.
  induction s as [|c s IH]; [now split|].
  simpl. intros Hs. apply andb_true_iff in Hs as [Hc Hs].
  destruct (kept_units c Hc) as [Hu Hl]. destruct (IH Hs) as [IH1 IH2].
  rewrite Hu, IH1, Hl, IH2. now split.
Qed.

Lemma toUpperCase_reference_kept (s : string) :
  str_forall kept (toUpperCase_reference s) = true.
Proof.
  unfold toUpperCase_reference. induction s as [|c s IH]; [reflexivity|].
  simpl. rewrite str_forall_app, IH.
  now rewrite (proj1 (upper_units_kept c)).
Qed.

Lemma toUpperCase_reference_space (s : string) :
  str_exists is_space s = false ->
  str_exists is_space (toUpperCase_reference s) = false.
Proof.
  unfold toUpperCase_reference. induction s as [|c s IH]; [reflexivity|].
  simpl. intros Hs. apply orb_false_iff in Hs as [Hc Hs].
  rewrite str_exists_app, (IH Hs).
  now rewrite (proj2 (upper_units_kept c) Hc).
Qed.

Definition platform : Platform := {|
  toUpperCase := toUpperCase_reference;
  new_URL := URL_parse;
  decodeURIComponent := decodeURIComponent_reference;
  toUpperCase_empty := eq_refl;
  toUpperCase_ascii := fun s c t Hc =>
    eq_trans (str_flat_map_append upper_units s (String c t))
             (f_equal (fun u => toUpperCase_reference s +:+ u +:+ toUpperCase_reference t)
                      (upper_units_ascii c Hc));
  toUpperCase_settled := fun s =>
    proj1 (str_flat_map_kept _ (toUpperCase_reference_kept s));
  toUpperCase_space := toUpperCase_reference_space;
  toUpperCase_lower := fun s =>
    proj2 (str_flat_map_kept _ (toUpperCase_reference_kept s));
|}.

End AsciiPlatform.

(** ** src/types/account.ts

    The interface [Account].  [backupCodes] is the optional member that the
    store's [updateBackupCodes], the card and the backup schema read and
    write.  As in [Parsed.t], [algorithm] holds a string at run time. *)

Module Account.
Record t := Make {
  id : string;
  issuer : string;
  label : string;
  secret : string;
  algorithm : string;
  digits : Js.number;
  period : Js.number;
  createdAt : Js.number;
  backupCodes : option (list string);
}.
End Account.

(** [Partial<Account>]: every member may be absent. *)
Module Partial.
Record t := Make {
  id : option string;
  issuer : option string;
  label : option string;
  secret : option string;
  algorithm : option string;
  digits : option Js.number;
  period : option Js.number;
  createdAt : option Js.number;
  backupCodes : option (list string);
}.
End Partial.

(** ** JSON values

    The value [JSON.parse] returns.  An object is the list of its own
    members; reading a member that is not there gives [undefined]
    ([None]). *)

Unset Elimination Schemes.
Inductive json :=
| JNull
| JBool (b : bool)
| JNum (n : Js.number)
| JStr (s : string)
| JArr (items : list json)
| JObj (members : list (string * json)).
Set Elimination Schemes.

Fixpoint member (members : list (string * json)) (key : string) : option json :=
  match members with
  | [] => None
  | (k, v) :: rest => if bool_decide (k = key) then Some v else member rest key
  end.

(** ** What JSON.stringify writes

    The value [JSON.parse] reads back from the text [JSON.stringify]
    writes for an account and for a list of accounts: a number that is
    not finite is written as [null], a member that is [undefined] is left
    out.  The order of the members depends on how the object was built
    and is not tracked; the schemas read members by name. *)

Module Stringify.
Import Js.

Definition number_json (n : number) : json :=
  match n with
  | Fin q => JNum (Fin q)
  | _ => JNull
  end.

Definition account_json (a : Account.t) : json :=
  JObj ([("id", JStr (Account.id a));
         ("issuer", JStr (Account.issuer a));
         ("label", JStr (Account.label a));
         ("secret", JStr (Account.secret a));
         ("algorithm", JStr (Account.algorithm a));
         ("digits", number_json (Account.digits a));
         ("period", number_json (Account.period a));
         ("createdAt", number_json (Account.createdAt a))]
        ++ match Account.backupCodes a with
           | Some codes => [("backupCodes", JArr (JStr <$> codes))]
           | None => []
           end).

(** [JSON.stringify(accounts)] *)
Definition accounts_json (l : list Account.t) : json :=
  JArr (account_json <$> l).

End Stringify.

(** ** The world the handlers run in *)

Inductive toast :=
| ToastSuccess (msg : string)
| ToastError (msg : string).

(** [accounts] is the React state of [useAccounts]; [localStorage] maps a
    key to the text stored under it, kept as the value [JSON.parse] reads
    from that text; [uuid_source n] is what the
    [n]-th call of [crypto.randomUUID] returns and [clock n] what the
    [n]-th call of [Date.now] returns, in milliseconds; [toasts] are the
    messages shown so far; [errors] is the record of field errors of the
    manual entry form. *)
Record World := MkWorld {
  accounts : list Account.t;
  localStorage : gmap string json;
  uuid_source : nat -> string;
  uuid_calls : nat;
  clock : nat -> Z;
  clock_calls : nat;
  toasts : list toast;
  errors : gmap string string;
}.

Definition set_accounts (l : list Account.t) (w : World) : World :=
  MkWorld l (localStorage w) (uuid_source w) (uuid_calls w)
          (clock w) (clock_calls w) (toasts w) (errors w).

Definition set_localStorage (m : gmap string json) (w : World) : World :=
  MkWorld (accounts w) m (uuid_source w) (uuid_calls w)
          (clock w) (clock_calls w) (toasts w) (errors w).

Definition set_errors (e : gmap string string) (w : World) : World :=
  MkWorld (accounts w) (localStorage w) (uuid_source w) (uuid_calls w)
          (clock w) (clock_calls w) (toasts w) e.

Definition show_toast (t : toast) (w : World) : World :=
  MkWorld (accounts w) (localStorage w) (uuid_source w) (uuid_calls w)
          (clock w) (clock_calls w) (toasts w ++ [t]) (errors w).

(** [crypto.randomUUID()], on a platform that has it. *)
Definition randomUUID (w : World) : string * World :=
  (uuid_source w (uuid_calls w),
   MkWorld (accounts w) (localStorage w) (uuid_source w) (S (uuid_calls w))
           (clock w) (clock_calls w) (toasts w) (errors w)).

(** [Date.now()] *)
Definition Date_now (w : World) : Z * World :=
  (clock w (clock_calls w),
   MkWorld (accounts w) (localStorage w) (uuid_source w) (uuid_calls w)
           (clock w) (S (clock_calls w)) (toasts w) (errors w)).

(** ** src/hooks/useAccounts.ts *)

Module UseAccounts.
Import Js.

Definition STORAGE_KEY : string := "authenticator_accounts".

(** [saveAccounts]: [localStorage.setItem(STORAGE_KEY,
    JSON.stringify(newAccounts))], then [setAccounts(newAccounts)].  The
    call of [setItem] is taken to complete: a storage that refuses the
    text (its quota is spent) throws there, which is not modelled. *)
Definition saveAccounts (newAccounts : list Account.t) (w : World) : World :=
  set_accounts newAccounts
    (set_localStorage
       (<[STORAGE_KEY := Stringify.accounts_json newAccounts]> (localStorage w)) w).

(** [addAccount]: the callers pass the six members of a parsed credential;
    [{...account, id, createdAt}] adds the two others. *)
Definition addAccount (account : Parsed.t) (w : World) : Account.t * World :=
  let '(id, w1) := randomUUID w in
  let '(now, w2) := Date_now w1 in
  let newAccount := {|
    Account.id := id;
    Account.issuer := Parsed.issuer account;
    Account.label := Parsed.label account;
    Account.secret := Parsed.secret account;
    Account.algorithm := Parsed.algorithm account;
    Account.digits := Parsed.digits account;
    Account.period := Parsed.period account;
    Account.createdAt := of_Z now;
    Account.backupCodes := None;
  |} in
  (newAccount, saveAccounts (accounts w2 ++ [newAccount]) w2).

Definition removeAccount (id : string) (w : World) : World :=
  saveAccounts
    (filter (fun acc => Account.id acc <> id) (accounts w)) w.

(** [{ ...acc, ...updates }] *)
Definition spread (acc : Account.t) (updates : Partial.t) : Account.t := {|
  Account.id := default (Account.id acc) (Partial.id updates);
  Account.issuer := default (Account.issuer acc) (Partial.issuer updates);
  Account.label := default (Account.label acc) (Partial.label updates);
  Account.secret := default (Account.secret acc) (Partial.secret updates);
  Account.algorithm := default (Account.algorithm acc) (Partial.algorithm updates);
  Account.digits := default (Account.digits acc) (Partial.digits updates);
  Account.period := default (Account.period acc) (Partial.period updates);
  Account.createdAt := default (Account.createdAt acc) (Partial.createdAt updates);
  Account.backupCodes :=
    match Partial.backupCodes updates with
    | Some codes => Some codes
    | None => Account.backupCodes acc
    end;
|}.

(** [{ ...acc, backupCodes: codes }] *)
Definition with_backupCodes (acc : Account.t) (codes : list string) : Account.t := {|
  Account.id := Account.id acc;
  Account.issuer := Account.issuer acc;
  Account.label := Account.label acc;
  Account.secret := Account.secret acc;
  Account.algorithm := Account.algorithm acc;
  Account.digits := Account.digits acc;
  Account.period := Account.period acc;
  Account.createdAt := Account.createdAt acc;
  Account.backupCodes := Some codes;
|}.

Definition updateAccount (id : string) (updates : Partial.t) (w : World) : World :=
  saveAccounts
    ((fun acc => if bool_decide (Account.id acc = id)
                 then spread acc updates else acc) <$> accounts w) w.

Definition updateBackupCodes (id : string) (codes : list string) (w : World) : World :=
  saveAccounts
    ((fun acc => if bool_decide (Account.id acc = id)
                 then with_backupCodes acc codes else acc) <$> accounts w) w.

Definition importAccounts (newAccounts : list Account.t) (w : World) : World :=
  saveAccounts (accounts w ++ newAccounts) w.

Definition clearAllAccounts (w : World) : World :=
  saveAccounts [] w.

End UseAccounts.

(** ** The zod schemas

    The schemas of zod 3 that the repository builds.  A schema takes the
    value to check, [None] when the member is missing, and returns the
    parsed output or [None] when the value is refused. *)
Module Zod.
Import Js.

Definition Schema (A : Type) : Type := option json -> option A.

(** [z.string()] *)
Definition z_string : Schema string := fun v =>
  match v with
  | Some (JStr s) => Some s
  | _ => None
  end.

(** [.max(n)] and [.min(n)] on a string schema: bounds on [length]. *)
Definition str_max (n : Z) (s : Schema string) : Schema string := fun v =>
  x ← s v; if str_length x <=? n then Some x else None.

Definition str_min (n : Z) (s : Schema string) : Schema string := fun v =>
  x ← s v; if n <=? str_length x then Some x else None.

(** [.trim()] on a string schema. *)
Definition str_trim (s : Schema string) : Schema string := fun v =>
  trim <$> s v.

(** [z.number()]: a number other than NaN. *)
Definition z_number : Schema number := fun v =>
  match v with
  | Some (JNum NaN) => None
  | Some (JNum n) => Some n
  | _ => None
  end.

(** [.min(lo)] and [.max(hi)] on a number schema. *)
Definition num_min (lo : Z) (s : Schema number) : Schema number := fun v =>
  x ← s v; if num_ge x (of_Z lo) then Some x else None.

Definition num_max (hi : Z) (s : Schema number) : Schema number := fun v =>
  x ← s v; if num_le x (of_Z hi) then Some x else None.

(** [z.enum([...])] *)
Definition z_enum (values : list string) : Schema string := fun v =>
  match v with
  | Some (JStr s) => if bool_decide (s ∈ values) then Some s else None
  | _ => None
  end.

(** [z.literal(n)] for a number [n]. *)
Definition z_literal (n : Z) : Schema number := fun v =>
  match v with
  | Some (JNum x) => if num_strict_eq x (of_Z n) then Some x else None
  | _ => None
  end.

(** [z.array(item)] *)
Definition z_array {A} (item : Schema A) : Schema (list A) := fun v =>
  match v with
  | Some (JArr items) => mapM (fun x => item (Some x)) items
  | _ => None
  end.

(** [.optional()]: a missing member is accepted. *)
Definition optional {A} (s : Schema A) : Schema (option A) := fun v =>
  match v with
  | None => Some None
  | Some _ => Some <$> s v
  end.

(** [z.object({...})] accepts an object and checks the listed members;
    members that are not listed are dropped. *)
Definition z_object {A} (shape : (string -> option json) -> option A) : Schema A :=
  fun v =>
  match v with
  | Some (JObj members) => shape (member members)
  | _ => None
  end.

End Zod.

(** ** src/components/SettingsMenu.tsx *)

Module SettingsMenu.
Import Js Zod.

Definition accountSchema : Schema Account.t :=
  z_object (fun get =>
    id ← z_string (get "id");
    issuer ← str_max 100 z_string (get "issuer");
    label ← str_max 200 z_string (get "label");
    secret ← str_max 500 z_string (get "secret");
    algorithm ← z_enum ["SHA1"; "SHA256"; "SHA512"] (get "algorithm");
    digits ← num_max 10 (num_min 1 z_number) (get "digits");
    period ← num_max 300 (num_min 1 z_number) (get "period");
    createdAt ← z_number (get "createdAt");
    backupCodes ← optional (z_array (str_max 100 z_string)) (get "backupCodes");
    Some (Account.Make id issuer label secret algorithm digits period
                       createdAt backupCodes)).

(** The output of [backupSchema]. *)
Record Backup := MkBackup {
  version : number;
  exportedAt : number;
  bundle_accounts : list Account.t;
}.

Definition backupSchema : Schema Backup :=
  z_object (fun get =>
    version ← z_literal 1 (get "version");
    exportedAt ← z_number (get "exportedAt");
    accs ← z_array accountSchema (get "accounts");
    Some (MkBackup version exportedAt accs)).

(** The callback of [result.data.accounts.map]: the seven members carried
    over, [id] and [createdAt] drawn anew. *)
Definition reissue (acc : Account.t) (w : World) : Account.t * World :=
  let '(id, w1) := randomUUID w in
  let '(now, w2) := Date_now w1 in
  ({|
    Account.issuer := Account.issuer acc;
    Account.label := Account.label acc;
    Account.secret := Account.secret acc;
    Account.algorithm := Account.algorithm acc;
    Account.digits := Account.digits acc;
    Account.period := Account.period acc;
    Account.backupCodes := Account.backupCodes acc;
    Account.id := id;
    Account.createdAt := of_Z now;
  |}, w2).

(** [list.map(f)] for a callback with effects, left to right. *)
Fixpoint map_in_world {A B} (f : A -> World -> B * World) (l : list A) (w : World)
  : list B * World :=
  match l with
  | [] => ([], w)
  | x :: rest =>
      let '(y, w1) := f x w in
      let '(ys, w2) := map_in_world f rest w1 in
      (y :: ys, w2)
  end.

(** [handleImport].  [file] is what the handler gets out of the chosen
    file: [None] when no file was chosen, otherwise the completion of
    [JSON.parse(await file.text())].  [onImportAccounts] is the store's
    [importAccounts], as [Index] wires it. *)
Definition handleImport (file : option (Completion json)) (w : World) : World :=
  match file with
  | None => w
  | Some text =>
      match text with
      | Normal data =>
          match backupSchema (Some data) with
          | None => show_toast (ToastError "Invalid backup file format") w
          | Some result =>
              let '(importedAccounts, w1) :=
                map_in_world reissue (bundle_accounts result) w in
              let w2 := UseAccounts.importAccounts importedAccounts w1 in
              show_toast
                (ToastSuccess ("Imported " +:+ decimal (length importedAccounts)
                               +:+ " account(s)")) w2
          end
      | Throw _ => show_toast (ToastError "Failed to read backup file") w
      end
  end.

End SettingsMenu.

(** ** src/pages/Index.tsx *)

Module Index.
Import Js Zod OtpauthParser.

(** The three inputs of the manual entry form. *)
Record Form := MkForm {
  form_issuer : string;
  form_label : string;
  form_secret : string;
}.

Record ManualEntry := MkManualEntry {
  entry_issuer : string;
  entry_label : string;
  entry_secret : string;
}.

Definition manualEntrySchema : Schema ManualEntry :=
  z_object (fun get =>
    issuer ← str_max 50 (str_min 1 (str_trim z_string)) (get "issuer");
    label ← str_max 100 (str_min 1 (str_trim z_string)) (get "label");
    secret ← str_min 1 (str_trim z_string) (get "secret");
    Some (MkManualEntry issuer label secret)).

(** The message zod reports for one input: the one of [.min(1, ...)] or
    the one of [.max(n, ...)], whichever check fails on the trimmed text. *)
Definition issue (value required : string) (limit : option (Z * string))
  : option string :=
  let t := trim value in
  if str_length t <? 1 then Some required
  else match limit with
       | Some (n, too_long) => if n <? str_length t then Some too_long else None
       | None => None
       end.

(** [fieldErrors]: for every reported issue, the message under the name of
    its input. *)
Definition fieldErrors (f : Form) : gmap string string :=
  let add (name : string) (msg : option string) (m : gmap string string) :=
    match msg with
    | Some text => <[name := text]> m
    | None => m
    end in
  add "secret" (issue (form_secret f) "Secret key is required" None)
    (add "label" (issue (form_label f) "Account name is required"
                        (Some (100, "Account name too long")))
       (add "issuer" (issue (form_issuer f) "Service name is required"
                            (Some (50, "Service name too long"))) ∅)).

Definition form_object (f : Form) : json :=
  JObj [("issuer", JStr (form_issuer f));
        ("label", JStr (form_label f));
        ("secret", JStr (form_secret f))].

(** [handleQRScan] *)
Definition handleQRScan `{Platform} (data : string) (w : World) : Completion World :=
  bind (parseOTPAuthURI data) (fun parsed =>
  match parsed with
  | Some parsed =>
      let '(_, w1) :=
        UseAccounts.addAccount {|
          Parsed.issuer := Parsed.issuer parsed;
          Parsed.label := Parsed.label parsed;
          Parsed.secret := Parsed.secret parsed;
          Parsed.algorithm := Parsed.algorithm parsed;
          Parsed.digits := Parsed.digits parsed;
          Parsed.period := Parsed.period parsed;
        |} w in
      Normal (set_errors ∅
                (show_toast (ToastSuccess ("Added " +:+ Parsed.issuer parsed)) w1))
  | None =>
      Normal (show_toast
                (ToastError "Invalid QR code. Please scan a valid authenticator QR code.")
                w)
  end).

(** [handleManualSubmit] *)
Definition handleManualSubmit `{Platform} (f : Form) (w : World) : World :=
  let w0 := set_errors ∅ w in
  match manualEntrySchema (Some (form_object f)) with
  | None => set_errors (fieldErrors f) w0
  | Some data =>
      let cleanSecret := toUpperCase (remove_whitespace (form_secret f)) in
      if negb (validateSecret cleanSecret)
      then set_errors
             {[ "secret" := "Invalid secret key format. Must be a valid Base32 string." ]}
             w0
      else
        let '(_, w1) :=
          UseAccounts.addAccount {|
            Parsed.issuer := entry_issuer data;
            Parsed.label := entry_label data;
            Parsed.secret := cleanSecret;
            Parsed.algorithm := "SHA1";
            Parsed.digits := of_Z 6;
            Parsed.period := of_Z 30;
          |} w0 in
        set_errors ∅
          (show_toast (ToastSuccess ("Added " +:+ entry_issuer data)) w1)
  end.

End Index.

(** ** src/hooks/useTOTP.ts *)

(** The part of the [otpauth] package the hook calls.  The package is a
    dependency, not part of the repository: [Secret_fromBase32] decodes a
    Base32 text to the key bytes, [TOTP_new] is the constructor of
    [OTPAuth.TOTP] and [TOTP_generate] its method [generate], which is
    given the reading of [Date.now()] it takes.  Each may throw. *)
Module TOTPOptions.
Record t := Make {
  issuer : string;
  label : string;
  algorithm : string;
  digits : Js.number;
  period : Js.number;
  secret : list N;
}.
End TOTPOptions.

Class OTPAuth := {
  TOTP : Type;
  Secret_fromBase32 : string -> Js.Completion (list N);
  TOTP_new : TOTPOptions.t -> Js.Completion TOTP;
  TOTP_generate : TOTP -> Z -> Js.Completion string;
}.

(** Computations that read the world and may throw: the world is kept
    when an exception is thrown, so that a [catch] clause runs in the world
    the [try] block left. *)
Module Eff.
Import Js.

Definition t (A : Type) : Type := World -> Completion A * World.

Definition ret {A} (a : A) : t A := fun w => (Normal a, w).

Definition bind {A B} (m : t A) (k : A -> t B) : t B := fun w =>
  match m w with
  | (Normal a, w1) => k a w1
  | (Throw e, w1) => (Throw e, w1)
  end.

(** A pure computation that may throw. *)
Definition lift {A} (c : Completion A) : t A := fun w => (c, w).

(** A reading of the world that cannot throw. *)
Definition read {A} (f : World -> A * World) : t A := fun w =>
  let '(a, w1) := f w in (Normal a, w1).

(** [try { body } catch (error) { handler }] *)
Definition try_catch {A} (body : t A) (handler : exn -> t A) : t A := fun w =>
  match body w with
  | (Normal a, w1) => (Normal a, w1)
  | (Throw e, w1) => handler e w1
  end.

End Eff.

Notation "x <- m ;; k" := (Eff.bind m (fun x => k))
  (at level 62, m at next level, right associativity).

Module UseTOTP.
Import Js.

(** [generateCode]: the [catch] clause logs the error and returns the
    placeholder.  [totp.generate()] takes one reading of [Date.now()]. *)
Definition generateCode `{Platform} `{OTPAuth} (account : Account.t) : Eff.t string :=
  Eff.try_catch
    (key <- Eff.lift (Secret_fromBase32
                 (toUpperCase (remove_whitespace (Account.secret account))));;
     totp <- Eff.lift (TOTP_new {|
                 TOTPOptions.issuer := Account.issuer account;
                 TOTPOptions.label := Account.label account;
                 TOTPOptions.algorithm := Account.algorithm account;
                 TOTPOptions.digits := Account.digits account;
                 TOTPOptions.period := Account.period account;
                 TOTPOptions.secret := key;
               |});;
     now <- Eff.read Date_now;;
     Eff.lift (TOTP_generate totp now))
    (fun error => Eff.ret "------").



End UseTOTP.

(** ** A reference decoder

    The Base32 decoder of the [otpauth] package: trailing padding is
    dropped, the text is upper-cased, and every character is looked up in
    the alphabet of RFC 4648; a character that is not in it throws a
    [TypeError].  Five bits are shifted in per character and a byte is
    written out whenever eight are there.  It gives an executable
    [Secret_fromBase32]; the theorems of the second part do not depend on
    it. *)

Module Base32.
Import Js.

Definition ALPHABET : string := "ABCDEFGHIJKLMNOPQRSTUVWXYZ234567".

(** [ALPHABET.indexOf(c)], [None] for -1. *)
Fixpoint index_from (s : string) (c : code_unit) (i : N) : option N :=
  match s with
  | EmptyString => None
  | String d s' => if bool_decide (d = c) then Some i else index_from s' c (i + 1)
  end.

Definition indexOf (c : code_unit) : option N := index_from ALPHABET c 0.

(** The text without its trailing [=] characters. *)
Fixpoint strip_padding (s : string) : string :=
  match s with
  | EmptyString => EmptyString
  | String c s' =>
      match strip_padding s' with
      | EmptyString => if bool_decide (c = "="%u) then EmptyString
                       else String c EmptyString
      | t => String c t
      end
  end.

(** The loop over the characters: [value] holds the bits read and not yet
    written out, of which there are [bits]. *)
Fixpoint decode_loop (s : string) (bits value : N) : Completion (list N) :=
  match s with
  | EmptyString => Normal []
  | String c s' =>
      match indexOf c with
      | None => Throw (Exn "TypeError" ("Invalid character found: " +:+ String c EmptyString))
      | Some idx =>
          let value := N.land (N.lor (N.shiftl value 5) idx) 0xFFFFFFFF in
          let bits := (bits + 5)%N in
          if (8 <=? bits)%N
          then bind (decode_loop s' (bits - 8) value) (fun rest =>
               Normal (N.land (N.shiftr value (bits - 8)) 0xFF :: rest))
          else decode_loop s' bits value
      end
  end.

Definition base32Decode `{Platform} (s : string) : Completion (list N) :=
  decode_loop (toUpperCase (strip_padding s)) 0 0.

(** The package with this decoder and a given code generator. *)
Definition lib `{Platform} (generate : TOTPOptions.t -> Z -> Completion string)
  : OTPAuth := {|
  TOTP := TOTPOptions.t;
  Secret_fromBase32 := base32Decode;
  TOTP_new := Normal;
  TOTP_generate := generate;
|}.

End Base32.

(** ** Sample data

    A world with two stored accounts, a backup file and a code generator,
    for evaluating the handlers. *)

Module Samples.
Import Js.

Definition alice : Account.t := {|
  Account.id := "3f0c9a52-7d1e-4b8a-9c66-0d2f5e8a1b47";
  Account.issuer := "Example";
  Account.label := "alice@example.com";
  Account.secret := "JBSWY3DPEHPK3PXP";
  Account.algorithm := "SHA1";
  Account.digits := of_Z 6;
  Account.period := of_Z 30;
  Account.createdAt := of_Z 1700000000000;
  Account.backupCodes := None;
|}.

Definition bob : Account.t := {|
  Account.id := "b81d4e2c-55aa-4f07-8e39-6a7c1f0d9e21";
  Account.issuer := "ACME";
  Account.label := "bob";
  Account.secret := "secret-0189!";
  Account.algorithm := "SHA256";
  Account.digits := of_Z 8;
  Account.period := of_Z 60;
  Account.createdAt := of_Z 1700000500000;
  Account.backupCodes := Some ["alpha-1"; "beta-2"];
|}.

(** A source of ids that never repeats: the [n]-th id ends in [n] marks. *)
Fixpoint marks (n : nat) : string :=
  match n with
  | O => EmptyString
  | S k => String "I"%u (marks k)
  end.

Definition world : World := {|
  accounts := [alice; bob];
  localStorage :=
    {[ UseAccounts.STORAGE_KEY := Stringify.accounts_json [alice; bob] ]};
  uuid_source := fun n => "00000000-0000-4000-8000-" +:+ marks n;
  uuid_calls := 0;
  clock := fun n => Z.of_nat n + 1700001000000;
  clock_calls := 0;
  toasts := [];
  errors := ∅;
|}.

(** The same world before any account is stored. *)
Definition fresh : World := {|
  accounts := [];
  localStorage := ∅;
  uuid_source := uuid_source world;
  uuid_calls := 0;
  clock := clock world;
  clock_calls := 0;
  toasts := [];
  errors := ∅;
|}.

(** A filled manual entry form. *)
Definition form : Index.Form := {|
  Index.form_issuer := " Example ";
  Index.form_label := "carol";
  Index.form_secret := "jbsw y3dp ehpk 3pxp";
|}.

(** A secret written in small letters with a space, a no-break space and
    an ideographic space. *)
Definition spaced_secret : string :=
  "jbsw y3dp" +:+ String 0xA0%N ("ehpk" +:+ String 0x3000%N "3pxp").

(** An account of a backup file: the id is alice's, the digits are given. *)
Definition account_json (digits : Z) : json :=
  JObj [("id", JStr (Account.id alice));
        ("issuer", JStr "Imported");
        ("label", JStr "carol");
        ("secret", JStr "gezd gnbv gy3t qojq");
        ("algorithm", JStr "SHA512");
        ("digits", JNum (of_Z digits));
        ("period", JNum (of_Z 30));
        ("createdAt", JNum (of_Z 1600000000000));
        ("backupCodes", JArr [JStr "one"; JStr "two"])].


Definition backup_accounts (digits : Z) : list json :=
  [account_json 6; account_json digits].

Definition backup_members (version digits : Z) : list (string * json) :=
  [("version", JNum (of_Z version));
   ("exportedAt", JNum (of_Z 1700000900000));
   ("accounts", JArr (backup_accounts digits))].

Definition backup_json (version digits : Z) : json :=
  JObj (backup_members version digits).

(** The [otpauth] package with the reference decoder; the generator
    stands for the keyed hash, which is not modelled. *)
Definition otpauth : OTPAuth :=
  @Base32.lib AsciiPlatform.platform (fun _ _ => Normal "000000").

End Samples.

(** ** More of JavaScript's strings *)

Module JsText.

(** [s.slice(0, n)] *)
Fixpoint take (n : nat) (s : string) : string :=
  match n, s with
  | S k, String c s' => String c (take k s')
  | _, _ => EmptyString
  end.

(** [s.slice(n)] for [n] at least 0. *)
Fixpoint drop (n : nat) (s : string) : string :=
  match n, s with
  | S k, String _ s' => drop k s'
  | _, _ => s
  end.

(** [s.slice(-n)]: the last [n] code units, the whole text when it is
    shorter. *)
Definition take_last (n : nat) (s : string) : string :=
  drop (len s - n) s.

(** [c.repeat(n)] for a one-character text. *)
Fixpoint repeat_char (c : code_unit) (n : nat) : string :=
  match n with
  | O => EmptyString
  | S k => String c (repeat_char c k)
  end.

End JsText.

(** ** src/components/SettingsMenu.tsx, continued *)

Module Backup.
Import Js.

(** [handleExport]: with no account nothing is written; otherwise the
    result is the content of the downloaded file, as [JSON.parse] reads
    it.  The name of the file is left out. *)
Definition handleExport (w : World) : option json * World :=
  if bool_decide (length (accounts w) = 0%nat)
  then (None, show_toast (ToastError "No accounts to export") w)
  else
    let '(now, w1) := Date_now w in
    let backup :=
      JObj [("version", JNum (of_Z 1));
            ("exportedAt", JNum (of_Z now));
            ("accounts", JArr (Stringify.account_json <$> accounts w1))] in
    (Some backup, show_toast (ToastSuccess "Backup exported successfully") w1).

(** [handleClearAll], with the store's [clearAllAccounts] as
    [onClearAllAccounts]. *)
Definition handleClearAll (w : World) : World :=
  show_toast (ToastSuccess "All accounts cleared")
             (UseAccounts.clearAllAccounts w).

End Backup.

(** ** src/components/AccountCard.tsx *)

Module AccountCard.
Import Js.

(** [code.slice(0, 3) + ' ' + code.slice(3)] *)
Definition formattedCode (code : string) : string :=
  JsText.take 3 code +:+ " " +:+ JsText.drop 3 code.

(** [handleDelete], with the store's [removeAccount] as [onDelete]. *)
Definition handleDelete (account : Account.t) (w : World) : World :=
  show_toast (ToastSuccess "Account removed")
             (UseAccounts.removeAccount (Account.id account) w).

End AccountCard.

(** ** src/components/BackupCodesDialog.tsx *)

Module BackupCodesDialog.
Import Js Zod.

(** The two states of the dialog the handlers write. *)
Record State := MkState {
  newCode : string;
  error : string;
}.

Definition backupCodeSchema : Schema string :=
  str_max 50 (str_min 4 (str_trim z_string)).

(** [result.error.errors[0].message] when the schema refuses a text. *)
Definition first_issue (value : string) : string :=
  if str_length (trim value) <? 4 then "Code too short" else "Code too long".

(** [account.backupCodes || []] *)
Definition backupCodes (account : Account.t) : list string :=
  default [] (Account.backupCodes account).

(** [handleAddCode], with the store's [updateBackupCodes] as
    [onUpdateBackupCodes]. *)
Definition handleAddCode (account : Account.t) (st : State) (w : World)
  : State * World :=
  match backupCodeSchema (Some (JStr (newCode st))) with
  | None => (MkState (newCode st) (first_issue (newCode st)), w)
  | Some _ =>
      let trimmedCode := trim (newCode st) in
      if bool_decide (trimmedCode ∈ backupCodes account)
      then (MkState (newCode st) "This code already exists", w)
      else
        let w1 := UseAccounts.updateBackupCodes (Account.id account)
                    (backupCodes account ++ [trimmedCode]) w in
        (MkState EmptyString EmptyString,
         show_toast (ToastSuccess "Backup code added") w1)
  end.

(** [backupCodes.filter((_, i) => i !== index)] *)
Fixpoint filter_index (index : nat) (i : nat) (codes : list string) : list string :=
  match codes with
  | [] => []
  | code :: rest =>
      if bool_decide (i <> index)
      then code :: filter_index index (S i) rest
      else filter_index index (S i) rest
  end.

(** [handleDeleteCode] *)
Definition handleDeleteCode (account : Account.t) (index : nat) (w : World) : World :=
  let updatedCodes := filter_index index 0 (backupCodes account) in
  show_toast (ToastSuccess "Backup code removed")
    (UseAccounts.updateBackupCodes (Account.id account) updatedCodes w).

(** The bullet that hides a character. *)
Definition bullet : code_unit := "•"%u.

(** [maskCode] *)
Definition maskCode (code : string) : string :=
  if str_length code <=? 4 then "••••"
  else JsText.take 2 code
       +:+ JsText.repeat_char bullet (len code - 4)
       +:+ JsText.take_last 2 code.

End BackupCodesDialog.

(** ** src/pages/BackupCodes.tsx *)

Module BackupCodes.
Import Js Zod.

Module BackupCode.
Record t := Make {
  id : string;
  code : string;
  label : option string;
  createdAt : number;
}.
End BackupCode.

(** What [JSON.parse] reads back from the text [JSON.stringify] writes
    for a backup code and for the list of them. *)
Definition code_json (c : BackupCode.t) : json :=
  JObj ([("id", JStr (BackupCode.id c));
         ("code", JStr (BackupCode.code c))]
        ++ match BackupCode.label c with
           | Some l => [("label", JStr l)]
           | None => []
           end
        ++ [("createdAt", Stringify.number_json (BackupCode.createdAt c))]).

Definition codes_json (l : list BackupCode.t) : json :=
  JArr (code_json <$> l).

(** The states of the page the handlers write; [stored] is the entry of
    [localStorage] under [BACKUP_CODES_KEY], the text kept as the value
    [JSON.parse] reads from it. *)
Record Page := MkPage {
  codes : list BackupCode.t;
  stored : option json;
  newCode : string;
  newLabel : string;
  error : string;
}.

Definition codeSchema : Schema string :=
  str_max 100 (str_min 1 (str_trim z_string)).

Definition first_issue (value : string) : string :=
  if str_length (trim value) <? 1 then "Code cannot be empty" else "Code too long".

(** [saveCodes]: [localStorage.setItem(BACKUP_CODES_KEY,
    JSON.stringify(newCodes))], then [setCodes(newCodes)]. *)
Definition saveCodes (newCodes : list BackupCode.t) (p : Page) : Page :=
  MkPage newCodes (Some (codes_json newCodes)) (newCode p) (newLabel p) (error p).

(** [newLabel.trim() || undefined] *)
Definition label_of (newLabel : string) : option string :=
  match trim newLabel with
  | EmptyString => None
  | t => Some t
  end.

(** [handleAddCode] *)
Definition handleAddCode (p : Page) (w : World) : Page * World :=
  match codeSchema (Some (JStr (newCode p))) with
  | None =>
      (MkPage (codes p) (stored p) (newCode p) (newLabel p)
              (first_issue (newCode p)), w)
  | Some _ =>
      let trimmedCode := trim (newCode p) in
      let '(id, w1) := randomUUID w in
      let '(now, w2) := Date_now w1 in
      let newBackupCode := {|
        BackupCode.id := id;
        BackupCode.code := trimmedCode;
        BackupCode.label := label_of (newLabel p);
        BackupCode.createdAt := of_Z now;
      |} in
      (MkPage (newBackupCode :: codes p)
              (Some (codes_json (newBackupCode :: codes p)))
              EmptyString EmptyString EmptyString,
       show_toast (ToastSuccess "Backup code added") w2)
  end.

(** [handleDeleteCode] *)
Definition handleDeleteCode (id : string) (p : Page) (w : World) : Page * World :=
  (saveCodes (filter (fun c => BackupCode.id c <> id) (codes p)) p,
   show_toast (ToastSuccess "Backup code deleted") w).

(** [maskCode] of the page: at most twelve bullets. *)
Definition maskCode (code : string) : string :=
  if str_length code <=? 4 then "••••"
  else JsText.take 2 code
       +:+ JsText.repeat_char BackupCodesDialog.bullet (Nat.min (len code - 4) 12)
       +:+ JsText.take_last 2 code.

End BackupCodes.

(** ** The actions of the user

    What the page [Index] lets the user do to the store.  A card is drawn
    for every account of the list, so the card of an action is named by
    its place in the list; an action on a place that holds no card does
    nothing. *)

Module App.
Import Js.

Inductive Action :=
| Scan (data : string)
| ManualSubmit (f : Index.Form)
| DeleteAccount (card : nat)
| AddCode (card : nat) (newCode : string)
| DeleteCode (card : nat) (index : nat)
| Import (file : option (Completion json))
| Export
| ClearAll.

Definition step `{Platform} (a : Action) (w : World) : World :=
  match a with
  | Scan data =>
      match Index.handleQRScan data w with
      | Normal w' => w'
      | Throw _ => w
      end
  | ManualSubmit f => Index.handleManualSubmit f w
  | DeleteAccount card =>
      match accounts w !! card with
      | Some account => AccountCard.handleDelete account w
      | None => w
      end
  | AddCode card newCode =>
      match accounts w !! card with
      | Some account =>
          snd (BackupCodesDialog.handleAddCode account
                 (BackupCodesDialog.MkState newCode EmptyString) w)
      | None => w
      end
  | DeleteCode card index =>
      match accounts w !! card with
      | Some account => BackupCodesDialog.handleDeleteCode account index w
      | None => w
      end
  | Import file => SettingsMenu.handleImport file w
  | Export => snd (Backup.handleExport w)
  | ClearAll => Backup.handleClearAll w
  end.

(** The actions of a session, in order. *)
Definition run `{Platform} (actions : list Action) (w : World) : World :=
  foldl (fun w a => step a w) w actions.

End App.

(** ** What the store keeps

    The two conditions the theorems on sessions are about, and the two
    ways an action can leave the store. *)

Module Invariants.

(** The snapshot in [localStorage] is the text [JSON.stringify] writes
    for the account list. *)
Definition persisted (w : World) : Prop :=
  localStorage w !! UseAccounts.STORAGE_KEY
  = Some (Stringify.accounts_json (accounts w)).

(** The ids of the stored accounts, in order. *)
Definition ids (w : World) : list string := Account.id <$> accounts w.

(** No id that will be drawn from now on is the id of a stored account. *)
Definition draws_are_new (w : World) : Prop :=
  forall acc k, acc ∈ accounts w -> (uuid_calls w <= k)%nat ->
    uuid_source w k <> Account.id acc.

(** The action left the account list, the snapshot and the source of ids
    alone. *)
Definition untouched (w w' : World) : Prop :=
  accounts w' = accounts w
  /\ localStorage w' = localStorage w
  /\ uuid_calls w' = uuid_calls w
  /\ uuid_source w' = uuid_source w.

(** The action saved the list [l] after drawing [n] ids. *)
Definition saved (l : list Account.t) (n : nat) (w w' : World) : Prop :=
  accounts w' = l
  /\ localStorage w'
     = <[UseAccounts.STORAGE_KEY := Stringify.accounts_json l]> (localStorage w)
  /\ uuid_calls w' = (uuid_calls w + n)%nat
  /\ uuid_source w' = uuid_source w.

End Invariants.

(** ** The bounds of the backup schema, on an account

    What [accountSchema] asks of the members of an account, said of a
    stored account: the lengths, the algorithm, the ranges, and a
    creation time that is a finite number (one that is not is written as
    [null] by [JSON.stringify]). *)

Module SchemaBounds.
Import Js.

Definition within (a : Account.t) : Prop :=
  str_length (Account.issuer a) <= 100
  /\ str_length (Account.label a) <= 200
  /\ str_length (Account.secret a) <= 500
  /\ is_algorithm (Account.algorithm a) = true
  /\ num_ge (Account.digits a) (of_Z 1) = true
  /\ num_le (Account.digits a) (of_Z 10) = true
  /\ num_ge (Account.period a) (of_Z 1) = true
  /\ num_le (Account.period a) (of_Z 300) = true
  /\ (exists q, Account.createdAt a = Fin q)
  /\ Forall (fun c => str_length c <= 100) (default [] (Account.backupCodes a)).

End SchemaBounds.

(** ** More sample data *)

Module MoreSamples.
Import Js.

(** An account as a scan of a URI with [digits=11] leaves it. *)
Definition mallory : Account.t := {|
  Account.id := "7a1e0c55-2b3d-4c4e-9f10-aa0b1c2d3e4f";
  Account.issuer := "Example";
  Account.label := "mallory";
  Account.secret := "JBSWY3DPEHPK3PXP";
  Account.algorithm := "SHA1";
  Account.digits := of_Z 11;
  Account.period := of_Z 30;
  Account.createdAt := of_Z 1700000700000;
  Account.backupCodes := None;
|}.

Definition world : World := {|
  accounts := [Samples.alice; mallory];
  localStorage :=
    {[ UseAccounts.STORAGE_KEY := Stringify.accounts_json [Samples.alice; mallory] ]};
  uuid_source := uuid_source Samples.world;
  uuid_calls := 0;
  clock := clock Samples.world;
  clock_calls := 0;
  toasts := [];
  errors := ∅;
|}.


End MoreSamples.

(** ** The specification's secret codec (section 4.1)

    Written after the specification's words, to be compared with
    [validateSecret]: [normalize] strips white space and upper-cases; a
    secret is valid when, normalized, it is a non-empty run of characters
    of the alphabet [A-Z2-7] followed by a run of [=], and has at least 16
    characters.  White space is given by the list of its characters,
    stripping by a filter on the list of code units; upper-casing is the
    platform's. *)

Module SecretCodec.

Definition white_space : list code_unit :=
  [0x09; 0x0A; 0x0B; 0x0C; 0x0D; 0x20; 0xA0; 0x1680;
   0x2000; 0x2001; 0x2002; 0x2003; 0x2004; 0x2005; 0x2006; 0x2007;
   0x2008; 0x2009; 0x200A; 0x2028; 0x2029; 0x202F; 0x205F; 0x3000;
   0xFEFF]%N.

Definition strip (raw : string) : string :=
  of_list (filter (fun c => c ∉ white_space) (to_list raw)).

Definition normalize `{Platform} (raw : string) : string :=
  toUpperCase (strip raw).

Definition in_alphabet (c : code_unit) : Prop :=
  ("A"%u <= c <= "Z"%u)%N \/ ("2"%u <= c <= "7"%u)%N.

Definition small_letter (c : code_unit) : Prop :=
  ("a"%u <= c <= "z"%u)%N.

Definition drawn_from (P : code_unit -> Prop) (s : string) : Prop :=
  Forall P (to_list s).

Definition encoded (n : string) : Prop :=
  exists body padding,
    n = body +:+ padding
    /\ body <> EmptyString
    /\ drawn_from in_alphabet body
    /\ drawn_from (fun c => c = "="%u) padding.

Definition valid `{Platform} (secret : string) : Prop :=
  encoded (normalize secret) /\ 16 <= str_length (normalize secret).

End SecretCodec.

(* ===================================================================== *)
(** * Part II: the theorems                                               *)
(* ===================================================================== *)

Import Js.

#[local] Arguments append !_ _ / : simpl nomatch.

(** ** Strings *)

Lemma append_empty_r (s : string) : s +:+ EmptyString = s.
Proof. induction s as [|c s IH]; simpl; [reflexivity | now rewrite IH]. Qed.

Lemma append_eq_empty (s1 s2 : string) :
  s1 +:+ s2 = EmptyString -> s1 = EmptyString /\ s2 = EmptyString.
Proof. destruct s1; simpl; intros E; [split; [reflexivity | exact E] | discriminate]. Qed.

Lemma str_forall_Forall (p : code_unit -> bool) (s : string) :
  str_forall p s = true <-> Forall (fun c => p c = true) (to_list s).
Proof.
  induction s as [|c s IH]; simpl.
  - split; [constructor | reflexivity].
  - rewrite andb_true_iff, IH. split.
    + intros [Hc Hs]. now constructor.
    + intros H. inversion H; subst. now split.
Qed.

(** ** Regular expressions: the matcher decides the language *)

Section RegexFacts.
Import Regex.

Lemma nullable_Matches (r : regex) :
  nullable r = true <-> Matches r EmptyString.
Proof.
  induction r as [| |p|r1 IH1 r2 IH2|r1 IH1 r2 IH2|r IH]; simpl.
  - split; [discriminate | inversion 1].
  - split; [constructor | reflexivity].
  - split; [discriminate | inversion 1].
  - rewrite andb_true_iff, IH1, IH2. split.
    + intros [H1 H2]. change EmptyString with (EmptyString +:+ EmptyString).
      now constructor.
    + intros H. inversion H as [| |? ? s1 s2 H1 H2 [E1 E2] E| | | |].
      apply append_eq_empty in E as [-> ->]. now split.
  - rewrite orb_true_iff, IH1, IH2. split.
    + intros [H|H]; [now apply MAltL | now apply MAltR].
    + intros H. inversion H; subst; [now left | now right].
  - split; [constructor | reflexivity].
Qed.

Lemma Matches_star_cons (r : regex) (c : code_unit) (s : string) :
  Matches (Star r) (String c s) ->
  exists s1 s2, s = s1 +:+ s2 /\ Matches r (String c s1) /\ Matches (Star r) s2.
Proof.
  intros H. remember (Star r) as R eqn:ER. remember (String c s) as w eqn:Ew.
  revert s Ew.
  induction H as [| | | | | |r0 s1 s2 H1 _ H2 IH2]; intros t Ew; try discriminate.
  injection ER as ->.
  destruct s1 as [|d s1]; simpl in Ew.
  - now apply IH2.
  - injection Ew as -> <-. exists s1, s2. now repeat split.
Qed.

Lemma deriv_Matches (r : regex) (c : code_unit) (s : string) :
  Matches (deriv c r) s <-> Matches r (String c s).
Proof.
  revert s.
  induction r as [| |p|r1 IH1 r2 IH2|r1 IH1 r2 IH2|r IH]; intros s; simpl.
  - split; inversion 1.
  - split; inversion 1.
  - destruct (p c) eqn:Hp; split; intros H; inversion H; subst.
    + now constructor.
    + constructor.
    + congruence.
  - assert (Hseq : Matches (Seq (deriv c r1) r2) s ->
                   Matches (Seq r1 r2) (String c s)).
    { intros H. inversion H as [| |? ? s1 s2 H1 H2| | | |]; subst.
      apply IH1 in H1. change (String c (s1 +:+ s2)) with (String c s1 +:+ s2).
      now constructor. }
    assert (Hinv : Matches (Seq r1 r2) (String c s) ->
                   Matches (Seq (deriv c r1) r2) s
                   \/ (nullable r1 = true /\ Matches (deriv c r2) s)).
    { intros H. inversion H as [| |? ? s1 s2 H1 H2 [E1 E2] E| | | |].
      destruct s1 as [|d s1]; simpl in E.
      - subst s2. right. split; [now apply nullable_Matches | now apply IH2].
      - injection E as -> <-. left. constructor; [now apply IH1 | assumption]. }
    destruct (nullable r1) eqn:Hn; split.
    + intros H. inversion H; subst; [now apply Hseq|].
      change (String c s) with (EmptyString +:+ String c s).
      constructor; [now apply nullable_Matches | now apply IH2].
    + intros H. destruct (Hinv H) as [H1|[_ H2]]; [now apply MAltL | now apply MAltR].
    + exact Hseq.
    + intros H. destruct (Hinv H) as [H1|[E _]]; [assumption | discriminate].
  - split; intros H; inversion H; subst.
    + apply MAltL. now apply IH1.
    + apply MAltR. now apply IH2.
    + apply MAltL. now apply IH1.
    + apply MAltR. now apply IH2.
  - split.
    + intros H. inversion H as [| |? ? s1 s2 H1 H2| | | |]; subst.
      apply IH in H1. change (String c (s1 +:+ s2)) with (String c s1 +:+ s2).
      now constructor.
    + intros H. apply Matches_star_cons in H as (s1 & s2 & -> & H1 & H2).
      constructor; [now apply IH | assumption].
Qed.

(** [test] accepts exactly the words of the expression. *)
Lemma test_Matches (r : regex) (s : string) :
  test r s = true <-> Matches r s.
Proof.
  revert r. induction s as [|c s IH]; intros r; simpl.
  - apply nullable_Matches.
  - rewrite IH. apply deriv_Matches.
Qed.

Lemma Matches_star_class (p : code_unit -> bool) (s : string) :
  Matches (Star (Class p)) s <-> str_forall p s = true.
Proof.
  split.
  - intros H. remember (Star (Class p)) as R eqn:ER.
    induction H as [| | | | | |r0 s1 s2 H1 _ H2 IH2]; try discriminate.
    + reflexivity.
    + injection ER as ->. inversion H1; subst. simpl.
      rewrite IH2 by reflexivity. now rewrite andb_true_r.
  - induction s as [|c s IH]; simpl; intros H.
    + constructor.
    + apply andb_true_iff in H as [Hc Hs].
      change (String c s) with (String c EmptyString +:+ s).
      constructor; [now constructor | now apply IH].
Qed.

Lemma Matches_plus_class (p : code_unit -> bool) (s : string) :
  Matches (Plus (Class p)) s <-> s <> EmptyString /\ str_forall p s = true.
Proof.
  unfold Plus. split.
  - intros H. inversion H as [| |? ? s1 s2 H1 H2| | | |]; subst.
    inversion H1; subst. apply Matches_star_class in H2. simpl.
    split; [discriminate | now rewrite H2, andb_true_r].
  - intros [Hne H]. destruct s as [|c s]; [congruence|].
    simpl in H. apply andb_true_iff in H as [Hc Hs].
    change (String c s) with (String c EmptyString +:+ s).
    constructor; [now constructor | now apply Matches_star_class].
Qed.

End RegexFacts.

(** ** validateSecret *)

Section UnitFacts.

(** White space as the specification's codec lists it is the white space
    of the code. *)
Lemma is_space_white (c : code_unit) :
  is_space c = true <-> c ∈ SecretCodec.white_space.
Proof.
  split.
  - unfold is_space, in_range, is_unit.
    rewrite !orb_true_iff, !andb_true_iff, !N.leb_le, !N.eqb_eq. intros Hc.
    assert (E : (c = 0x09 \/ c = 0x0A \/ c = 0x0B \/ c = 0x0C \/ c = 0x0D
                 \/ c = 0x20 \/ c = 0xA0 \/ c = 0x1680
                 \/ c = 0x2000 \/ c = 0x2001 \/ c = 0x2002 \/ c = 0x2003
                 \/ c = 0x2004 \/ c = 0x2005 \/ c = 0x2006 \/ c = 0x2007
                 \/ c = 0x2008 \/ c = 0x2009 \/ c = 0x200A \/ c = 0x2028
                 \/ c = 0x2029 \/ c = 0x202F \/ c = 0x205F \/ c = 0x3000
                 \/ c = 0xFEFF)%N) by lia.
    clear Hc. unfold SecretCodec.white_space.
    repeat (destruct E as [->|E];
            [repeat first [apply list_elem_of_here | apply list_elem_of_further]|]).
    subst c. repeat first [apply list_elem_of_here | apply list_elem_of_further].
  - unfold SecretCodec.white_space. intros Hc.
    repeat (apply elem_of_cons in Hc as [->|Hc]; [reflexivity|]).
    now apply elem_of_nil in Hc.
Qed.

Lemma strip_remove_whitespace (s : string) :
  SecretCodec.strip s = remove_whitespace s.
Proof.
  unfold SecretCodec.strip, remove_whitespace.
  induction s as [|c s IH]; [reflexivity|].
  cbn [to_list str_filter].
  destruct (is_space c) eqn:Hc; cbn [negb].
  - rewrite filter_cons_False by (intros Hn; apply Hn; now apply is_space_white).
    exact IH.
  - rewrite filter_cons_True.
    + cbn [of_list]. now rewrite IH.
    + intros Hin. apply is_space_white in Hin. congruence.
Qed.

(** The characters of the alphabet, the padding and the digits are of the
    ASCII range, are no white space and are their own upper case. *)
Definition settled (c : code_unit) : Prop :=
  (c < 128)%N /\ is_space c = false /\ ascii_upper c = c.

Lemma settled_range (c : code_unit) :
  (33 <= c <= 96)%N -> settled c.
Proof.
  intros Hc. unfold settled, ascii_upper, is_lower, is_space, in_range, is_unit.
  split; [lia|]. split.
  - rewrite !orb_false_iff, !andb_false_iff, !N.leb_gt, !N.eqb_neq. lia.
  - replace ((97 <=? c)%N) with false; [reflexivity|].
    symmetry. apply N.leb_gt. lia.
Qed.

Lemma small_letter_upper (c : code_unit) :
  SecretCodec.small_letter c ->
  (c < 128)%N /\ is_space c = false
  /\ SecretCodec.in_alphabet (ascii_upper c).
Proof.
  unfold SecretCodec.small_letter, SecretCodec.in_alphabet.
  change ("a"%u) with 97%N. change ("z"%u) with 122%N.
  change ("A"%u) with 65%N. change ("Z"%u) with 90%N.
  change ("2"%u) with 50%N. change ("7"%u) with 55%N.
  intros Hc. split; [lia|]. split.
  - unfold is_space, in_range, is_unit.
    rewrite !orb_false_iff, !andb_false_iff, !N.leb_gt, !N.eqb_neq. lia.
  - unfold ascii_upper, is_lower, in_range.
    rewrite (proj2 (N.leb_le 97 c)), (proj2 (N.leb_le c 122)) by lia.
    simpl. lia.
Qed.

(** A letter of the alphabet in either case, a digit of the alphabet or
    white space. *)
Definition relaxed (c : code_unit) : Prop :=
  SecretCodec.in_alphabet c \/ SecretCodec.small_letter c
  \/ c ∈ SecretCodec.white_space.

End UnitFacts.

Section TextFacts.

Lemma includes_app (s1 s2 : string) (c : code_unit) :
  includes (s1 +:+ s2) c = includes s1 c || includes s2 c.
Proof. apply str_exists_app. Qed.

Lemma includes_forall (p : code_unit -> bool) (s : string) (c : code_unit) :
  includes s c = true -> str_forall p s = true -> p c = true.
Proof.
  unfold includes. induction s as [|d s IH]; simpl; [discriminate|].
  intros Hi Hf. apply andb_true_iff in Hf as [Hd Hs].
  apply orb_true_iff in Hi as [Hi|Hi].
  - apply bool_decide_eq_true in Hi. now subst.
  - now apply IH.
Qed.

(** A text that includes a character is cut in two at it. *)
Lemma includes_cut (s : string) (c : code_unit) :
  includes s c = true -> exists s1 s2, s = s1 +:+ String c s2.
Proof.
  unfold includes. induction s as [|d s IH]; simpl; [discriminate|].
  intros H. apply orb_true_iff in H as [H|H].
  - apply bool_decide_eq_true in H. subst d. now exists EmptyString, s.
  - destruct (IH H) as (s1 & s2 & ->). now exists (String d s1), s2.
Qed.

Lemma includes_remove_whitespace (s : string) (c : code_unit) :
  is_space c = false ->
  includes s c = true -> includes (remove_whitespace s) c = true.
Proof.
  intros Hsp. unfold remove_whitespace, includes.
  induction s as [|d s IH]; simpl; [discriminate|].
  intros H. apply orb_true_iff in H as [H|H].
  - apply bool_decide_eq_true in H. subst d. rewrite Hsp. simpl.
    now rewrite bool_decide_eq_true_2.
  - destruct (is_space d); simpl; [now apply IH|].
    rewrite (IH H). apply orb_true_r.
Qed.

Lemma remove_whitespace_none (s : string) :
  str_exists is_space (remove_whitespace s) = false.
Proof.
  unfold remove_whitespace. induction s as [|c s IH]; simpl; [reflexivity|].
  destruct (is_space c) eqn:Hc; simpl; [exact IH | now rewrite Hc].
Qed.

Lemma remove_whitespace_same (s : string) :
  str_exists is_space s = false -> remove_whitespace s = s.
Proof.
  unfold remove_whitespace. induction s as [|c s IH]; simpl; [reflexivity|].
  intros H. apply orb_false_iff in H as [Hc Hs].
  rewrite Hc. simpl. now rewrite IH.
Qed.

Lemma len_str_map (f : code_unit -> code_unit) (s : string) :
  len (str_map f s) = len s.
Proof. induction s as [|c s IH]; simpl; [reflexivity | now rewrite IH]. Qed.

End TextFacts.

Section SecretFacts.
Import OtpauthParser.
Context `{Platform}.

(** On a text of the ASCII range [toUpperCase] maps every code unit by
    [ascii_upper]. *)
Lemma toUpperCase_of_ascii (s : string) :
  str_forall (fun c => (c <? 128)%N) s = true ->
  toUpperCase s = str_map ascii_upper s.
Proof.
  induction s as [|c s IH]; simpl; [intros _; apply toUpperCase_empty|].
  intros Hs. apply andb_true_iff in Hs as [Hc Hs]. apply N.ltb_lt in Hc.
  change (String c s) with (EmptyString +:+ String c s).
  rewrite (toUpperCase_ascii EmptyString c s Hc), toUpperCase_empty.
  simpl. now rewrite IH.
Qed.

Lemma normalize_clean (s : string) : SecretCodec.normalize s = clean s.
Proof. unfold SecretCodec.normalize, clean. now rewrite strip_remove_whitespace. Qed.

Lemma base32_char_alphabet (c : code_unit) :
  base32_char c = true <-> SecretCodec.in_alphabet c.
Proof.
  unfold base32_char, in_range, SecretCodec.in_alphabet.
  change ("A"%u) with 65%N. change ("Z"%u) with 90%N.
  change ("2"%u) with 50%N. change ("7"%u) with 55%N.
  rewrite orb_true_iff, !andb_true_iff, !N.leb_le. reflexivity.
Qed.

Lemma pad_char_eq (c : code_unit) : pad_char c = true <-> c = "="%u.
Proof. unfold pad_char. apply bool_decide_eq_true. Qed.

Lemma base32_char_settled (c : code_unit) : base32_char c = true -> settled c.
Proof.
  intros Hc. apply base32_char_alphabet in Hc.
  apply settled_range. unfold SecretCodec.in_alphabet in Hc.
  change ("A"%u) with 65%N in Hc. change ("Z"%u) with 90%N in Hc.
  change ("2"%u) with 50%N in Hc. change ("7"%u) with 55%N in Hc. lia.
Qed.

Lemma drawn_from_alphabet (s : string) :
  SecretCodec.drawn_from SecretCodec.in_alphabet s <-> str_forall base32_char s = true.
Proof.
  unfold SecretCodec.drawn_from. rewrite str_forall_Forall.
  apply Forall_iff. intros c. symmetry. apply base32_char_alphabet.
Qed.

Lemma drawn_from_padding (s : string) :
  SecretCodec.drawn_from (fun c => c = "="%u) s <-> str_forall pad_char s = true.
Proof.
  unfold SecretCodec.drawn_from. rewrite str_forall_Forall.
  apply Forall_iff. intros c. symmetry. apply pad_char_eq.
Qed.

(** A text of settled characters is its own cleaning. *)
Lemma clean_settled (s : string) :
  SecretCodec.drawn_from settled s -> clean s = s.
Proof.
  intros Hs. unfold clean.
  assert (Hsame : remove_whitespace s = s).
  { apply remove_whitespace_same.
    induction s as [|c s IH]; [reflexivity|].
    inversion Hs as [|? ? (_ & Hc & _) Hs']; subst. simpl.
    rewrite Hc. now apply IH. }
  rewrite Hsame, toUpperCase_of_ascii.
  - induction s as [|c s IH]; [reflexivity|].
    inversion Hs as [|? ? (_ & _ & Hc) Hs']; subst. simpl.
    rewrite Hc. f_equal. apply IH; [exact Hs'|].
    apply remove_whitespace_same.
    clear -Hs'. induction s as [|d s IH]; [reflexivity|].
    inversion Hs' as [|? ? (_ & Hd & _) Hs'']; subst. simpl.
    rewrite Hd. now apply IH.
  - apply str_forall_Forall. eapply Forall_impl; [exact Hs|].
    intros c (Hc & _). now apply N.ltb_lt.
Qed.

Lemma clean_alphabet (s : string) :
  str_forall base32_char s = true -> clean s = s.
Proof.
  intros Hs. apply clean_settled. apply str_forall_Forall in Hs.
  eapply Forall_impl; [exact Hs|]. intros c. apply base32_char_settled.
Qed.

(** The pattern [/^[A-Z2-7]+=*$/] accepts the encoded texts of the
    specification. *)
Lemma secret_pattern_encoded (n : string) :
  Regex.test secret_pattern n = true <-> SecretCodec.encoded n.
Proof.
  rewrite test_Matches. unfold secret_pattern, SecretCodec.encoded. split.
  - intros Hm. inversion Hm as [| |? ? body padding Hb Hp| | | |]; subst.
    apply Matches_plus_class in Hb as [Hne Hb].
    apply Matches_star_class in Hp.
    exists body, padding. split; [reflexivity|]. split; [assumption|].
    split; [now apply drawn_from_alphabet | now apply drawn_from_padding].
  - intros (body & padding & -> & Hne & Hb & Hp).
    constructor.
    + apply Matches_plus_class. split; [assumption | now apply drawn_from_alphabet].
    + apply Matches_star_class. now apply drawn_from_padding.
Qed.

Lemma validateSecret_valid (s : string) :
  validateSecret s = true <-> SecretCodec.valid s.
Proof.
  unfold validateSecret, SecretCodec.valid. rewrite normalize_clean.
  rewrite andb_true_iff, secret_pattern_encoded, Z.geb_le. reflexivity.
Qed.

(** A settled character survives the cleaning. *)
Lemma includes_clean (s : string) (c : code_unit) :
  settled c -> includes s c = true -> includes (clean s) c = true.
Proof.
  intros (Hc & Hsp & Hup) Hi. unfold clean.
  apply (includes_remove_whitespace _ _ Hsp) in Hi.
  apply includes_cut in Hi as (s1 & s2 & ->).
  rewrite (toUpperCase_ascii s1 c s2 Hc), Hup, includes_app.
  unfold includes at 2. simpl. rewrite bool_decide_eq_true_2 by reflexivity.
  apply orb_true_r.
Qed.

(** No encoded text holds a character outside the alphabet and the
    padding. *)
Lemma encoded_excludes (n : string) (c : code_unit) :
  base32_char c = false -> pad_char c = false ->
  includes n c = true -> ~ SecretCodec.encoded n.
Proof.
  intros Hb Hp Hi (body & padding & -> & _ & Hbody & Hpad).
  rewrite includes_app in Hi. apply orb_true_iff in Hi as [Hi|Hi].
  - apply drawn_from_alphabet in Hbody.
    rewrite (includes_forall _ _ _ Hi Hbody) in Hb. discriminate.
  - apply drawn_from_padding in Hpad.
    rewrite (includes_forall _ _ _ Hi Hpad) in Hp. discriminate.
Qed.

Lemma validateSecret_excludes (s : string) (c : code_unit) :
  settled c ->
  base32_char c = false -> pad_char c = false ->
  includes s c = true -> validateSecret s = false.
Proof.
  intros Hc Hb Hp Hi.
  destruct (validateSecret s) eqn:E; [|reflexivity].
  apply validateSecret_valid in E as [He _].
  exfalso. apply (encoded_excludes (SecretCodec.normalize s) c Hb Hp); [|exact He].
  rewrite normalize_clean. now apply includes_clean.
Qed.

Lemma drawn_from_relaxed (s : string) :
  str_forall (fun c => base32_char c || is_lower c || is_space c) s = true ->
  SecretCodec.drawn_from relaxed s.
Proof.
  intros Hs. apply str_forall_Forall in Hs.
  eapply Forall_impl; [exact Hs|]. intros c Hc. cbv beta in Hc.
  apply orb_true_iff in Hc as [Hc|Hc]; [apply orb_true_iff in Hc as [Hc|Hc]|].
  - left. now apply base32_char_alphabet.
  - right. left. unfold is_lower, in_range in Hc.
    apply andb_true_iff in Hc as [Hlo Hhi]. apply N.leb_le in Hlo, Hhi.
    unfold SecretCodec.small_letter.
    change ("a"%u) with 97%N. change ("z"%u) with 122%N. lia.
  - right. right. now apply is_space_white.
Qed.

(** Cleaned, such a text is the text without its white space, every small
    letter replaced by the capital, and a text of the alphabet. *)
Lemma clean_relaxed (s : string) :
  SecretCodec.drawn_from relaxed s ->
  clean s = str_map ascii_upper (SecretCodec.strip s)
  /\ str_forall base32_char (clean s) = true.
Proof.
  intros Hs. unfold clean. rewrite strip_remove_whitespace.
  assert (Hrest : Forall (fun c => (c < 128)%N
                                   /\ SecretCodec.in_alphabet (ascii_upper c))
                         (to_list (remove_whitespace s))).
  { unfold remove_whitespace. induction s as [|c s IH]; [constructor|].
    inversion Hs as [|? ? Hc Hs']; subst. simpl.
    destruct (is_space c) eqn:Hsp; simpl; [now apply IH|].
    constructor; [|now apply IH].
    destruct Hc as [Hc|[Hc|Hc]].
    - pose proof Hc as Ha.
      apply base32_char_alphabet, base32_char_settled in Hc as (Hlt & _ & Hup).
      split; [exact Hlt|]. now rewrite Hup.
    - apply small_letter_upper in Hc as (Hlt & _ & Hup). now split.
    - apply is_space_white in Hc. congruence. }
  rewrite toUpperCase_of_ascii.
  - split; [reflexivity|].
    induction (remove_whitespace s) as [|c t IH]; [reflexivity|].
    inversion Hrest as [|? ? (_ & Hc) Ht]; subst. simpl.
    rewrite (proj2 (base32_char_alphabet _) Hc). now apply IH.
  - apply str_forall_Forall. eapply Forall_impl; [exact Hrest|].
    intros c (Hc & _). now apply N.ltb_lt.
Qed.

End SecretFacts.

(** C2.  [validateSecret s] is true exactly when [s], stripped of white
    space and upper-cased, is a non-empty run of characters of [A-Z2-7]
    followed by a run of [=] and has at least 16 characters.  In
    particular a text holding one of the digits 0, 1, 8, 9 is refused, a
    text of fewer than 16 normalized characters is refused, and a text of
    16 or more characters of [A-Z2-7] is accepted.  The stripping and the
    upper-casing are at work: a text of letters [A-Z] and [a-z], digits
    [2-7] and white space of any kind is accepted as soon as 16 of its
    characters are no white space, and normalized it is that text
    without the white space, in capitals. *)
Theorem validateSecret_spec `{Platform} (s : string) :
  (OtpauthParser.validateSecret s = true <-> SecretCodec.valid s)
  /\ (includes s "0" = true \/ includes s "1" = true
      \/ includes s "8" = true \/ includes s "9" = true ->
      OtpauthParser.validateSecret s = false)
  /\ (str_length (SecretCodec.normalize s) < 16 ->
      OtpauthParser.validateSecret s = false)
  /\ (SecretCodec.drawn_from SecretCodec.in_alphabet s -> 16 <= str_length s ->
      OtpauthParser.validateSecret s = true)
  /\ (SecretCodec.drawn_from
        (fun c => SecretCodec.in_alphabet c \/ SecretCodec.small_letter c
                  \/ c ∈ SecretCodec.white_space) s ->
      16 <= str_length (SecretCodec.strip s) ->
      OtpauthParser.validateSecret s = true
      /\ SecretCodec.normalize s = str_map ascii_upper (SecretCodec.strip s)).
Proof.
  split; [apply validateSecret_valid|]. split; [|split; [|split]].
  - intros [Hi|[Hi|[Hi|Hi]]];
      (eapply validateSecret_excludes; [| | |exact Hi];
       [apply settled_range; vm_compute; split; discriminate
       | reflexivity | reflexivity]).
  - intros Hlen. unfold OtpauthParser.validateSecret.
    rewrite <- normalize_clean.
    rewrite Z.geb_leb. rewrite (proj2 (Z.leb_gt _ _) Hlen).
    apply andb_false_r.
  - intros Hd Hlen. apply drawn_from_alphabet in Hd.
    apply validateSecret_valid. unfold SecretCodec.valid.
    rewrite normalize_clean, (clean_alphabet s Hd). split; [|exact Hlen].
    exists s, EmptyString. rewrite append_empty_r.
    split; [reflexivity|]. split.
    + intros ->. vm_compute in Hlen. now apply Hlen.
    + split; [now apply drawn_from_alphabet | constructor].
  - intros Hd Hlen.
    destruct (clean_relaxed s Hd) as [Hclean Hall].
    assert (Hsize : str_length (OtpauthParser.clean s)
                    = str_length (SecretCodec.strip s)).
    { rewrite Hclean. unfold str_length. now rewrite len_str_map. }
    split; [|now rewrite normalize_clean].
    apply validateSecret_valid. unfold SecretCodec.valid.
    rewrite normalize_clean, Hsize. split; [|exact Hlen].
    exists (OtpauthParser.clean s), EmptyString. rewrite append_empty_r.
    split; [reflexivity|]. split.
    + intros E. rewrite E in Hsize. rewrite <- Hsize in Hlen.
      vm_compute in Hlen. now apply Hlen.
    + split; [now apply drawn_from_alphabet | constructor].
Qed.

Lemma validateSecret_spec_witness :
  @OtpauthParser.validateSecret AsciiPlatform.platform "JBSWY3DPEHPK3PX1" = false
  /\ @OtpauthParser.validateSecret AsciiPlatform.platform "jbsw y3dp" = false
  /\ @OtpauthParser.validateSecret AsciiPlatform.platform "JBSWY3DPEHPK3PXP" = true
  /\ @OtpauthParser.validateSecret AsciiPlatform.platform
       Samples.spaced_secret = true
  /\ @SecretCodec.normalize AsciiPlatform.platform Samples.spaced_secret
     = "JBSWY3DPEHPK3PXP".
Proof.
  split; [|split; [|split]].
  - destruct (@validateSecret_spec AsciiPlatform.platform "JBSWY3DPEHPK3PX1")
      as (_ & Hr & _).
    apply Hr. right. left. reflexivity.
  - destruct (@validateSecret_spec AsciiPlatform.platform "jbsw y3dp")
      as (_ & _ & Hr & _).
    apply Hr. vm_compute. reflexivity.
  - destruct (@validateSecret_spec AsciiPlatform.platform "JBSWY3DPEHPK3PXP")
      as (_ & _ & _ & Hr & _).
    apply Hr.
    + apply drawn_from_alphabet. reflexivity.
    + vm_compute. discriminate.
  - destruct (@validateSecret_spec AsciiPlatform.platform Samples.spaced_secret)
      as (_ & _ & _ & _ & Hr).
    destruct Hr as [Hv Hn].
    + apply drawn_from_relaxed. reflexivity.
    + vm_compute. discriminate.
    + split; [exact Hv|]. rewrite Hn. vm_compute. reflexivity.
Defined.

(** ** Numbers: integer arithmetic inside [number] *)






(** ** useTOTP: the countdown *)




(** ** useAccounts: the store *)

Section StoreFacts.
Import UseAccounts.

Lemma accounts_saveAccounts (l : list Account.t) (w : World) :
  accounts (saveAccounts l w) = l.
Proof. reflexivity. Qed.

(** A mapping that rewrites the accounts of one id keeps the length and
    the order, and every account of another id. *)
Lemma map_by_id_frame (f : Account.t -> Account.t) (id : string)
    (l : list Account.t) :
  let l' := (fun acc => if bool_decide (Account.id acc = id) then f acc else acc) <$> l in
  length l' = length l
  /\ (forall i acc, l !! i = Some acc -> Account.id acc <> id -> l' !! i = Some acc)
  /\ (forall i acc, l !! i = Some acc -> Account.id acc = id -> l' !! i = Some (f acc)).
Proof.
  simpl. split; [apply length_fmap|].
  split; intros i acc Hi Hid; rewrite list_lookup_fmap, Hi; simpl.
  - now rewrite bool_decide_eq_false_2.
  - now rewrite bool_decide_eq_true_2.
Qed.

End StoreFacts.

(** C10.  [updateAccount] and [updateBackupCodes] leave a list of the same
    length, in the same order, in which every account whose id is not the
    given one is the account it was; an account of the given id is the
    only one rewritten. *)
Theorem update_frame (w : World) (id : string) (updates : Partial.t)
    (codes : list string) :
  (length (accounts (UseAccounts.updateAccount id updates w)) = length (accounts w)
   /\ (forall i acc, accounts w !! i = Some acc -> Account.id acc <> id ->
         accounts (UseAccounts.updateAccount id updates w) !! i = Some acc)
   /\ (forall i acc, accounts w !! i = Some acc -> Account.id acc = id ->
         accounts (UseAccounts.updateAccount id updates w) !! i
         = Some (UseAccounts.spread acc updates)))
  /\ (length (accounts (UseAccounts.updateBackupCodes id codes w)) = length (accounts w)
      /\ (forall i acc, accounts w !! i = Some acc -> Account.id acc <> id ->
            accounts (UseAccounts.updateBackupCodes id codes w) !! i = Some acc)
      /\ (forall i acc, accounts w !! i = Some acc -> Account.id acc = id ->
            accounts (UseAccounts.updateBackupCodes id codes w) !! i
            = Some (UseAccounts.with_backupCodes acc codes))).
Proof.
  unfold UseAccounts.updateAccount, UseAccounts.updateBackupCodes.
  rewrite !accounts_saveAccounts. split.
  - apply (map_by_id_frame (fun acc => UseAccounts.spread acc updates)).
  - apply (map_by_id_frame (fun acc => UseAccounts.with_backupCodes acc codes)).
Qed.

Lemma update_frame_witness :
  accounts (UseAccounts.updateBackupCodes (Account.id Samples.bob) ["gamma-3"]
              Samples.world) !! 0%nat
  = Some Samples.alice
  /\ accounts (UseAccounts.updateBackupCodes (Account.id Samples.bob) ["gamma-3"]
                 Samples.world) !! 1%nat
     = Some (UseAccounts.with_backupCodes Samples.bob ["gamma-3"]).
Proof.
  destruct (update_frame Samples.world (Account.id Samples.bob)
              (Partial.Make None None None None None None None None None)
              ["gamma-3"]) as (_ & _ & Hother & Hsame).
  split.
  - apply Hother; [reflexivity | discriminate].
  - apply Hsame; reflexivity.
Defined.

(** ** parseOTPAuthURI *)

Section ParserFacts.
Import OtpauthParser.
Context `{Platform}.

(** What an accepted URI looks like, and what the credential holds. *)
Lemma parseOTPAuthURI_accepts (uri : string) (p : Parsed.t) :
  parseOTPAuthURI uri = Normal (Some p) ->
  exists url path c s,
    new_URL uri = Normal url
    /\ URL.protocol url = "otpauth:"
    /\ URL.host url = "totp"
    /\ decodeURIComponent (slice1 (URL.pathname url)) = Normal path
    /\ params_get (URL.searchParams url) "secret" = Some (String c s)
    /\ p = {|
         Parsed.issuer :=
           or_else
             (Some (if params_has (URL.searchParams url) "issuer"
                    then or_else (params_get (URL.searchParams url) "issuer")
                                 (fst (label_format path))
                    else fst (label_format path)))
             "Unknown";
         Parsed.label := snd (label_format path);
         Parsed.secret := String c s;
         Parsed.algorithm :=
           or_else (toUpperCase <$> params_get (URL.searchParams url) "algorithm")
                   "SHA1";
         Parsed.digits :=
           parseInt10 (or_else (params_get (URL.searchParams url) "digits") "6");
         Parsed.period :=
           parseInt10 (or_else (params_get (URL.searchParams url) "period") "30");
       |}.
Proof.
  unfold parseOTPAuthURI, parseOTPAuthURI_try.
  destruct (new_URL uri) as [url|e]; simpl; [|discriminate].
  destruct (bool_decide (URL.protocol url = "otpauth:")) eqn:Hproto;
    simpl; [|discriminate].
  destruct (bool_decide (URL.host url = "totp")) eqn:Hhost;
    simpl; [|discriminate].
  destruct (decodeURIComponent (slice1 (URL.pathname url))) as [path|e] eqn:Hpath;
    simpl; [|discriminate].
  destruct (label_format path) as [issuer label] eqn:Hlabel.
  destruct (params_get (URL.searchParams url) "secret") as [[|c s]|] eqn:Hsecret;
    simpl; try discriminate.
  intros E. injection E as <-.
  apply bool_decide_eq_true in Hproto, Hhost.
  exists url, path, c, s. rewrite Hsecret, Hlabel. simpl. now repeat split.
Qed.

Lemma parseOTPAuthURI_total (uri : string) :
  exists r, parseOTPAuthURI uri = Normal r.
Proof.
  unfold parseOTPAuthURI.
  destruct (parseOTPAuthURI_try uri); simpl; eauto.
Qed.

End ParserFacts.

(** C3.  [parseOTPAuthURI] always returns and never throws.  It returns
    null when the [URL] constructor refuses the text, when the scheme is
    not [otpauth], when the host is not [totp], when the query has no
    [secret], and when the path cannot be decoded.  On an accepted URI an
    absent [algorithm] gives [SHA1], an absent [digits] gives 6 and an
    absent [period] gives 30. *)
Theorem parseOTPAuthURI_rejects_and_defaults `{Platform} (uri : string) :
  (exists r, OtpauthParser.parseOTPAuthURI uri = Normal r)
  /\ (forall e, new_URL uri = Throw e ->
        OtpauthParser.parseOTPAuthURI uri = Normal None)
  /\ (forall url, new_URL uri = Normal url ->
        URL.protocol url <> "otpauth:"
        \/ URL.host url <> "totp"
        \/ params_get (URL.searchParams url) "secret" = None
        \/ (exists e, decodeURIComponent (slice1 (URL.pathname url)) = Throw e) ->
        OtpauthParser.parseOTPAuthURI uri = Normal None)
  /\ (forall url p, new_URL uri = Normal url ->
        OtpauthParser.parseOTPAuthURI uri = Normal (Some p) ->
        (params_get (URL.searchParams url) "algorithm" = None ->
           Parsed.algorithm p = "SHA1")
        /\ (params_get (URL.searchParams url) "digits" = None ->
              Parsed.digits p = of_Z 6)
        /\ (params_get (URL.searchParams url) "period" = None ->
              Parsed.period p = of_Z 30)).
Proof.
  split; [apply parseOTPAuthURI_total|]. split; [|split].
  - intros e He. unfold OtpauthParser.parseOTPAuthURI, OtpauthParser.parseOTPAuthURI_try.
    now rewrite He.
  - intros url Hurl Hbad.
    destruct (parseOTPAuthURI_total uri) as [[p|] Hr]; [|exact Hr].
    exfalso.
    apply parseOTPAuthURI_accepts in Hr
      as (url' & path & c & s & Hurl' & Hproto & Hhost & Hpath & Hsecret & _).
    rewrite Hurl in Hurl'. injection Hurl' as <-.
    destruct Hbad as [Hbad|[Hbad|[Hbad|[e Hbad]]]]; congruence.
  - intros url p Hurl Hp.
    apply parseOTPAuthURI_accepts in Hp
      as (url' & path & c & s & Hurl' & _ & _ & _ & _ & ->).
    rewrite Hurl in Hurl'. injection Hurl' as <-. simpl.
    split; [|split]; intros ->; reflexivity.
Qed.

Lemma parseOTPAuthURI_rejects_and_defaults_witness :
  @OtpauthParser.parseOTPAuthURI AsciiPlatform.platform
     "http://example.com/Example:alice?secret=JBSWY3DPEHPK3PXP" = Normal None
  /\ @OtpauthParser.parseOTPAuthURI AsciiPlatform.platform
       "otpauth://hotp/Example:alice?secret=JBSWY3DPEHPK3PXP&counter=1" = Normal None
  /\ @OtpauthParser.parseOTPAuthURI AsciiPlatform.platform
       "otpauth://totp/Example:alice?issuer=Example" = Normal None
  /\ @OtpauthParser.parseOTPAuthURI AsciiPlatform.platform "no scheme here" = Normal None
  /\ (exists p,
        @OtpauthParser.parseOTPAuthURI AsciiPlatform.platform
          "otpauth://totp/Example:alice?secret=JBSWY3DPEHPK3PXP" = Normal (Some p)
        /\ Parsed.algorithm p = "SHA1" /\ Parsed.digits p = of_Z 6
        /\ Parsed.period p = of_Z 30).
Proof.
  split; [|split; [|split; [|split]]].
  - destruct (@parseOTPAuthURI_rejects_and_defaults AsciiPlatform.platform
                "http://example.com/Example:alice?secret=JBSWY3DPEHPK3PXP")
      as (_ & _ & Hr & _).
    eapply Hr; [vm_compute; reflexivity|]. left. simpl. discriminate.
  - destruct (@parseOTPAuthURI_rejects_and_defaults AsciiPlatform.platform
                "otpauth://hotp/Example:alice?secret=JBSWY3DPEHPK3PXP&counter=1")
      as (_ & _ & Hr & _).
    eapply Hr; [vm_compute; reflexivity|]. right. left. simpl. discriminate.
  - destruct (@parseOTPAuthURI_rejects_and_defaults AsciiPlatform.platform
                "otpauth://totp/Example:alice?issuer=Example")
      as (_ & _ & Hr & _).
    eapply Hr; [vm_compute; reflexivity|]. right. right. left. reflexivity.
  - destruct (@parseOTPAuthURI_rejects_and_defaults AsciiPlatform.platform
                "no scheme here")
      as (_ & Hr & _ & _).
    eapply Hr. vm_compute. reflexivity.
  - destruct (@parseOTPAuthURI_rejects_and_defaults AsciiPlatform.platform
                "otpauth://totp/Example:alice?secret=JBSWY3DPEHPK3PXP")
      as (_ & _ & _ & Hd).
    eexists. split; [vm_compute; reflexivity|].
    edestruct Hd as (Ha & Hdig & Hper);
      [vm_compute; reflexivity | vm_compute; reflexivity |].
    split; [apply Ha; reflexivity|].
    split; [apply Hdig; reflexivity | apply Hper; reflexivity].
Defined.

(** C8, as the code has it.  An [issuer] parameter that is present and not
    empty is the credential's issuer.  When the parameter is absent or
    empty the issuer derived from the label path stands.  Whenever the
    issuer is empty after both steps the credential's issuer is
    ["Unknown"]. *)
Theorem issuer_precedence `{Platform} (uri : string) (url : URL.t)
    (path : string) (p : Parsed.t) :
  new_URL uri = Normal url ->
  decodeURIComponent (slice1 (URL.pathname url)) = Normal path ->
  OtpauthParser.parseOTPAuthURI uri = Normal (Some p) ->
  (forall v, params_get (URL.searchParams url) "issuer" = Some v ->
     v <> EmptyString -> Parsed.issuer p = v)
  /\ (params_get (URL.searchParams url) "issuer" = Some EmptyString
      \/ params_get (URL.searchParams url) "issuer" = None ->
      Parsed.issuer p
      = or_else (Some (fst (OtpauthParser.label_format path))) "Unknown")
  /\ (or_else (params_get (URL.searchParams url) "issuer")
              (fst (OtpauthParser.label_format path)) = EmptyString ->
      Parsed.issuer p = "Unknown").
Proof.
  intros Hurl Hpath Hp.
  apply parseOTPAuthURI_accepts in Hp
    as (url' & path' & c & s & Hurl' & _ & _ & Hpath' & _ & ->).
  rewrite Hurl in Hurl'. injection Hurl' as <-.
  rewrite Hpath in Hpath'. injection Hpath' as <-. simpl.
  unfold params_has.
  destruct (params_get (URL.searchParams url) "issuer") as [v|] eqn:Hv.
  - rewrite bool_decide_eq_true_2 by eauto.
    split; [|split].
    + intros v' [= <-] Hne. destruct v; [congruence | reflexivity].
    + intros [[= ->]|[=]]. reflexivity.
    + simpl. intros ->. reflexivity.
  - rewrite bool_decide_eq_false_2 by (intros [? [=]]).
    split; [|split].
    + intros v' [=].
    + intros _. reflexivity.
    + simpl. intros ->. reflexivity.
Qed.

Lemma issuer_precedence_witness :
  exists p,
    @OtpauthParser.parseOTPAuthURI AsciiPlatform.platform
      "otpauth://totp/ACME:bob?secret=JBSWY3DPEHPK3PXP&issuer=Example"
    = Normal (Some p)
    /\ Parsed.issuer p = "Example".
Proof.
  eexists. split; [vm_compute; reflexivity|].
  edestruct (@issuer_precedence AsciiPlatform.platform
               "otpauth://totp/ACME:bob?secret=JBSWY3DPEHPK3PXP&issuer=Example")
    as (Hv & _ & _);
    [vm_compute; reflexivity | vm_compute; reflexivity | vm_compute; reflexivity |].
  apply Hv; [reflexivity | discriminate].
Defined.

(** C8, as the specification states it, fails: with an [issuer] parameter that is
    present and empty, the issuer of the label path is kept; it is neither
    the parameter's value nor ["Unknown"]. *)
Lemma issuer_param_empty_counterexample :
  exists url p,
    @new_URL AsciiPlatform.platform
      "otpauth://totp/ACME:bob?secret=JBSWY3DPEHPK3PXP&issuer=" = Normal url
    /\ params_has (URL.searchParams url) "issuer" = true
    /\ params_get (URL.searchParams url) "issuer" = Some EmptyString
    /\ @OtpauthParser.parseOTPAuthURI AsciiPlatform.platform
         "otpauth://totp/ACME:bob?secret=JBSWY3DPEHPK3PXP&issuer=" = Normal (Some p)
    /\ Parsed.issuer p = "ACME"
    /\ Parsed.issuer p <> "Unknown"
    /\ Parsed.issuer p <> EmptyString.
Proof.
  eexists. eexists.
  split; [vm_compute; reflexivity|].
  split; [vm_compute; reflexivity|].
  split; [vm_compute; reflexivity|].
  split; [vm_compute; reflexivity|].
  split; [reflexivity|]. split; discriminate.
Qed.

(** C1.  The parser takes [algorithm], [digits] and [period] from the query
    as they come: on this URI it returns the algorithm ["MD5"], which is
    none of the three of its return type, 11 digits and a period of 0. *)
Theorem parseOTPAuthURI_unchecked :
  exists p,
    @OtpauthParser.parseOTPAuthURI AsciiPlatform.platform
      "otpauth://totp/Example:alice?secret=JBSWY3DPEHPK3PXP&algorithm=md5&digits=11&period=0"
    = Normal (Some p)
    /\ Parsed.algorithm p = "MD5"
    /\ is_algorithm (Parsed.algorithm p) = false
    /\ Parsed.digits p = of_Z 11
    /\ Parsed.period p = of_Z 0.
Proof.
  eexists. split; [vm_compute; reflexivity|].
  repeat split.
Qed.

(** ** useTOTP: code generation *)

(** C9.  [generateCode] never throws.  When the secret of the account
    fails decoding, it returns the placeholder ["------"], which holds no
    digit, and leaves the world as it was. *)
Theorem generateCode_placeholder `{Platform} `{OTPAuth} (account : Account.t)
    (w : World) :
  (exists code w', UseTOTP.generateCode account w = (Normal code, w'))
  /\ (forall e,
        Secret_fromBase32
          (toUpperCase (remove_whitespace (Account.secret account))) = Throw e ->
        UseTOTP.generateCode account w = (Normal "------", w)
        /\ str_exists is_digit "------" = false).
Proof.
  unfold UseTOTP.generateCode, Eff.try_catch, Eff.bind, Eff.lift, Eff.read, Eff.ret.
  split.
  - destruct (Secret_fromBase32 _) as [key|e]; [|eauto].
    destruct (TOTP_new _) as [totp|e]; [|eauto].
    simpl. destruct (TOTP_generate _ _); eauto.
  - intros e He. rewrite He. split; reflexivity.
Qed.

Lemma generateCode_placeholder_witness :
  @UseTOTP.generateCode AsciiPlatform.platform Samples.otpauth
     Samples.bob Samples.world
  = (Normal "------", Samples.world).
Proof.
  destruct (@generateCode_placeholder AsciiPlatform.platform Samples.otpauth
              Samples.bob Samples.world)
    as [_ Hp].
  eapply Hp. vm_compute. reflexivity.
Defined.

(** ** The zod schemas *)

Section ZodFacts.
Import Zod.

Lemma z_string_Some (v : option json) (s : string) :
  z_string v = Some s <-> v = Some (JStr s).
Proof.
  unfold z_string. destruct v as [[]|]; split; intros E; congruence.
Qed.

Lemma str_max_Some (n : Z) (sch : Schema string) (v : option json) (s : string) :
  str_max n sch v = Some s <-> sch v = Some s /\ str_length s <= n.
Proof.
  unfold str_max. destruct (sch v) as [x|]; simpl.
  - destruct (Z.leb_spec (str_length x) n); split.
    + intros [= ->]. split; [reflexivity | assumption].
    + now intros [[= ->] _].
    + discriminate.
    + intros [[= ->] Hle]. lia.
  - split; [discriminate | now intros [? _]].
Qed.

Lemma z_number_Some (v : option json) (n : number) :
  z_number v = Some n <-> v = Some (JNum n) /\ n <> NaN.
Proof.
  unfold z_number. destruct v as [[| |[]| | |]|]; split;
    try discriminate; try (intros [[=] _]; fail);
    try (intros [= <-]; split; [reflexivity | discriminate]);
    try (intros [[= <-] _]; reflexivity).
  intros [[= <-] Hn]. congruence.
Qed.

Lemma num_min_Some (lo : Z) (sch : Schema number) (v : option json) (n : number) :
  num_min lo sch v = Some n <-> sch v = Some n /\ num_ge n (of_Z lo) = true.
Proof.
  unfold num_min. destruct (sch v) as [x|]; cbn -[num_ge num_le of_Z].
  - destruct (num_ge x (of_Z lo)) eqn:E; split.
    + intros [= <-]. now split.
    + now intros [[= ->] _].
    + discriminate.
    + intros [[= <-] Hge]. congruence.
  - split; [discriminate | now intros [? _]].
Qed.

Lemma num_max_Some (hi : Z) (sch : Schema number) (v : option json) (n : number) :
  num_max hi sch v = Some n <-> sch v = Some n /\ num_le n (of_Z hi) = true.
Proof.
  unfold num_max. destruct (sch v) as [x|]; cbn -[num_ge num_le of_Z].
  - destruct (num_le x (of_Z hi)) eqn:E; split.
    + intros [= <-]. now split.
    + now intros [[= ->] _].
    + discriminate.
    + intros [[= <-] Hge]. congruence.
  - split; [discriminate | now intros [? _]].
Qed.

Lemma z_enum_Some (values : list string) (v : option json) (s : string) :
  z_enum values v = Some s <-> v = Some (JStr s) /\ s ∈ values.
Proof.
  unfold z_enum. destruct v as [[| | |x| |]|]; try (split; [discriminate | now intros [? _]]).
  destruct (bool_decide (x ∈ values)) eqn:E.
  - apply bool_decide_eq_true in E. split.
    + intros [= <-]. now split.
    + now intros [[= ->] _].
  - apply bool_decide_eq_false in E. split; [discriminate|].
    intros [[= ->] Hin]. contradiction.
Qed.

Lemma z_literal_Some (k : Z) (v : option json) (n : number) :
  z_literal k v = Some n <->
  v = Some (JNum n) /\ num_strict_eq n (of_Z k) = true.
Proof.
  unfold z_literal. destruct v as [[| |x| | |]|]; try (split; [discriminate | now intros [? _]]).
  destruct (num_strict_eq x (of_Z k)) eqn:E; split.
  - intros [= <-]. now split.
  - now intros [[= ->] _].
  - discriminate.
  - intros [[= <-] Hk]. congruence.
Qed.

Lemma z_array_Some {A} (item : Schema A) (v : option json) (out : list A) :
  z_array item v = Some out <->
  exists items, v = Some (JArr items)
                /\ Forall2 (fun x y => item (Some x) = Some y) items out.
Proof.
  unfold z_array. destruct v as [[| | | |items|]|];
    try (split; [discriminate | intros (? & [=] & _)]).
  rewrite mapM_Some. split.
  - intros Hf. now exists items.
  - now intros (? & [= <-] & Hf).
Qed.

Lemma optional_Some {A} (sch : Schema A) (v : option json) (out : option A) :
  optional sch v = Some out <->
  (v = None /\ out = None) \/ (exists a, v <> None /\ sch v = Some a /\ out = Some a).
Proof.
  unfold optional. destruct v as [j|].
  - destruct (sch (Some j)) as [a|]; simpl; split.
    + intros [= <-]. right. exists a. now repeat split.
    + intros [[[=] _]|(a' & _ & [= <-] & ->)]. reflexivity.
    + discriminate.
    + intros [[[=] _]|(a' & _ & [=] & _)].
  - split.
    + intros [= <-]. now left.
    + intros [[_ ->]|(a & Hn & _)]; [reflexivity | congruence].
Qed.

Lemma z_object_Some {A} (shape : (string -> option json) -> option A)
    (v : option json) (out : A) :
  z_object shape v = Some out <->
  exists members, v = Some (JObj members) /\ shape (member members) = Some out.
Proof.
  unfold z_object. destruct v as [[| | | | |members]|];
    try (split; [discriminate | intros (? & [=] & _)]).
  split.
  - intros Hs. now exists members.
  - now intros (? & [= <-] & Hs).
Qed.

End ZodFacts.

(** ** SettingsMenu: the backup schema and the import *)

Section ImportFacts.
Import Zod SettingsMenu.

(** The texts an array of strings was parsed from. *)
Lemma string_items (n : Z) (items : list json) (codes : list string) :
  Forall2 (fun x y => str_max n z_string (Some x) = Some y) items codes ->
  items = JStr <$> codes /\ Forall (fun c => str_length c <= n) codes.
Proof.
  induction 1 as [|x y items codes Hxy _ [IH1 IH2]]; [now split|].
  apply str_max_Some in Hxy as [Hx Hle]. apply z_string_Some in Hx as [= ->].
  simpl. rewrite IH1. split; [reflexivity | now constructor].
Qed.

(** What [accountSchema] accepts: an object whose nine members have the
    types and bounds of the schema; the output holds the members as they
    are. *)
Lemma accountSchema_accepts (v : option json) (a : Account.t) :
  accountSchema v = Some a ->
  exists m,
    v = Some (JObj m)
    /\ member m "id" = Some (JStr (Account.id a))
    /\ member m "issuer" = Some (JStr (Account.issuer a))
    /\ str_length (Account.issuer a) <= 100
    /\ member m "label" = Some (JStr (Account.label a))
    /\ str_length (Account.label a) <= 200
    /\ member m "secret" = Some (JStr (Account.secret a))
    /\ str_length (Account.secret a) <= 500
    /\ member m "algorithm" = Some (JStr (Account.algorithm a))
    /\ is_algorithm (Account.algorithm a) = true
    /\ member m "digits" = Some (JNum (Account.digits a))
    /\ num_ge (Account.digits a) (of_Z 1) = true
    /\ num_le (Account.digits a) (of_Z 10) = true
    /\ member m "period" = Some (JNum (Account.period a))
    /\ num_ge (Account.period a) (of_Z 1) = true
    /\ num_le (Account.period a) (of_Z 300) = true
    /\ member m "createdAt" = Some (JNum (Account.createdAt a))
    /\ match Account.backupCodes a with
       | None => member m "backupCodes" = None
       | Some codes =>
           member m "backupCodes" = Some (JArr (JStr <$> codes))
           /\ Forall (fun c => str_length c <= 100) codes
       end.
Proof.
  unfold accountSchema. rewrite z_object_Some. intros (m & -> & Hs).
  apply bind_Some in Hs as (id & Hid & Hs).
  apply bind_Some in Hs as (issuer & Hissuer & Hs).
  apply bind_Some in Hs as (label & Hlabel & Hs).
  apply bind_Some in Hs as (secret & Hsecret & Hs).
  apply bind_Some in Hs as (algorithm & Halg & Hs).
  apply bind_Some in Hs as (digits & Hdigits & Hs).
  apply bind_Some in Hs as (period & Hperiod & Hs).
  apply bind_Some in Hs as (createdAt & Hcreated & Hs).
  apply bind_Some in Hs as (backupCodes & Hcodes & Hs).
  injection Hs as <-. simpl.
  apply z_string_Some in Hid.
  apply str_max_Some in Hissuer as [Hissuer ?]. apply z_string_Some in Hissuer.
  apply str_max_Some in Hlabel as [Hlabel ?]. apply z_string_Some in Hlabel.
  apply str_max_Some in Hsecret as [Hsecret ?]. apply z_string_Some in Hsecret.
  apply z_enum_Some in Halg as [Halg Hin].
  apply num_max_Some in Hdigits as [Hdigits ?].
  apply num_min_Some in Hdigits as [Hdigits ?].
  apply z_number_Some in Hdigits as [Hdigits _].
  apply num_max_Some in Hperiod as [Hperiod ?].
  apply num_min_Some in Hperiod as [Hperiod ?].
  apply z_number_Some in Hperiod as [Hperiod _].
  apply z_number_Some in Hcreated as [Hcreated _].
  exists m. repeat (split; [assumption || reflexivity|]).
  split.
  { unfold is_algorithm.
    apply elem_of_cons in Hin as [->|Hin]; [reflexivity|].
    apply elem_of_cons in Hin as [->|Hin]; [reflexivity|].
    apply elem_of_cons in Hin as [->|Hin]; [reflexivity|].
    now apply elem_of_nil in Hin. }
  repeat (split; [assumption || reflexivity|]).
  apply optional_Some in Hcodes as [[Hm ->]|(codes & _ & Harr & ->)];
    [exact Hm|].
  apply z_array_Some in Harr as (items & Hm & Hf).
  apply string_items in Hf as [-> Hlen]. now split.
Qed.

(** What [backupSchema] accepts. *)
Lemma backupSchema_accepts (data : json) (r : Backup) :
  backupSchema (Some data) = Some r ->
  exists top items,
    data = JObj top
    /\ member top "version" = Some (JNum (version r))
    /\ num_strict_eq (version r) (of_Z 1) = true
    /\ member top "exportedAt" = Some (JNum (exportedAt r))
    /\ member top "accounts" = Some (JArr items)
    /\ Forall2 (fun x y => accountSchema (Some x) = Some y) items (bundle_accounts r).
Proof.
  unfold backupSchema. rewrite z_object_Some. intros (top & [= ->] & Hs).
  apply bind_Some in Hs as (v & Hv & Hs).
  apply bind_Some in Hs as (e & He & Hs).
  apply bind_Some in Hs as (accs & Haccs & Hs).
  injection Hs as <-. simpl.
  apply z_literal_Some in Hv as [Hv Hone].
  apply z_number_Some in He as [He _].
  apply z_array_Some in Haccs as (items & Hitems & Hf).
  exists top, items. now repeat split.
Qed.

(** A bundle is refused by any of these: the version is not the number
    1, or one of the accounts is refused by [accountSchema]. *)
Lemma backupSchema_refuses_version (top : list (string * json)) :
  (forall n, member top "version" = Some (JNum n) ->
             num_strict_eq n (of_Z 1) = false) ->
  backupSchema (Some (JObj top)) = None.
Proof.
  intros Hv. destruct (backupSchema (Some (JObj top))) as [r|] eqn:E;
    [|reflexivity].
  apply backupSchema_accepts in E
    as (top' & items & [= <-] & Hver & Hone & _).
  apply Hv in Hver. congruence.
Qed.

Lemma backupSchema_refuses_account (top : list (string * json))
    (items : list json) (item : json) :
  member top "accounts" = Some (JArr items) ->
  item ∈ items ->
  accountSchema (Some item) = None ->
  backupSchema (Some (JObj top)) = None.
Proof.
  intros Hitems Hin Hbad.
  destruct (backupSchema (Some (JObj top))) as [r|] eqn:E; [|reflexivity].
  apply backupSchema_accepts in E
    as (top' & items' & [= <-] & _ & _ & _ & Hitems' & Hf).
  rewrite Hitems in Hitems'. injection Hitems' as <-.
  apply list_elem_of_lookup in Hin as [i Hi].
  destruct (Forall2_lookup_l _ _ _ _ _ Hf Hi) as (a & _ & Ha). congruence.
Qed.

(** An account whose [digits] is a number above 10 is refused. *)
Lemma accountSchema_refuses_digits (m : list (string * json)) (d : number) :
  member m "digits" = Some (JNum d) ->
  num_le d (of_Z 10) = false ->
  accountSchema (Some (JObj m)) = None.
Proof.
  intros Hm Hd. destruct (accountSchema (Some (JObj m))) as [a|] eqn:E;
    [|reflexivity].
  apply accountSchema_accepts in E as (m' & [= <-] & E).
  destruct E as (_ & _ & _ & _ & _ & _ & _ & _ & _ & Hdig & _ & Hle & _).
  rewrite Hm in Hdig. injection Hdig as ->. congruence.
Qed.

End ImportFacts.

Section ReissueFacts.
Import Zod SettingsMenu.

(** The mapping of [handleImport] draws one id and one time per account,
    in order, and touches nothing else of the world. *)
Lemma map_reissue (l : list Account.t) (w : World) :
  forall ys w', map_in_world reissue l w = (ys, w') ->
  (accounts w' = accounts w /\ localStorage w' = localStorage w
   /\ toasts w' = toasts w /\ errors w' = errors w
   /\ uuid_source w' = uuid_source w /\ clock w' = clock w
   /\ uuid_calls w' = (uuid_calls w + length l)%nat
   /\ clock_calls w' = (clock_calls w + length l)%nat)
  /\ length ys = length l
  /\ Account.id <$> ys = uuid_source w <$> seq (uuid_calls w) (length l)
  /\ (forall i x, l !! i = Some x ->
        ys !! i = Some (Account.Make
                          (uuid_source w (uuid_calls w + i)%nat)
                          (Account.issuer x) (Account.label x) (Account.secret x)
                          (Account.algorithm x) (Account.digits x)
                          (Account.period x)
                          (of_Z (clock w (clock_calls w + i)%nat))
                          (Account.backupCodes x))).
Proof.
  revert w. induction l as [|x l IH]; intros w ys w' E; simpl in E.
  - injection E as <- <-. simpl. rewrite !Nat.add_0_r.
    repeat split. intros i x [=].
  - destruct (map_in_world reissue l _) as [ys1 w1] eqn:E1.
    injection E as <- <-.
    apply IH in E1 as ((Ha & Hl & Ht & He & Hu & Hc & Hun & Hcn) & Hlen & Hids & Hnth).
    simpl in *. split.
    { rewrite Ha, Hl, Ht, He, Hu, Hc, Hun, Hcn. repeat split; lia. }
    split; [now rewrite Hlen|].
    split; [f_equal; exact Hids|].
    intros [|i] y Hy; simpl in *.
    + injection Hy as <-. now rewrite !Nat.add_0_r.
    + rewrite (Hnth i y Hy). repeat f_equal; lia.
Qed.

(** The import of an accepted bundle. *)
Lemma handleImport_accepted (data : json) (r : Backup) (w : World) :
  backupSchema (Some data) = Some r ->
  exists imported,
    accounts (handleImport (Some (Normal data)) w) = accounts w ++ imported
    /\ localStorage (handleImport (Some (Normal data)) w) !! UseAccounts.STORAGE_KEY
       = Some (Stringify.accounts_json (accounts w ++ imported))
    /\ fst (map_in_world reissue (bundle_accounts r) w) = imported.
Proof.
  intros Hr. unfold handleImport. rewrite Hr.
  destruct (map_in_world reissue (bundle_accounts r) w) as [imported w1] eqn:E.
  apply map_reissue in E as ((Ha & _) & _).
  exists imported. simpl. rewrite Ha.
  split; [reflexivity|]. split; [apply lookup_insert_eq | reflexivity].
Qed.

End ReissueFacts.

(** C5.  The import is all or nothing.  When the [version] of the bundle
    is not the number 1, or when one account of the bundle is refused by
    the schema, [handleImport] imports no account: the account list and
    the stored snapshot are what they were, and the error is shown. *)
Theorem import_atomic (w : World) (top : list (string * json)) :
  (forall n, member top "version" = Some (JNum n) ->
             num_strict_eq n (of_Z 1) = false)
  \/ (exists items item,
        member top "accounts" = Some (JArr items)
        /\ item ∈ items
        /\ SettingsMenu.accountSchema (Some item) = None) ->
  accounts (SettingsMenu.handleImport (Some (Normal (JObj top))) w) = accounts w
  /\ localStorage (SettingsMenu.handleImport (Some (Normal (JObj top))) w)
     = localStorage w
  /\ toasts (SettingsMenu.handleImport (Some (Normal (JObj top))) w)
     = toasts w ++ [ToastError "Invalid backup file format"].
Proof.
  intros Hbad.
  assert (Hnone : SettingsMenu.backupSchema (Some (JObj top)) = None).
  { destruct Hbad as [Hv|(items & item & Hitems & Hin & Hitem)].
    - now apply backupSchema_refuses_version.
    - now apply (backupSchema_refuses_account top items item). }
  unfold SettingsMenu.handleImport. rewrite Hnone. repeat split.
Qed.

Lemma import_atomic_witness :
  accounts (SettingsMenu.handleImport
              (Some (Normal (Samples.backup_json 1 11))) Samples.world)
  = [Samples.alice; Samples.bob]
  /\ accounts (SettingsMenu.handleImport
                 (Some (Normal (Samples.backup_json 2 6))) Samples.world)
     = [Samples.alice; Samples.bob].
Proof.
  split.
  - apply (import_atomic Samples.world (Samples.backup_members 1 11)).
    right. exists (Samples.backup_accounts 11), (Samples.account_json 11).
    split; [reflexivity|]. split.
    + apply list_elem_of_further, list_elem_of_here.
    + apply (accountSchema_refuses_digits _ (of_Z 11)); reflexivity.
  - apply (import_atomic Samples.world (Samples.backup_members 2 6)).
    left. intros n Hn. vm_compute in Hn. injection Hn as <-. reflexivity.
Defined.

(** C6.  When the bundle is accepted, [handleImport] appends one account
    per account of the bundle, in order.  The id of each is the next draw
    of [crypto.randomUUID] and its creation time the next reading of
    [Date.now]; the id and the creation time written in the bundle are
    not used.  The members [issuer], [label], [secret], [algorithm],
    [digits], [period] and [backupCodes] are those of the bundle.  When
    the ids drawn are new, that is, differ from the stored ids and from
    one another, the ids of the store stay distinct whatever ids the
    bundle carries. *)
Theorem import_reissues (w : World) (top : list (string * json))
    (items : list json) :
  member top "accounts" = Some (JArr items) ->
  is_Some (SettingsMenu.backupSchema (Some (JObj top))) ->
  exists imported,
    accounts (SettingsMenu.handleImport (Some (Normal (JObj top))) w)
    = accounts w ++ imported
    /\ length imported = length items
    /\ (forall i item, items !! i = Some item ->
          exists m acc,
            item = JObj m
            /\ imported !! i = Some acc
            /\ Account.id acc = uuid_source w (uuid_calls w + i)%nat
            /\ Account.createdAt acc = of_Z (clock w (clock_calls w + i)%nat)
            /\ member m "issuer" = Some (JStr (Account.issuer acc))
            /\ member m "label" = Some (JStr (Account.label acc))
            /\ member m "secret" = Some (JStr (Account.secret acc))
            /\ member m "algorithm" = Some (JStr (Account.algorithm acc))
            /\ member m "digits" = Some (JNum (Account.digits acc))
            /\ member m "period" = Some (JNum (Account.period acc))
            /\ match Account.backupCodes acc with
               | None => member m "backupCodes" = None
               | Some codes => member m "backupCodes" = Some (JArr (JStr <$> codes))
               end)
    /\ (NoDup ((Account.id <$> accounts w)
               ++ (uuid_source w <$> seq (uuid_calls w) (length items))) ->
        NoDup (Account.id <$>
                 accounts (SettingsMenu.handleImport (Some (Normal (JObj top))) w))).
Proof.
  intros Hitems [r Hr].
  destruct (handleImport_accepted _ _ w Hr) as (imported & Hacc & _ & Himp).
  destruct (backupSchema_accepts _ _ Hr)
    as (top' & items' & [= <-] & _ & _ & _ & Hitems' & Hf).
  rewrite Hitems in Hitems'. injection Hitems' as <-.
  destruct (SettingsMenu.map_in_world SettingsMenu.reissue
              (SettingsMenu.bundle_accounts r) w) as [ys w1] eqn:E.
  simpl in Himp. subst ys.
  apply map_reissue in E as (_ & Hlen & Hids & Hnth).
  pose proof (Forall2_length _ _ _ Hf) as Hlen'.
  exists imported. split; [exact Hacc|]. split; [lia|]. split.
  - intros i item Hi.
    destruct (Forall2_lookup_l _ _ _ _ _ Hf Hi) as (src & Hsrc & Hitem).
    apply accountSchema_accepts in Hitem as (m & [= ->] & Hm).
    destruct Hm as (_ & Hissuer & _ & Hlabel & _ & Hsecret & _ & Halg & _
                    & Hdigits & _ & _ & Hperiod & _ & _ & _ & Hcodes).
    eexists m, _. split; [reflexivity|]. split; [apply (Hnth i src Hsrc)|].
    simpl. repeat (split; [assumption || reflexivity|]).
    destruct (Account.backupCodes src); [apply Hcodes | exact Hcodes].
  - intros Hfresh. rewrite Hacc, fmap_app, Hids, <- Hlen'. exact Hfresh.
Qed.

Lemma import_reissues_witness :
  exists imported,
    accounts (SettingsMenu.handleImport
                (Some (Normal (Samples.backup_json 1 6))) Samples.world)
    = [Samples.alice; Samples.bob] ++ imported
    /\ length imported = 2%nat
    /\ NoDup (Account.id <$>
                accounts (SettingsMenu.handleImport
                            (Some (Normal (Samples.backup_json 1 6))) Samples.world)).
Proof.
  destruct (import_reissues Samples.world (Samples.backup_members 1 6)
              (Samples.backup_accounts 6))
    as (imported & Hacc & Hlen & _ & Hfresh).
  - reflexivity.
  - vm_compute. eexists. reflexivity.
  - exists imported. split; [exact Hacc|]. split; [exact Hlen|].
    apply Hfresh. refine (bool_decide_unpack _ _). vm_compute. exact I.
Defined.

(** ** Index: the two ways an account is created *)

Section CreationFacts.
Import OtpauthParser.
Context `{Platform}.

(** Cleaning a cleaned text changes nothing. *)
Lemma clean_clean (s : string) : clean (clean s) = clean s.
Proof.
  unfold clean.
  rewrite (remove_whitespace_same (toUpperCase (remove_whitespace s))).
  - apply toUpperCase_settled.
  - apply toUpperCase_space, remove_whitespace_none.
Qed.

End CreationFacts.

(** C7, as the code has it.  An account created by manual entry has its
    secret stored in the canonical form: it is the entered text stripped
    of white space and upper-cased, which cleaning leaves as it is, and
    it passes [validateSecret].  An account created from a scanned URI
    has as its secret the [secret] parameter of the URI as it came. *)
Theorem stored_secret_forms `{Platform} (w : World) :
  (forall f,
     accounts (Index.handleManualSubmit f w) = accounts w
     \/ exists acc,
          accounts (Index.handleManualSubmit f w) = accounts w ++ [acc]
          /\ Account.secret acc = SecretCodec.normalize (Index.form_secret f)
          /\ SecretCodec.normalize (Account.secret acc) = Account.secret acc
          /\ OtpauthParser.validateSecret (Account.secret acc) = true)
  /\ (forall uri w',
        Index.handleQRScan uri w = Normal w' ->
        accounts w' = accounts w
        \/ exists url v acc,
             new_URL uri = Normal url
             /\ params_get (URL.searchParams url) "secret" = Some v
             /\ accounts w' = accounts w ++ [acc]
             /\ Account.secret acc = v).
Proof.
  split.
  - intros f. unfold Index.handleManualSubmit.
    destruct (Index.manualEntrySchema _) as [data|]; [|now left].
    change (toUpperCase (remove_whitespace (Index.form_secret f)))
      with (OtpauthParser.clean (Index.form_secret f)).
    destruct (OtpauthParser.validateSecret
                (OtpauthParser.clean (Index.form_secret f))) eqn:Hv;
      simpl; [|now left].
    right. eexists. split; [reflexivity|]. simpl.
    rewrite !normalize_clean.
    split; [reflexivity|]. split; [apply clean_clean | exact Hv].
  - intros uri w'. unfold Index.handleQRScan.
    destruct (OtpauthParser.parseOTPAuthURI uri) as [[p|]|e] eqn:Hp; simpl.
    + intros [= <-]. right.
      apply parseOTPAuthURI_accepts in Hp
        as (url & path & c & s & Hurl & _ & _ & _ & Hsecret & ->).
      exists url, (String c s). eexists.
      split; [exact Hurl|]. split; [exact Hsecret|].
      split; reflexivity.
    + intros [= <-]. now left.
    + discriminate.
Qed.

Lemma stored_secret_forms_witness :
  (exists acc,
     accounts (@Index.handleManualSubmit AsciiPlatform.platform
                 Samples.form Samples.fresh) = [acc]
     /\ Account.secret acc = "JBSWY3DPEHPK3PXP")
  /\ (exists w' acc,
        @Index.handleQRScan AsciiPlatform.platform
          "otpauth://totp/Example:alice?secret=JBSWY3DPEHPK3PXP" Samples.fresh
        = Normal w'
        /\ accounts w' = [acc] /\ Account.secret acc = "JBSWY3DPEHPK3PXP").
Proof.
  destruct (@stored_secret_forms AsciiPlatform.platform Samples.fresh)
    as [Hmanual Hscan].
  split.
  - destruct (Hmanual Samples.form) as [Hsame|(acc & Hacc & Hsecret & _)].
    + vm_compute in Hsame. discriminate Hsame.
    + exists acc. split; [exact Hacc|].
      rewrite Hsecret. vm_compute. reflexivity.
  - eexists.
    edestruct (Hscan "otpauth://totp/Example:alice?secret=JBSWY3DPEHPK3PXP")
      as [Hsame|(url & v & acc & Hurl & Hv & Hacc & Hsecret)];
      [vm_compute; reflexivity | |].
    + vm_compute in Hsame. discriminate Hsame.
    + exists acc. split; [vm_compute; reflexivity|]. split; [exact Hacc|].
      rewrite Hsecret.
      vm_compute in Hurl. injection Hurl as <-.
      vm_compute in Hv. injection Hv as <-. reflexivity.
Defined.

(** C7, as the specification states it, fails: scanning a URI whose secret is
    written in lower case stores the secret in lower case, which is not
    its canonical form. *)
Lemma scanned_secret_counterexample :
  exists w' acc,
    @Index.handleQRScan AsciiPlatform.platform
      "otpauth://totp/Example:alice?secret=jbswy3dpehpk3pxp" Samples.fresh
    = Normal w'
    /\ accounts w' = [acc]
    /\ Account.secret acc = "jbswy3dpehpk3pxp"
    /\ @SecretCodec.normalize AsciiPlatform.platform (Account.secret acc)
       = "JBSWY3DPEHPK3PXP"
    /\ @SecretCodec.normalize AsciiPlatform.platform (Account.secret acc)
       <> Account.secret acc.
Proof.
  eexists. eexists.
  split; [vm_compute; reflexivity|].
  split; [reflexivity|]. split; [reflexivity|].
  split; [reflexivity | discriminate].
Qed.

(* ===================================================================== *)
(** * Part III: further properties of the code                            *)
(* ===================================================================== *)

(** ** The label path of a provisioning URI *)

Section LabelFacts.
Import OtpauthParser.

Lemma split_cons (s : string) (c : code_unit) :
  exists f fs, split s c = f :: fs.
Proof.
  induction s as [|d s IH]; simpl; [eauto|].
  destruct (bool_decide (d = c)); [eauto|].
  destruct IH as (f & fs & ->). eauto.
Qed.

(** Joining the fragments with the separator gives the text back. *)
Lemma join_split (s : string) (c : code_unit) :
  join (split s c) (String c EmptyString) = s.
Proof.
  induction s as [|d s IH]; simpl; [reflexivity|].
  destruct (bool_decide (d = c)) eqn:E.
  - apply bool_decide_eq_true in E. subst d.
    destruct (split_cons s c) as (f & fs & Hs). rewrite Hs in *.
    change (join (EmptyString :: f :: fs) (String c EmptyString))
      with (EmptyString +:+ String c EmptyString +:+ join (f :: fs) (String c EmptyString)).
    rewrite IH. reflexivity.
  - destruct (split_cons s c) as (f & fs & Hs). rewrite Hs in *.
    destruct fs as [|g gs].
    + simpl in *. now rewrite IH.
    + change (join (String d f :: g :: gs) (String c EmptyString))
        with (String d (f +:+ String c EmptyString +:+ join (g :: gs) (String c EmptyString))).
      change (join (f :: g :: gs) (String c EmptyString))
        with (f +:+ String c EmptyString +:+ join (g :: gs) (String c EmptyString)) in IH.
      now rewrite IH.
Qed.

(** The first fragment holds no separator. *)
Lemma hd_split_excludes (s : string) (c : code_unit) :
  includes (hd EmptyString (split s c)) c = false.
Proof.
  unfold includes. induction s as [|d s IH]; simpl; [reflexivity|].
  destruct (bool_decide (d = c)) eqn:E; [reflexivity|].
  destruct (split_cons s c) as (f & fs & Hs). rewrite Hs in *. simpl in *.
  now rewrite E, IH.
Qed.

(** A text that holds the separator has at least two fragments. *)
Lemma split_two (s : string) (c : code_unit) :
  includes s c = true -> exists f g gs, split s c = f :: g :: gs.
Proof.
  unfold includes. induction s as [|d s IH]; simpl; [discriminate|].
  destruct (bool_decide (d = c)) eqn:E; simpl.
  - intros _. destruct (split_cons s c) as (f & fs & ->). eauto.
  - intros H. destruct (IH H) as (f & g & gs & ->). eauto.
Qed.

End LabelFacts.

(** X1.  The label path is cut at its first colon and nothing is lost:
    when the decoded path holds a colon, the issuer, a colon and the
    label make up the path again and the issuer holds no colon; when it
    holds none, the issuer is empty and the label is the whole path. *)
Theorem label_format_recomposes (path : string) :
  includes (fst (OtpauthParser.label_format path)) ":" = false
  /\ (if includes path ":"
      then path = fst (OtpauthParser.label_format path) +:+ ":"
                  +:+ snd (OtpauthParser.label_format path)
      else OtpauthParser.label_format path = (EmptyString, path)).
Proof.
  unfold OtpauthParser.label_format.
  destruct (includes path ":") eqn:Hc; simpl; [|split; reflexivity].
  split; [apply hd_split_excludes|].
  pose proof (join_split path ":") as Hj.
  destruct (split_two path ":" Hc) as (f & g & gs & Hs).
  rewrite Hs in *. simpl hd. simpl tl. symmetry. exact Hj.
Qed.

Section CredentialFacts.
Import OtpauthParser.

(** The double nearest to an integer is an integer or an infinity, and
    the integer itself when that is below 2^53 in size. *)
Lemma double_of_Z_shape (z : Z) :
  double_of_Z z = PosInf \/ double_of_Z z = NegInf
  \/ exists k, double_of_Z z = of_Z k.
Proof.
  unfold double_of_Z.
  destruct (Z.abs z <? 2 ^ 53); [right; right; eauto|].
  match goal with |- context [if ?b then (if z <? 0 then _ else _) else _] =>
    destruct b end.
  - destruct (z <? 0); [right; left | left]; reflexivity.
  - right. right. eauto.
Qed.

Lemma double_of_Z_exact (z : Z) :
  Z.abs z < 2 ^ 53 -> double_of_Z z = of_Z z.
Proof.
  intros Hz. unfold double_of_Z.
  now rewrite (proj2 (Z.ltb_lt _ _) Hz).
Qed.

Lemma parseInt10_shape (s : string) :
  parseInt10 s = NaN \/ parseInt10 s = PosInf \/ parseInt10 s = NegInf
  \/ exists z, parseInt10 s = of_Z z.
Proof.
  unfold parseInt10.
  destruct (match trim_start s with
            | String c r =>
                if is_unit "-"%u c then (-1, r)
                else if is_unit "+"%u c then (1, r)
                else (1, trim_start s)
            | EmptyString => (1, trim_start s)
            end) as [sign s2].
  destruct (digits_prefix s2 None) as [v|]; [|now left].
  right. apply double_of_Z_shape.
Qed.

Lemma or_else_nonempty (x : option string) (d : string) :
  d <> EmptyString -> or_else x d <> EmptyString.
Proof. destruct x as [[|c s]|]; simpl; intros Hd; congruence. Qed.

End CredentialFacts.

(** X2.  Every credential the parser returns has a secret and an issuer
    that are not empty and an algorithm without a letter [a] to [z]; its
    [digits] and its [period] are integers, NaN or an infinity (which
    [parseInt] gives for a run of digits too long for a double), never a
    fraction. *)
Theorem parsed_credential_shape `{Platform} (uri : string) (p : Parsed.t) :
  OtpauthParser.parseOTPAuthURI uri = Normal (Some p) ->
  Parsed.secret p <> EmptyString
  /\ Parsed.issuer p <> EmptyString
  /\ str_exists is_lower (Parsed.algorithm p) = false
  /\ (Parsed.digits p = NaN \/ Parsed.digits p = PosInf
      \/ Parsed.digits p = NegInf \/ exists z, Parsed.digits p = of_Z z)
  /\ (Parsed.period p = NaN \/ Parsed.period p = PosInf
      \/ Parsed.period p = NegInf \/ exists z, Parsed.period p = of_Z z).
Proof.
  intros Hp.
  apply parseOTPAuthURI_accepts in Hp
    as (url & path & c & s & _ & _ & _ & _ & _ & ->).
  cbn [Parsed.secret Parsed.issuer Parsed.algorithm Parsed.digits Parsed.period].
  split; [discriminate|].
  split; [apply or_else_nonempty; discriminate|].
  split.
  - destruct (params_get (URL.searchParams url) "algorithm") as [v|];
      [|reflexivity].
    cbn [fmap option_fmap option_map].
    destruct (toUpperCase v) as [|d t] eqn:Hv; [reflexivity|].
    cbn [or_else]. rewrite <- Hv. apply toUpperCase_lower.
  - split; apply parseInt10_shape.
Qed.

Lemma parsed_credential_shape_witness :
  exists p,
    @OtpauthParser.parseOTPAuthURI AsciiPlatform.platform
      "otpauth://totp/bob?secret=abc&digits=abc&period=9007199254740993&algorithm=sha256"
    = Normal (Some p)
    /\ Parsed.issuer p = "Unknown"
    /\ Parsed.algorithm p = "SHA256"
    /\ Parsed.digits p = NaN
    /\ Parsed.period p = of_Z 9007199254740992
    /\ Parsed.secret p <> EmptyString.
Proof.
  eexists. split; [vm_compute; reflexivity|].
  split; [reflexivity|]. split; [reflexivity|]. split; [reflexivity|].
  split; [vm_compute; reflexivity|].
  eapply (@parsed_credential_shape AsciiPlatform.platform
            "otpauth://totp/bob?secret=abc&digits=abc&period=9007199254740993&algorithm=sha256").
  vm_compute. reflexivity.
Defined.

(** ** The store: absent ids, round trips and the card of an account *)

Section StoreMoreFacts.
Import UseAccounts.

Lemma filter_id_all (id : string) (l : list Account.t) :
  (forall acc, acc ∈ l -> Account.id acc <> id) ->
  filter (fun acc => Account.id acc <> id) l = l.
Proof.
  induction l as [|x l IH]; intros Hall; [reflexivity|].
  rewrite filter_cons_True by (apply Hall; left).
  f_equal. apply IH. intros acc Hacc. apply Hall. now right.
Qed.

Lemma map_id_all (f : Account.t -> Account.t) (id : string) (l : list Account.t) :
  (forall acc, acc ∈ l -> Account.id acc <> id) ->
  (fun acc => if bool_decide (Account.id acc = id) then f acc else acc) <$> l = l.
Proof.
  induction l as [|x l IH]; intros Hall; [reflexivity|].
  rewrite fmap_cons, bool_decide_eq_false_2 by (apply Hall; left).
  f_equal. apply IH. intros acc Hacc. apply Hall. now right.
Qed.

(** With distinct ids, filtering out the id of the account at a place is
    deleting that place. *)
Lemma filter_id_delete (l : list Account.t) (i : nat) (a : Account.t) :
  NoDup (Account.id <$> l) -> l !! i = Some a ->
  filter (fun acc => Account.id acc <> Account.id a) l = delete i l.
Proof.
  revert i. induction l as [|x l IH]; intros i Hnd Hi; [discriminate|].
  rewrite fmap_cons in Hnd. apply NoDup_cons in Hnd as [Hx Hnd].
  destruct i as [|i]; simpl in Hi.
  - injection Hi as ->.
    rewrite filter_cons_False by (intros Hne; now apply Hne).
    simpl. apply filter_id_all. intros acc Hacc Heq.
    apply Hx. rewrite <- Heq. apply list_elem_of_fmap. now exists acc.
  - rewrite filter_cons_True.
    + simpl. f_equal. now apply IH.
    + intros Heq. apply Hx. rewrite Heq.
      apply list_elem_of_fmap. exists a. split; [reflexivity|].
      now apply list_elem_of_lookup_2 in Hi.
Qed.


End StoreMoreFacts.

(** X3.  On an id that no stored account has, [removeAccount],
    [updateAccount] and [updateBackupCodes] leave the account list as it
    is. *)
Theorem store_absent_id (w : World) (id : string) (updates : Partial.t)
    (codes : list string) :
  (forall acc, acc ∈ accounts w -> Account.id acc <> id) ->
  accounts (UseAccounts.removeAccount id w) = accounts w
  /\ accounts (UseAccounts.updateAccount id updates w) = accounts w
  /\ accounts (UseAccounts.updateBackupCodes id codes w) = accounts w.
Proof.
  intros Hall.
  unfold UseAccounts.removeAccount, UseAccounts.updateAccount,
    UseAccounts.updateBackupCodes.
  rewrite !accounts_saveAccounts.
  split; [now apply filter_id_all|].
  split; now apply map_id_all.
Qed.

Lemma store_absent_id_witness :
  accounts (UseAccounts.removeAccount "no-such-id" Samples.world)
  = [Samples.alice; Samples.bob].
Proof.
  apply (store_absent_id Samples.world "no-such-id"
           (Partial.Make None None None None None None None None None) []).
  intros acc Hacc.
  apply elem_of_cons in Hacc as [->|Hacc]; [discriminate|].
  apply elem_of_cons in Hacc as [->|Hacc]; [discriminate|].
  now apply elem_of_nil in Hacc.
Defined.

(** X4.  [addAccount] appends the account it returns, with the id it
    drew; when no stored account has that id, removing the account by
    its id gives the former list back. *)
Theorem add_then_remove (w : World) (candidate : Parsed.t) :
  (forall acc, acc ∈ accounts w ->
     Account.id acc <> uuid_source w (uuid_calls w)) ->
  accounts (snd (UseAccounts.addAccount candidate w))
  = accounts w ++ [fst (UseAccounts.addAccount candidate w)]
  /\ Account.id (fst (UseAccounts.addAccount candidate w))
     = uuid_source w (uuid_calls w)
  /\ accounts (UseAccounts.removeAccount
                 (Account.id (fst (UseAccounts.addAccount candidate w)))
                 (snd (UseAccounts.addAccount candidate w)))
     = accounts w.
Proof.
  intros Hfresh. unfold UseAccounts.addAccount. simpl.
  split; [reflexivity|]. split; [reflexivity|].
  rewrite filter_app, filter_cons_False, filter_nil, app_nil_r
    by (intros Hne; now apply Hne).
  now apply filter_id_all.
Qed.

Lemma add_then_remove_witness :
  accounts (UseAccounts.removeAccount
              (Account.id (fst (UseAccounts.addAccount
                                  (Parsed.Make "Example" "dave" "JBSWY3DPEHPK3PXP"
                                               "SHA1" (of_Z 6) (of_Z 30))
                                  Samples.world)))
              (snd (UseAccounts.addAccount
                      (Parsed.Make "Example" "dave" "JBSWY3DPEHPK3PXP"
                                   "SHA1" (of_Z 6) (of_Z 30))
                      Samples.world)))
  = [Samples.alice; Samples.bob].
Proof.
  apply (add_then_remove Samples.world).
  intros acc Hacc.
  apply elem_of_cons in Hacc as [->|Hacc]; [discriminate|].
  apply elem_of_cons in Hacc as [->|Hacc]; [discriminate|].
  now apply elem_of_nil in Hacc.
Defined.

(** X5.  When the stored ids are distinct, deleting the account of a card
    removes that place of the list and no other. *)
Theorem delete_card_exact (w : World) (card : nat) (account : Account.t) :
  NoDup (Account.id <$> accounts w) ->
  accounts w !! card = Some account ->
  accounts (AccountCard.handleDelete account w) = delete card (accounts w).
Proof.
  intros Hnd Hcard. unfold AccountCard.handleDelete, UseAccounts.removeAccount.
  simpl. now apply filter_id_delete.
Qed.

Lemma delete_card_exact_witness :
  accounts (AccountCard.handleDelete Samples.alice Samples.world) = [Samples.bob].
Proof.
  apply (delete_card_exact Samples.world 0 Samples.alice).
  - refine (bool_decide_unpack _ _). vm_compute. exact I.
  - reflexivity.
Defined.



(** ** What each action does to the store *)

Section EffectFacts.
Import Invariants.
Context `{Platform}.

Lemma sublist_fmap {A B} (f : A -> B) (l1 l2 : list A) :
  l1 `sublist_of` l2 -> (f <$> l1) `sublist_of` (f <$> l2).
Proof.
  induction 1 as [|x l1 l2 _ IH|x l1 l2 _ IH]; simpl.
  - constructor.
  - now constructor.
  - now constructor.
Qed.

Lemma ids_map_by_id (f : Account.t -> Account.t) (id : string) (l : list Account.t) :
  (forall acc, Account.id (f acc) = Account.id acc) ->
  Account.id <$>
    ((fun acc => if bool_decide (Account.id acc = id) then f acc else acc) <$> l)
  = Account.id <$> l.
Proof.
  intros Hf. rewrite <- list_fmap_compose. apply list_fmap_ext.
  intros i acc _. simpl. destruct (bool_decide (Account.id acc = id)); [apply Hf | reflexivity].
Qed.

Lemma addAccount_saved (candidate : Parsed.t) (w : World) :
  saved (accounts w ++ [fst (UseAccounts.addAccount candidate w)]) 1 w
        (snd (UseAccounts.addAccount candidate w))
  /\ Account.id (fst (UseAccounts.addAccount candidate w))
     = uuid_source w (uuid_calls w).
Proof.
  unfold UseAccounts.addAccount, saved. simpl.
  repeat split. lia.
Qed.

Lemma handleQRScan_effect (data : string) (w : World) :
  exists w', Index.handleQRScan data w = Normal w'
    /\ (untouched w w'
        \/ exists acc, saved (accounts w ++ [acc]) 1 w w'
                       /\ Account.id acc = uuid_source w (uuid_calls w)).
Proof.
  unfold Index.handleQRScan.
  destruct (parseOTPAuthURI_total data) as [[p|] ->]; simpl.
  - eexists. split; [reflexivity|]. right. eexists.
    unfold saved. simpl. repeat split. lia.
  - eexists. split; [reflexivity|]. left. unfold untouched. simpl. repeat split.
Qed.

Lemma handleManualSubmit_effect (f : Index.Form) (w : World) :
  untouched w (Index.handleManualSubmit f w)
  \/ exists acc, saved (accounts w ++ [acc]) 1 w (Index.handleManualSubmit f w)
                 /\ Account.id acc = uuid_source w (uuid_calls w).
Proof.
  unfold Index.handleManualSubmit.
  destruct (Index.manualEntrySchema _) as [data|];
    [|left; unfold untouched; simpl; repeat split].
  destruct (negb _); [left; unfold untouched; simpl; repeat split|].
  right. eexists. unfold saved. simpl. repeat split. lia.
Qed.

Lemma handleDelete_effect (account : Account.t) (w : World) :
  saved (filter (fun acc => Account.id acc <> Account.id account) (accounts w))
        0 w (AccountCard.handleDelete account w).
Proof.
  unfold AccountCard.handleDelete, UseAccounts.removeAccount, saved. simpl.
  repeat split. lia.
Qed.

Lemma updateBackupCodes_saved (id : string) (codes : list string) (w : World) :
  saved ((fun acc => if bool_decide (Account.id acc = id)
                     then UseAccounts.with_backupCodes acc codes else acc)
           <$> accounts w)
        0 w (UseAccounts.updateBackupCodes id codes w).
Proof.
  unfold UseAccounts.updateBackupCodes, saved. simpl. repeat split. lia.
Qed.

Lemma handleAddCode_effect (account : Account.t) (st : BackupCodesDialog.State)
    (w : World) :
  untouched w (snd (BackupCodesDialog.handleAddCode account st w))
  \/ exists codes,
       saved ((fun acc => if bool_decide (Account.id acc = Account.id account)
                          then UseAccounts.with_backupCodes acc codes else acc)
                <$> accounts w)
             0 w (snd (BackupCodesDialog.handleAddCode account st w)).
Proof.
  unfold BackupCodesDialog.handleAddCode.
  destruct (BackupCodesDialog.backupCodeSchema _);
    [|left; unfold untouched; simpl; repeat split].
  destruct (bool_decide _); [left; unfold untouched; simpl; repeat split|].
  right. eexists. unfold saved. simpl. repeat split. lia.
Qed.

Lemma handleDeleteCode_effect (account : Account.t) (index : nat) (w : World) :
  exists codes,
    saved ((fun acc => if bool_decide (Account.id acc = Account.id account)
                       then UseAccounts.with_backupCodes acc codes else acc)
             <$> accounts w)
          0 w (BackupCodesDialog.handleDeleteCode account index w).
Proof.
  unfold BackupCodesDialog.handleDeleteCode. eexists.
  unfold saved. simpl. repeat split. lia.
Qed.

Lemma handleImport_effect (file : option (Completion json)) (w : World) :
  untouched w (SettingsMenu.handleImport file w)
  \/ exists imported,
       saved (accounts w ++ imported) (length imported) w
             (SettingsMenu.handleImport file w)
       /\ Account.id <$> imported
          = uuid_source w <$> seq (uuid_calls w) (length imported).
Proof.
  unfold SettingsMenu.handleImport.
  destruct file as [[data|e]|]; try (left; unfold untouched; simpl; now repeat split).
  destruct (SettingsMenu.backupSchema (Some data)) as [r|];
    [|left; unfold untouched; simpl; now repeat split].
  destruct (SettingsMenu.map_in_world SettingsMenu.reissue
              (SettingsMenu.bundle_accounts r) w) as [imported w1] eqn:E.
  apply map_reissue in E
    as ((Ha & Hl & _ & _ & Hu & _ & Hun & _) & Hlen & Hids & _).
  right. exists imported. unfold saved. simpl.
  rewrite Ha, Hl, Hu, Hun, Hlen. repeat split. exact Hids.
Qed.

Lemma handleExport_effect (w : World) :
  untouched w (snd (Backup.handleExport w)).
Proof.
  unfold Backup.handleExport.
  destruct (bool_decide _); unfold untouched; simpl; now repeat split.
Qed.

Lemma handleClearAll_effect (w : World) :
  saved [] 0 w (Backup.handleClearAll w).
Proof.
  unfold Backup.handleClearAll, UseAccounts.clearAllAccounts, saved. simpl.
  repeat split. lia.
Qed.

(** Every action either leaves the store alone or saves a list made of
    accounts that were stored, in their order, followed by accounts with
    the ids drawn meanwhile. *)
Lemma step_effect (a : App.Action) (w : World) :
  untouched w (App.step a w)
  \/ exists l n kept,
       saved l n w (App.step a w)
       /\ kept `sublist_of` ids w
       /\ Account.id <$> l = kept ++ (uuid_source w <$> seq (uuid_calls w) n).
Proof.
  destruct a as [data|f|card|card code|card index|file| |]; simpl.
  - destruct (handleQRScan_effect data w) as (w' & -> & [Hu|(acc & Hs & Hid)]);
      [now left|].
    right. exists (accounts w ++ [acc]), 1%nat, (ids w).
    split; [exact Hs|]. split; [reflexivity|].
    rewrite fmap_app. simpl. now rewrite Hid.
  - destruct (handleManualSubmit_effect f w) as [Hu|(acc & Hs & Hid)];
      [now left|].
    right. exists (accounts w ++ [acc]), 1%nat, (ids w).
    split; [exact Hs|]. split; [reflexivity|].
    rewrite fmap_app. simpl. now rewrite Hid.
  - destruct (accounts w !! card) as [account|];
      [|left; unfold untouched; now repeat split].
    right.
    exists (filter (fun acc => Account.id acc <> Account.id account) (accounts w)),
           0%nat,
           (Account.id <$>
              filter (fun acc => Account.id acc <> Account.id account) (accounts w)).
    split; [apply handleDelete_effect|].
    split; [apply sublist_fmap, sublist_filter|].
    simpl. now rewrite app_nil_r.
  - destruct (accounts w !! card) as [account|];
      [|left; unfold untouched; now repeat split].
    destruct (handleAddCode_effect account
                (BackupCodesDialog.MkState code EmptyString) w)
      as [Hu|(codes & Hs)]; [now left|].
    right. eexists _, 0%nat, (ids w). split; [exact Hs|].
    split; [reflexivity|]. simpl. rewrite app_nil_r.
    now apply ids_map_by_id.
  - destruct (accounts w !! card) as [account|];
      [|left; unfold untouched; now repeat split].
    destruct (handleDeleteCode_effect account index w) as (codes & Hs).
    right. eexists _, 0%nat, (ids w). split; [exact Hs|].
    split; [reflexivity|]. simpl. rewrite app_nil_r.
    now apply ids_map_by_id.
  - destruct (handleImport_effect file w) as [Hu|(imported & Hs & Hids)];
      [now left|].
    right. exists (accounts w ++ imported), (length imported), (ids w).
    split; [exact Hs|]. split; [reflexivity|].
    now rewrite fmap_app, Hids.
  - left. apply handleExport_effect.
  - right. exists [], 0%nat, []. split; [apply handleClearAll_effect|].
    split; [apply sublist_nil_l | reflexivity].
Qed.

End EffectFacts.

(** ** Sessions: what every sequence of actions keeps *)

Section SessionFacts.
Import Invariants.
Context `{Platform}.

Lemma step_persisted (a : App.Action) (w : World) :
  persisted w -> persisted (App.step a w).
Proof.
  intros Hp. unfold persisted in *.
  destruct (step_effect a w) as [(Ha & Hl & _)|(l & n & kept & (Ha & Hl & _) & _)].
  - now rewrite Ha, Hl.
  - rewrite Ha, Hl. apply lookup_insert_eq.
Qed.

Lemma step_ids (a : App.Action) (w : World) :
  Inj (=) (=) (uuid_source w) -> NoDup (ids w) -> draws_are_new w ->
  uuid_source (App.step a w) = uuid_source w
  /\ NoDup (ids (App.step a w))
  /\ draws_are_new (App.step a w).
Proof.
  intros Hinj Hnd Hnew.
  destruct (step_effect a w)
    as [(Ha & _ & Hn & Hu)|(l & n & kept & (Ha & _ & Hn & Hu) & Hkept & Hids)].
  - split; [exact Hu|]. unfold ids, draws_are_new. rewrite Ha, Hn, Hu.
    split; assumption.
  - assert (Hstored : forall x, x ∈ kept ->
              exists acc, acc ∈ accounts w /\ Account.id acc = x).
    { intros x Hx. apply (elem_of_sublist _ _ _ Hx) in Hkept.
      apply list_elem_of_fmap in Hkept as (acc & -> & Hacc). eauto. }
    split; [exact Hu|]. unfold ids, draws_are_new. rewrite Ha, Hn, Hu.
    split.
    + rewrite Hids. apply NoDup_app. split; [|split].
      * now apply (sublist_NoDup _ (ids w)).
      * intros x Hx Hdraw. destruct (Hstored x Hx) as (acc & Hacc & <-).
        apply list_elem_of_fmap in Hdraw as (k & Hk & Hin).
        apply elem_of_seq in Hin. apply (Hnew acc k Hacc); [lia | now symmetry].
      * apply NoDup_fmap_2; [exact Hinj | apply NoDup_seq].
    + intros acc k Hacc Hk.
      assert (Hin : Account.id acc ∈ Account.id <$> l).
      { apply list_elem_of_fmap. now exists acc. }
      rewrite Hids in Hin. apply elem_of_app in Hin as [Hin|Hin].
      * destruct (Hstored _ Hin) as (acc' & Hacc' & <-).
        apply Hnew; [exact Hacc' | lia].
      * apply list_elem_of_fmap in Hin as (j & -> & Hj).
        apply elem_of_seq in Hj. intros Heq. apply Hinj in Heq. lia.
Qed.

End SessionFacts.

(** X7.  If the snapshot in [localStorage] is the text [JSON.stringify]
    writes for the account list (in which a number that is not finite
    stands as [null]), it is still so after any sequence of actions:
    scanning, manual entry, deleting an account, adding or deleting a
    backup code, importing, exporting and clearing. *)
Theorem session_keeps_snapshot `{Platform} (actions : list App.Action) (w : World) :
  Invariants.persisted w -> Invariants.persisted (App.run actions w).
Proof.
  unfold App.run. revert w.
  induction actions as [|a actions IH]; intros w Hp; simpl; [exact Hp|].
  apply IH. now apply step_persisted.
Qed.

Lemma session_keeps_snapshot_witness :
  Invariants.persisted
    (@App.run AsciiPlatform.platform
       [App.DeleteAccount 0;
        App.Import (Some (Normal (Samples.backup_json 1 6)));
        App.Scan "otpauth://totp/Example:erin?secret=JBSWY3DPEHPK3PXP";
        App.AddCode 1 "recovery-1"]
       Samples.world).
Proof.
  apply (@session_keeps_snapshot AsciiPlatform.platform).
  reflexivity.
Defined.

(** X8.  If the source of ids never gives the same id twice, the stored
    ids are distinct and no id to come is a stored one, then after any
    sequence of actions the stored ids are still distinct, whatever ids
    an imported bundle carries. *)
Theorem session_keeps_ids_distinct `{Platform} (actions : list App.Action)
    (w : World) :
  Inj (=) (=) (uuid_source w) ->
  NoDup (Invariants.ids w) ->
  Invariants.draws_are_new w ->
  NoDup (Invariants.ids (App.run actions w)).
Proof.
  unfold App.run. revert w.
  induction actions as [|a actions IH]; intros w Hinj Hnd Hnew; simpl;
    [exact Hnd|].
  destruct (step_ids a w Hinj Hnd Hnew) as (Hu & Hnd' & Hnew').
  apply IH; [now rewrite Hu | exact Hnd' | exact Hnew'].
Qed.

Lemma marks_inj (n m : nat) : Samples.marks n = Samples.marks m -> n = m.
Proof.
  revert m. induction n as [|n IH]; intros [|m] E; simpl in E;
    try discriminate; [reflexivity|].
  injection E as E. f_equal. now apply IH.
Qed.

Lemma session_keeps_ids_distinct_witness :
  NoDup (Invariants.ids
           (@App.run AsciiPlatform.platform
              [App.Import (Some (Normal (Samples.backup_json 1 6)));
               App.Scan "otpauth://totp/Example:erin?secret=JBSWY3DPEHPK3PXP";
               App.DeleteAccount 0]
              Samples.world)).
Proof.
  apply (@session_keeps_ids_distinct AsciiPlatform.platform).
  - intros n m E. simpl in E. injection E as E. now apply marks_inj.
  - refine (bool_decide_unpack _ _). vm_compute. exact I.
  - intros acc k Hacc _. simpl.
    apply elem_of_cons in Hacc as [->|Hacc]; [discriminate|].
    apply elem_of_cons in Hacc as [->|Hacc]; [discriminate|].
    now apply elem_of_nil in Hacc.
Defined.

(** ** The backup schema, exactly *)

Section SchemaExactFacts.
Import Zod SettingsMenu.

Lemma accountSchema_createdAt (v : option json) (a : Account.t) :
  accountSchema v = Some a -> Account.createdAt a <> NaN.
Proof.
  unfold accountSchema. rewrite z_object_Some. intros (m & -> & Hs).
  repeat (apply bind_Some in Hs as (? & ? & Hs)).
  injection Hs as <-. simpl.
  match goal with Hc : z_number (member m "createdAt") = Some _ |- _ =>
    now apply z_number_Some in Hc as [_ Hc] end.
Qed.

Lemma string_items_back (n : Z) (codes : list string) :
  Forall (fun c => str_length c <= n) codes ->
  Forall2 (fun x y => str_max n z_string (Some x) = Some y) (JStr <$> codes) codes.
Proof.
  induction 1 as [|c codes Hc _ IH]; simpl; constructor; [|exact IH].
  apply str_max_Some. split; [reflexivity | exact Hc].
Qed.

Lemma is_algorithm_elem (s : string) :
  is_algorithm s = true -> s ∈ ["SHA1"; "SHA256"; "SHA512"].
Proof.
  unfold is_algorithm. rewrite !orb_true_iff, !bool_decide_eq_true.
  intros [[->| ->]| ->]; set_solver.
Qed.

Lemma num_ge_not_NaN (n m : number) : num_ge n m = true -> n <> NaN.
Proof. intros Hn ->. destruct m; discriminate. Qed.

End SchemaExactFacts.

Section SchemaMemberFacts.

(** What an object accepted by [accountSchema] holds. *)
Lemma accountSchema_members (m : list (string * json)) (a : Account.t) :
  SettingsMenu.accountSchema (Some (JObj m)) = Some a ->
  member m "id" = Some (JStr (Account.id a))
  /\ member m "issuer" = Some (JStr (Account.issuer a))
  /\ str_length (Account.issuer a) <= 100
  /\ member m "label" = Some (JStr (Account.label a))
  /\ str_length (Account.label a) <= 200
  /\ member m "secret" = Some (JStr (Account.secret a))
  /\ str_length (Account.secret a) <= 500
  /\ member m "algorithm" = Some (JStr (Account.algorithm a))
  /\ is_algorithm (Account.algorithm a) = true
  /\ member m "digits" = Some (JNum (Account.digits a))
  /\ num_ge (Account.digits a) (of_Z 1) = true
  /\ num_le (Account.digits a) (of_Z 10) = true
  /\ member m "period" = Some (JNum (Account.period a))
  /\ num_ge (Account.period a) (of_Z 1) = true
  /\ num_le (Account.period a) (of_Z 300) = true
  /\ member m "createdAt" = Some (JNum (Account.createdAt a))
  /\ Account.createdAt a <> NaN
  /\ match Account.backupCodes a with
     | None => member m "backupCodes" = None
     | Some codes =>
         member m "backupCodes" = Some (JArr (JStr <$> codes))
         /\ Forall (fun c => str_length c <= 100) codes
     end.
Proof.
  intros Ha. pose proof (accountSchema_createdAt _ _ Ha) as Hc.
  apply accountSchema_accepts in Ha as (m' & [= <-] & Ha).
  destruct Ha as (? & ? & ? & ? & ? & ? & ? & ? & ? & ? & ? & ? & ? & ? & ?
                  & ? & Hbc).
  repeat (split; [assumption|]). exact Hbc.
Qed.

(** An object that holds such members is accepted. *)
Lemma accountSchema_of_members (m : list (string * json)) (a : Account.t) :
  member m "id" = Some (JStr (Account.id a))
  /\ member m "issuer" = Some (JStr (Account.issuer a))
  /\ str_length (Account.issuer a) <= 100
  /\ member m "label" = Some (JStr (Account.label a))
  /\ str_length (Account.label a) <= 200
  /\ member m "secret" = Some (JStr (Account.secret a))
  /\ str_length (Account.secret a) <= 500
  /\ member m "algorithm" = Some (JStr (Account.algorithm a))
  /\ is_algorithm (Account.algorithm a) = true
  /\ member m "digits" = Some (JNum (Account.digits a))
  /\ num_ge (Account.digits a) (of_Z 1) = true
  /\ num_le (Account.digits a) (of_Z 10) = true
  /\ member m "period" = Some (JNum (Account.period a))
  /\ num_ge (Account.period a) (of_Z 1) = true
  /\ num_le (Account.period a) (of_Z 300) = true
  /\ member m "createdAt" = Some (JNum (Account.createdAt a))
  /\ Account.createdAt a <> NaN
  /\ match Account.backupCodes a with
     | None => member m "backupCodes" = None
     | Some codes =>
         member m "backupCodes" = Some (JArr (JStr <$> codes))
         /\ Forall (fun c => str_length c <= 100) codes
     end ->
  SettingsMenu.accountSchema (Some (JObj m)) = Some a.
Proof.
  intros (Hid & Hissuer & ? & Hlabel & ? & Hsecret & ? & Halg & Hin & Hdigits
          & Hdge & ? & Hperiod & Hpge & ? & Hcreated & Hcne & Hcodes).
  unfold SettingsMenu.accountSchema, Zod.z_object.
  assert (E1 : Zod.z_string (member m "id") = Some (Account.id a))
    by now apply z_string_Some.
  assert (E2 : Zod.str_max 100 Zod.z_string (member m "issuer")
               = Some (Account.issuer a))
    by (apply str_max_Some; split; [now apply z_string_Some | assumption]).
  assert (E3 : Zod.str_max 200 Zod.z_string (member m "label")
               = Some (Account.label a))
    by (apply str_max_Some; split; [now apply z_string_Some | assumption]).
  assert (E4 : Zod.str_max 500 Zod.z_string (member m "secret")
               = Some (Account.secret a))
    by (apply str_max_Some; split; [now apply z_string_Some | assumption]).
  assert (E5 : Zod.z_enum ["SHA1"; "SHA256"; "SHA512"] (member m "algorithm")
               = Some (Account.algorithm a))
    by (apply z_enum_Some; split; [assumption | now apply is_algorithm_elem]).
  assert (E6 : Zod.num_max 10 (Zod.num_min 1 Zod.z_number) (member m "digits")
               = Some (Account.digits a)).
  { apply num_max_Some. split; [|assumption].
    apply num_min_Some. split; [|assumption].
    apply z_number_Some. split; [assumption | now apply (num_ge_not_NaN _ _ Hdge)]. }
  assert (E7 : Zod.num_max 300 (Zod.num_min 1 Zod.z_number) (member m "period")
               = Some (Account.period a)).
  { apply num_max_Some. split; [|assumption].
    apply num_min_Some. split; [|assumption].
    apply z_number_Some. split; [assumption | now apply (num_ge_not_NaN _ _ Hpge)]. }
  assert (E8 : Zod.z_number (member m "createdAt") = Some (Account.createdAt a))
    by (apply z_number_Some; now split).
  assert (E9 : Zod.optional (Zod.z_array (Zod.str_max 100 Zod.z_string))
                 (member m "backupCodes") = Some (Account.backupCodes a)).
  { apply optional_Some. destruct (Account.backupCodes a) as [codes|].
    - destruct Hcodes as [Hm Hlen]. right. exists codes.
      split; [congruence|]. split; [|reflexivity].
      apply z_array_Some. exists (JStr <$> codes).
      split; [exact Hm | now apply string_items_back].
    - now left. }
  rewrite E1, E2, E3, E4, E5, E6, E7, E8, E9.
  cbn [mbind option_bind]. now destruct a.
Qed.

End SchemaMemberFacts.

(** X9.  [accountSchema] accepts an object exactly when its members [id],
    [issuer], [label] and [secret] are strings (of at most 100, 200 and
    500 characters for the last three), [algorithm] is one of the three
    names, [digits] is a number from 1 to 10 and [period] a number from 1
    to 300, [createdAt] is a number, and [backupCodes] is missing or an
    array of strings of at most 100 characters; the output holds these
    members as they are.  Other members and the order of the members
    play no part. *)
Theorem accountSchema_exact (m : list (string * json)) (a : Account.t) :
  SettingsMenu.accountSchema (Some (JObj m)) = Some a <->
  member m "id" = Some (JStr (Account.id a))
  /\ member m "issuer" = Some (JStr (Account.issuer a))
  /\ str_length (Account.issuer a) <= 100
  /\ member m "label" = Some (JStr (Account.label a))
  /\ str_length (Account.label a) <= 200
  /\ member m "secret" = Some (JStr (Account.secret a))
  /\ str_length (Account.secret a) <= 500
  /\ member m "algorithm" = Some (JStr (Account.algorithm a))
  /\ is_algorithm (Account.algorithm a) = true
  /\ member m "digits" = Some (JNum (Account.digits a))
  /\ num_ge (Account.digits a) (of_Z 1) = true
  /\ num_le (Account.digits a) (of_Z 10) = true
  /\ member m "period" = Some (JNum (Account.period a))
  /\ num_ge (Account.period a) (of_Z 1) = true
  /\ num_le (Account.period a) (of_Z 300) = true
  /\ member m "createdAt" = Some (JNum (Account.createdAt a))
  /\ Account.createdAt a <> NaN
  /\ match Account.backupCodes a with
     | None => member m "backupCodes" = None
     | Some codes =>
         member m "backupCodes" = Some (JArr (JStr <$> codes))
         /\ Forall (fun c => str_length c <= 100) codes
     end.
Proof.
  split; [apply accountSchema_members | apply accountSchema_of_members].
Qed.

(** ** Export and import *)

Section ExportFacts.
Import Zod SettingsMenu.

Lemma bounds_finite (n : number) (lo hi : Z) :
  num_ge n (of_Z lo) = true -> num_le n (of_Z hi) = true -> exists q, n = Fin q.
Proof. destruct n; try discriminate; eauto. Qed.

Lemma JStr_fmap_inj (l k : list string) : JStr <$> l = JStr <$> k -> l = k.
Proof.
  revert k. induction l as [|x l IH]; intros [|y k] E; simpl in E;
    try discriminate; [reflexivity|].
  injection E as -> E. f_equal. now apply IH.
Qed.

(** The written account is read back by the schema as the account
    itself, and only when the account is within the bounds. *)
Lemma account_json_exact (a a' : Account.t) :
  accountSchema (Some (Stringify.account_json a)) = Some a' <->
  a' = a /\ SchemaBounds.within a.
Proof.
  unfold Stringify.account_json. split.
  - intros Hacc. apply accountSchema_members in Hacc. revert Hacc.
    intros (Hid & Hissuer & ? & Hlabel & ? & Hsecret & ? & Halg & ? & Hdigits
            & ? & ? & Hperiod & ? & ? & Hcreated & Hcne & Hcodes).
    injection Hid as Hid. injection Hissuer as Hissuer.
    injection Hlabel as Hlabel. injection Hsecret as Hsecret.
    injection Halg as Halg.
    change (Some (Stringify.number_json (Account.digits a))
            = Some (JNum (Account.digits a'))) in Hdigits.
    change (Some (Stringify.number_json (Account.period a))
            = Some (JNum (Account.period a'))) in Hperiod.
    change (Some (Stringify.number_json (Account.createdAt a))
            = Some (JNum (Account.createdAt a'))) in Hcreated.
    assert (Hd : Account.digits a' = Account.digits a)
      by (destruct (Account.digits a); simpl in Hdigits; congruence).
    assert (Hp : Account.period a' = Account.period a)
      by (destruct (Account.period a); simpl in Hperiod; congruence).
    assert (Hc : Account.createdAt a' = Account.createdAt a)
      by (destruct (Account.createdAt a); simpl in Hcreated; congruence).
    assert (Hfin : exists q, Account.createdAt a = Fin q)
      by (destruct (Account.createdAt a); simpl in Hcreated;
          try discriminate; eauto).
    assert (Hb : Account.backupCodes a' = Account.backupCodes a).
    { destruct (Account.backupCodes a') as [codes'|],
               (Account.backupCodes a) as [codes|]; simpl in Hcodes.
      - destruct Hcodes as [Hm _]. injection Hm as Hm.
        apply JStr_fmap_inj in Hm. now subst.
      - destruct Hcodes as [Hm _]. discriminate.
      - discriminate.
      - reflexivity. }
    assert (Heq : a' = a) by (destruct a, a'; simpl in *; congruence).
    subst a'. split; [reflexivity|].
    unfold SchemaBounds.within.
    repeat (split; [assumption|]).
    destruct (Account.backupCodes a); [apply Hcodes | constructor].
  - intros [-> (? & ? & ? & ? & Hdge & Hdle & Hpge & Hple & [q Hq] & Hcodes)].
    apply accountSchema_of_members.
    destruct (bounds_finite _ _ _ Hdge Hdle) as [qd Hqd].
    destruct (bounds_finite _ _ _ Hpge Hple) as [qp Hqp].
    repeat (split; [first [assumption | reflexivity] |]).
    split; [simpl; now rewrite Hqd|].
    repeat (split; [first [assumption | reflexivity] |]).
    split; [simpl; now rewrite Hqp|].
    repeat (split; [first [assumption | reflexivity] |]).
    split; [simpl; now rewrite Hq|].
    split; [rewrite Hq; discriminate|].
    destruct (Account.backupCodes a); [now split | reflexivity].
Qed.

(** The file [handleExport] writes for a list of accounts. *)
Lemma handleExport_file (w : World) :
  accounts w <> [] ->
  Backup.handleExport w
  = (Some (JObj [("version", JNum (of_Z 1));
                 ("exportedAt", JNum (of_Z (clock w (clock_calls w))));
                 ("accounts", JArr (Stringify.account_json <$> accounts w))]),
     snd (Backup.handleExport w)).
Proof.
  intros Hne. unfold Backup.handleExport.
  rewrite bool_decide_eq_false_2; [reflexivity|].
  intros Hlen. apply Hne. now apply nil_length_inv.
Qed.

End ExportFacts.

(** X10.  [handleExport] never changes the account list or the
    snapshot.  With no account it writes no file and warns; with
    accounts it writes a file of version 1 holding every account, in
    order. *)
Theorem export_leaves_store (w : World) :
  Invariants.untouched w (snd (Backup.handleExport w))
  /\ (accounts w = [] ->
      fst (Backup.handleExport w) = None
      /\ toasts (snd (Backup.handleExport w))
         = toasts w ++ [ToastError "No accounts to export"])
  /\ (accounts w <> [] ->
      fst (Backup.handleExport w)
      = Some (JObj [("version", JNum (of_Z 1));
                    ("exportedAt", JNum (of_Z (clock w (clock_calls w))));
                    ("accounts", JArr (Stringify.account_json <$> accounts w))])).
Proof.
  split; [apply handleExport_effect|]. split.
  - intros Hnil. unfold Backup.handleExport. rewrite Hnil. simpl. now split.
  - intros Hne. now rewrite (handleExport_file w Hne).
Qed.

(** X11.  Export then import is a copy: when every stored account is
    within the bounds of the schema, importing the file that
    [handleExport] has just written appends one account per stored
    account, in order, each with the members of the original, a newly
    drawn id and a new creation time. *)
Theorem export_import_roundtrip (w : World) :
  accounts w <> [] ->
  Forall SchemaBounds.within (accounts w) ->
  exists file imported,
    fst (Backup.handleExport w) = Some file
    /\ accounts (SettingsMenu.handleImport (Some (Normal file))
                   (snd (Backup.handleExport w)))
       = accounts w ++ imported
    /\ length imported = length (accounts w)
    /\ (forall i a, accounts w !! i = Some a ->
          imported !! i
          = Some (Account.Make
                    (uuid_source w (uuid_calls w + i)%nat)
                    (Account.issuer a) (Account.label a) (Account.secret a)
                    (Account.algorithm a) (Account.digits a) (Account.period a)
                    (of_Z (clock w (S (clock_calls w) + i)%nat))
                    (Account.backupCodes a))).
Proof.
  intros Hne Hall.
  destruct (handleExport_effect w) as (Ha & Hl & Hn & Hu).
  pose proof (f_equal fst (handleExport_file w Hne)) as Hfile. simpl in Hfile.
  set (w1 := snd (Backup.handleExport w)) in *.
  assert (Hclock : clock w1 = clock w /\ clock_calls w1 = S (clock_calls w)).
  { subst w1. unfold Backup.handleExport.
    rewrite bool_decide_eq_false_2; [now split|].
    intros Hlen. apply Hne. now apply nil_length_inv. }
  destruct Hclock as [Hc Hcn].
  eexists.
  exists (fst (SettingsMenu.map_in_world SettingsMenu.reissue (accounts w) w1)).
  split; [exact Hfile|].
  assert (Hr : SettingsMenu.backupSchema
                 (Some (JObj [("version", JNum (of_Z 1));
                              ("exportedAt", JNum (of_Z (clock w (clock_calls w))));
                              ("accounts", JArr (Stringify.account_json <$> accounts w))]))
               = Some (SettingsMenu.MkBackup (of_Z 1)
                         (of_Z (clock w (clock_calls w))) (accounts w))).
  { unfold SettingsMenu.backupSchema, Zod.z_object.
    change (member _ "version") with (Some (JNum (of_Z 1))).
    change (member _ "exportedAt")
      with (Some (JNum (of_Z (clock w (clock_calls w))))).
    change (member _ "accounts")
      with (Some (JArr (Stringify.account_json <$> accounts w))).
    assert (E : Zod.z_array SettingsMenu.accountSchema
                  (Some (JArr (Stringify.account_json <$> accounts w)))
                = Some (accounts w)).
    { apply z_array_Some. eexists. split; [reflexivity|].
      apply Forall2_fmap_l, Forall_Forall2_diag.
      eapply Forall_impl; [exact Hall|].
      intros a Hwithin. now apply account_json_exact. }
    rewrite E. reflexivity. }
  destruct (handleImport_accepted _ _ w1 Hr) as (imported & Hacc & _ & Himp).
  rewrite Hacc, Ha. simpl in Himp. rewrite Himp.
  split; [reflexivity|].
  destruct (SettingsMenu.map_in_world SettingsMenu.reissue (accounts w) w1)
    as [ys w2] eqn:E.
  simpl in Himp. subst ys.
  apply map_reissue in E as (_ & Hlen & _ & Hnth).
  split; [exact Hlen|].
  intros i a Hi. rewrite (Hnth i a Hi), Hu, Hn, Hc, Hcn. reflexivity.
Qed.

Lemma export_import_roundtrip_witness :
  exists file imported,
    fst (Backup.handleExport Samples.world) = Some file
    /\ accounts (SettingsMenu.handleImport (Some (Normal file))
                   (snd (Backup.handleExport Samples.world)))
       = [Samples.alice; Samples.bob] ++ imported
    /\ length imported = 2%nat.
Proof.
  destruct (export_import_roundtrip Samples.world)
    as (file & imported & Hfile & Hacc & Hlen & _).
  - discriminate.
  - repeat constructor; simpl; try reflexivity; try discriminate; eauto.
  - exists file, imported. split; [exact Hfile|]. split; [exact Hacc | exact Hlen].
Defined.

(** X12.  The export does not check what it writes: when one stored
    account is outside the bounds of the schema, the file that
    [handleExport] writes is refused as a whole by [handleImport], which
    then imports nothing. *)
Theorem export_refused_by_import (w : World) (a : Account.t) :
  a ∈ accounts w ->
  ~ SchemaBounds.within a ->
  exists file,
    fst (Backup.handleExport w) = Some file
    /\ accounts (SettingsMenu.handleImport (Some (Normal file))
                   (snd (Backup.handleExport w)))
       = accounts w
    /\ toasts (SettingsMenu.handleImport (Some (Normal file))
                 (snd (Backup.handleExport w)))
       = toasts (snd (Backup.handleExport w))
         ++ [ToastError "Invalid backup file format"].
Proof.
  intros Hin Hout.
  assert (Hne : accounts w <> []) by (intros E; rewrite E in Hin; now apply elem_of_nil in Hin).
  destruct (handleExport_effect w) as (Ha & _).
  pose proof (f_equal fst (handleExport_file w Hne)) as Hfile. simpl in Hfile.
  eexists. split; [exact Hfile|].
  rewrite <- Ha at 2.
  unfold SettingsMenu.handleImport.
  rewrite (backupSchema_refuses_account _
             (Stringify.account_json <$> accounts w) (Stringify.account_json a));
    [now split | reflexivity | |].
  - apply list_elem_of_fmap. now exists a.
  - destruct (SettingsMenu.accountSchema (Some (Stringify.account_json a)))
      as [a'|] eqn:E; [|reflexivity].
    apply account_json_exact in E as [_ Hw]. contradiction.
Qed.

Lemma export_refused_by_import_witness :
  exists file,
    fst (Backup.handleExport MoreSamples.world) = Some file
    /\ accounts (SettingsMenu.handleImport (Some (Normal file))
                   (snd (Backup.handleExport MoreSamples.world)))
       = [Samples.alice; MoreSamples.mallory].
Proof.
  destruct (export_refused_by_import MoreSamples.world MoreSamples.mallory)
    as (file & Hfile & Hacc & _).
  - apply list_elem_of_further, list_elem_of_here.
  - intros (_ & _ & _ & _ & _ & Hle & _). vm_compute in Hle. discriminate Hle.
  - exists file. split; [exact Hfile | exact Hacc].
Defined.

(** ** Index: what a scan and a manual entry do *)

(** X13.  What a scan that completes does to the store (a throw of
    [crypto.randomUUID] or of [localStorage.setItem], which the handler
    would not catch, is outside the model).  When the parser refuses the
    text, the account list and the snapshot stay as they are and an error
    is shown.  When it accepts, exactly one account is appended: it
    carries the six members of the parsed credential as they are, the id
    just drawn, the time just read and no backup codes; and the snapshot
    written is the text [JSON.stringify] gives for the new list (in it a
    [digits] or a [period] that is NaN or an infinity stands as [null],
    as [Stringify.number_json] has it). *)
Theorem scan_outcome `{Platform} (data : string) (w w' : World) :
  Index.handleQRScan data w = Normal w' ->
  match OtpauthParser.parseOTPAuthURI data with
  | Normal (Some p) =>
      accounts w'
      = accounts w
        ++ [Account.Make (uuid_source w (uuid_calls w))
              (Parsed.issuer p) (Parsed.label p) (Parsed.secret p)
              (Parsed.algorithm p) (Parsed.digits p) (Parsed.period p)
              (of_Z (clock w (clock_calls w))) None]
      /\ localStorage w'
         = <[UseAccounts.STORAGE_KEY :=
               JArr (Stringify.account_json <$> accounts w')]> (localStorage w)
      /\ toasts w' = toasts w ++ [ToastSuccess ("Added " +:+ Parsed.issuer p)]
  | _ =>
      accounts w' = accounts w
      /\ localStorage w' = localStorage w
      /\ toasts w'
         = toasts w
           ++ [ToastError
                 "Invalid QR code. Please scan a valid authenticator QR code."]
  end.
Proof.
  unfold Index.handleQRScan.
  destruct (parseOTPAuthURI_total data) as [[p|] ->]; simpl.
  - intros [= <-]. simpl.
    split; [reflexivity|]. split; reflexivity.
  - intros [= <-]. now repeat split.
Qed.

Lemma scan_outcome_witness :
  exists w' id created,
    @Index.handleQRScan AsciiPlatform.platform
      "otpauth://totp/Example:erin?secret=JBSWY3DPEHPK3PXP&digits=abc" Samples.fresh
    = Normal w'
    /\ accounts w'
       = [Account.Make id "Example" "erin" "JBSWY3DPEHPK3PXP" "SHA1"
            NaN (of_Z 30) created None]
    /\ localStorage w' !! UseAccounts.STORAGE_KEY
       = Some (JArr [JObj [("id", JStr id); ("issuer", JStr "Example");
                           ("label", JStr "erin");
                           ("secret", JStr "JBSWY3DPEHPK3PXP");
                           ("algorithm", JStr "SHA1"); ("digits", JNull);
                           ("period", JNum (of_Z 30));
                           ("createdAt", JNum created)]]).
Proof.
  eexists _, _, _. split; [vm_compute; reflexivity|].
  pose proof (@scan_outcome AsciiPlatform.platform
                "otpauth://totp/Example:erin?secret=JBSWY3DPEHPK3PXP&digits=abc"
                Samples.fresh _ eq_refl) as Hs.
  vm_compute in Hs. destruct Hs as (Hacc & _).
  split; [exact Hacc|].
  vm_compute. reflexivity.
Defined.

Section ManualFacts.
Import Zod Index OtpauthParser.
Context `{Platform}.

Lemma str_min_Some (n : Z) (sch : Schema string) (v : option json) (s : string) :
  str_min n sch v = Some s <-> sch v = Some s /\ n <= str_length s.
Proof.
  unfold str_min. destruct (sch v) as [x|]; simpl.
  - destruct (Z.leb_spec n (str_length x)); split.
    + intros [= ->]. split; [reflexivity | assumption].
    + now intros [[= ->] _].
    + discriminate.
    + intros [[= ->] Hle]. lia.
  - split; [discriminate | now intros [? _]].
Qed.

Lemma str_trim_Some (v : option json) (s : string) :
  str_trim z_string v = Some s <-> exists raw, v = Some (JStr raw) /\ s = trim raw.
Proof.
  unfold str_trim. split.
  - intros Hs. apply fmap_Some in Hs as (raw & Hraw & ->).
    apply z_string_Some in Hraw. eauto.
  - intros (raw & -> & ->). reflexivity.
Qed.

(** A trimmed input within its bounds, as the schema of the form and the
    schemas of the backup codes check it. *)
Lemma trimmed_bounds (lo hi : Z) (raw : string) (s : string) :
  str_max hi (str_min lo (str_trim z_string)) (Some (JStr raw)) = Some s <->
  s = trim raw /\ lo <= str_length (trim raw) <= hi.
Proof.
  rewrite str_max_Some, str_min_Some, str_trim_Some. split.
  - intros [[(raw' & [= <-] & ->) Hlo] Hhi]. split; [reflexivity | lia].
  - intros [-> [Hlo Hhi]]. repeat split; eauto.
Qed.

Lemma trimmed_min (lo : Z) (raw : string) (s : string) :
  str_min lo (str_trim z_string) (Some (JStr raw)) = Some s <->
  s = trim raw /\ lo <= str_length (trim raw).
Proof.
  rewrite str_min_Some, str_trim_Some. split.
  - intros [(raw' & [= <-] & ->) Hlo]. now split.
  - intros [-> Hlo]. split; eauto.
Qed.

Lemma manualEntrySchema_exact (f : Form) (d : ManualEntry) :
  manualEntrySchema (Some (form_object f)) = Some d <->
  d = MkManualEntry (trim (form_issuer f)) (trim (form_label f))
                    (trim (form_secret f))
  /\ 1 <= str_length (trim (form_issuer f)) <= 50
  /\ 1 <= str_length (trim (form_label f)) <= 100
  /\ 1 <= str_length (trim (form_secret f)).
Proof.
  unfold manualEntrySchema, z_object, form_object.
  change (member _ "issuer") with (Some (JStr (form_issuer f))).
  change (member _ "label") with (Some (JStr (form_label f))).
  change (member _ "secret") with (Some (JStr (form_secret f))).
  split.
  - intros Hs.
    apply bind_Some in Hs as (i & Hi & Hs).
    apply bind_Some in Hs as (l & Hl & Hs).
    apply bind_Some in Hs as (s & Hsec & Hs).
    injection Hs as <-.
    apply trimmed_bounds in Hi as [-> ?].
    apply trimmed_bounds in Hl as [-> ?].
    apply trimmed_min in Hsec as [-> ?]. now repeat split.
  - intros (-> & Hi & Hl & Hs).
    rewrite (proj2 (trimmed_bounds 1 50 (form_issuer f) _) (conj eq_refl Hi)).
    rewrite (proj2 (trimmed_bounds 1 100 (form_label f) _) (conj eq_refl Hl)).
    rewrite (proj2 (trimmed_min 1 (form_secret f) _) (conj eq_refl Hs)).
    reflexivity.
Qed.

(** A text that holds a character other than white space is not trimmed
    to nothing. *)
Lemma trim_start_keeps (s : string) :
  remove_whitespace s <> EmptyString ->
  exists c r, trim_start s = String c r /\ is_space c = false.
Proof.
  unfold remove_whitespace. induction s as [|c s IH]; simpl; [congruence|].
  destruct (is_space c) eqn:Hc; simpl; [exact IH | eauto].
Qed.

Lemma trim_end_keeps (c : code_unit) (r : string) :
  is_space c = false -> trim_end (String c r) <> EmptyString.
Proof.
  intros Hc. simpl. destruct (trim_end r); [rewrite Hc|]; discriminate.
Qed.

Lemma str_length_positive (s : string) :
  s <> EmptyString -> 1 <= str_length s.
Proof. destruct s; [congruence|]. unfold str_length. simpl len. lia. Qed.

Lemma validateSecret_trim (s : string) :
  validateSecret s = true -> 1 <= str_length (trim s).
Proof.
  intros Hv. apply validateSecret_valid in Hv as [_ Hlen].
  apply str_length_positive. unfold trim.
  destruct (trim_start_keeps s) as (c & r & -> & Hc).
  - intros E. rewrite normalize_clean in Hlen. unfold clean in Hlen.
    rewrite E, toUpperCase_empty in Hlen. vm_compute in Hlen. now apply Hlen.
  - now apply trim_end_keeps.
Qed.

Lemma validateSecret_clean (s : string) :
  validateSecret (clean s) = validateSecret s.
Proof. unfold validateSecret. now rewrite clean_clean. Qed.

Lemma issue_None (value required : string) (n : Z) (too_long : string) :
  issue value required (Some (n, too_long)) = None <->
  1 <= str_length (trim value) <= n.
Proof.
  unfold issue.
  destruct (Z.ltb_spec (str_length (trim value)) 1);
    [split; [discriminate | lia]|].
  destruct (Z.ltb_spec n (str_length (trim value))); split;
    try discriminate; try reflexivity; lia.
Qed.

Lemma issue_None_min (value required : string) :
  issue value required None = None <-> 1 <= str_length (trim value).
Proof.
  unfold issue.
  destruct (Z.ltb_spec (str_length (trim value)) 1); split;
    try discriminate; try reflexivity; lia.
Qed.

(** When the schema of the form refuses, an error is reported. *)
Lemma fieldErrors_nonempty (f : Form) :
  manualEntrySchema (Some (form_object f)) = None -> fieldErrors f <> ∅.
Proof.
  intros Hnone. unfold fieldErrors.
  destruct (issue (form_secret f) "Secret key is required" None) as [m3|] eqn:E3;
    [apply insert_non_empty|].
  destruct (issue (form_label f) "Account name is required"
              (Some (100, "Account name too long"))) as [m2|] eqn:E2;
    [apply insert_non_empty|].
  destruct (issue (form_issuer f) "Service name is required"
              (Some (50, "Service name too long"))) as [m1|] eqn:E1;
    [apply insert_non_empty|].
  exfalso.
  apply issue_None_min in E3. apply issue_None in E2. apply issue_None in E1.
  assert (Hs : manualEntrySchema (Some (form_object f))
               = Some (MkManualEntry (trim (form_issuer f)) (trim (form_label f))
                                     (trim (form_secret f))))
    by (apply manualEntrySchema_exact; now repeat split).
  congruence.
Qed.

(** An entry that passes every check appends one account. *)
Lemma handleManualSubmit_accepted (f : Index.Form) (w : World) :
  1 <= str_length (trim (Index.form_issuer f)) <= 50
  /\ 1 <= str_length (trim (Index.form_label f)) <= 100
  /\ OtpauthParser.validateSecret (Index.form_secret f) = true ->
  accounts (Index.handleManualSubmit f w)
  = accounts w
    ++ [Account.Make (uuid_source w (uuid_calls w))
          (trim (Index.form_issuer f)) (trim (Index.form_label f))
          (OtpauthParser.clean (Index.form_secret f))
          "SHA1" (of_Z 6) (of_Z 30) (of_Z (clock w (clock_calls w))) None]
  /\ Invariants.persisted (Index.handleManualSubmit f w)
  /\ errors (Index.handleManualSubmit f w) = ∅.
Proof.
  unfold Index.handleManualSubmit.
  change (toUpperCase (remove_whitespace (Index.form_secret f)))
    with (OtpauthParser.clean (Index.form_secret f)).
  rewrite validateSecret_clean.
  intros (Hi & Hl & Hv).
  rewrite (proj2 (manualEntrySchema_exact f _)
             (conj eq_refl (conj Hi (conj Hl (validateSecret_trim _ Hv))))).
  rewrite Hv. simpl.
  split; [reflexivity|]. split; [apply lookup_insert_eq | reflexivity].
Qed.

(** An entry that fails a check changes nothing and reports an error. *)
Lemma handleManualSubmit_refused (f : Index.Form) (w : World) :
  ~ (1 <= str_length (trim (Index.form_issuer f)) <= 50
     /\ 1 <= str_length (trim (Index.form_label f)) <= 100
     /\ OtpauthParser.validateSecret (Index.form_secret f) = true) ->
  accounts (Index.handleManualSubmit f w) = accounts w
  /\ localStorage (Index.handleManualSubmit f w) = localStorage w
  /\ errors (Index.handleManualSubmit f w) <> ∅.
Proof.
  unfold Index.handleManualSubmit.
  change (toUpperCase (remove_whitespace (Index.form_secret f)))
    with (OtpauthParser.clean (Index.form_secret f)).
  rewrite validateSecret_clean.
  intros Hno.
  destruct (Index.manualEntrySchema (Some (Index.form_object f))) as [d|] eqn:Hs.
  - apply manualEntrySchema_exact in Hs as (_ & Hi & Hl & _).
    destruct (OtpauthParser.validateSecret (Index.form_secret f)) eqn:Hv.
    + exfalso. apply Hno. now repeat split.
    + simpl. split; [reflexivity|]. split; [reflexivity|].
      apply insert_non_empty.
  - simpl. split; [reflexivity|]. split; [reflexivity|].
    now apply fieldErrors_nonempty.
Qed.

End ManualFacts.

(** X14.  A manual entry is accepted exactly when the trimmed service
    name has 1 to 50 characters, the trimmed account name 1 to 100, and
    the secret passes [validateSecret].  Then one account is appended
    with the trimmed names, the cleaned secret, [SHA1], 6 digits and a
    period of 30, the list is saved and the field errors are cleared.
    Otherwise the account list and the snapshot stay as they are and at
    least one field error is reported. *)
Theorem manual_submit_outcome `{Platform} (f : Index.Form) (w : World) :
  (1 <= str_length (trim (Index.form_issuer f)) <= 50
   /\ 1 <= str_length (trim (Index.form_label f)) <= 100
   /\ OtpauthParser.validateSecret (Index.form_secret f) = true ->
   accounts (Index.handleManualSubmit f w)
   = accounts w
     ++ [Account.Make (uuid_source w (uuid_calls w))
           (trim (Index.form_issuer f)) (trim (Index.form_label f))
           (OtpauthParser.clean (Index.form_secret f))
           "SHA1" (of_Z 6) (of_Z 30) (of_Z (clock w (clock_calls w))) None]
   /\ Invariants.persisted (Index.handleManualSubmit f w)
   /\ errors (Index.handleManualSubmit f w) = ∅)
  /\ (~ (1 <= str_length (trim (Index.form_issuer f)) <= 50
         /\ 1 <= str_length (trim (Index.form_label f)) <= 100
         /\ OtpauthParser.validateSecret (Index.form_secret f) = true) ->
      accounts (Index.handleManualSubmit f w) = accounts w
      /\ localStorage (Index.handleManualSubmit f w) = localStorage w
      /\ errors (Index.handleManualSubmit f w) <> ∅).
Proof.
  split; [apply handleManualSubmit_accepted | apply handleManualSubmit_refused].
Qed.

Lemma manual_submit_outcome_witness :
  accounts (@Index.handleManualSubmit AsciiPlatform.platform
              Samples.form Samples.fresh)
  = [Account.Make "00000000-0000-4000-8000-" "Example" "carol"
       "JBSWY3DPEHPK3PXP" "SHA1" (of_Z 6) (of_Z 30) (of_Z 1700001000000) None]
  /\ errors (@Index.handleManualSubmit AsciiPlatform.platform
               (Index.MkForm "Example" "carol" "too short") Samples.fresh) <> ∅.
Proof.
  split.
  - apply (@manual_submit_outcome AsciiPlatform.platform
             Samples.form Samples.fresh).
    vm_compute. repeat split; discriminate.
  - apply (@manual_submit_outcome AsciiPlatform.platform
             (Index.MkForm "Example" "carol" "too short") Samples.fresh).
    intros (_ & _ & Hv). vm_compute in Hv. discriminate Hv.
Defined.

(** X15.  An account created by manual entry is within the bounds of the
    backup schema exactly when its cleaned secret has at most 500
    characters: the form puts no ceiling on the secret, the schema
    does. *)
Theorem manual_account_within_bounds `{Platform} (f : Index.Form) (w : World)
    (acc : Account.t) :
  accounts (Index.handleManualSubmit f w) = accounts w ++ [acc] ->
  (SchemaBounds.within acc <->
   str_length (OtpauthParser.clean (Index.form_secret f)) <= 500).
Proof.
  intros Hacc.
  pose proof (handleManualSubmit_accepted f w) as Hyes.
  pose proof (handleManualSubmit_refused f w) as Hno.
  assert (Hok : 1 <= str_length (trim (Index.form_issuer f)) <= 50
                /\ 1 <= str_length (trim (Index.form_label f)) <= 100
                /\ OtpauthParser.validateSecret (Index.form_secret f) = true).
  { destruct (decide (1 <= str_length (trim (Index.form_issuer f)) <= 50
                      /\ 1 <= str_length (trim (Index.form_label f)) <= 100
                      /\ OtpauthParser.validateSecret (Index.form_secret f) = true))
      as [Hd|Hd]; [exact Hd|].
    exfalso. destruct (Hno Hd) as (Hsame & _). rewrite Hsame in Hacc.
    apply (f_equal length) in Hacc. rewrite length_app in Hacc. simpl in Hacc. lia. }
  destruct (Hyes Hok) as (Hnew & _). rewrite Hnew in Hacc.
  apply app_inv_head in Hacc. injection Hacc as <-.
  destruct Hok as (Hi & Hl & _).
  unfold SchemaBounds.within. simpl. split.
  - intros (_ & _ & Hs & _). exact Hs.
  - intros Hs. repeat split; try lia; try reflexivity; eauto.
Qed.

Lemma manual_account_within_bounds_witness :
  SchemaBounds.within
    (Account.Make "00000000-0000-4000-8000-" "Example" "carol"
       "JBSWY3DPEHPK3PXP" "SHA1" (of_Z 6) (of_Z 30) (of_Z 1700001000000) None).
Proof.
  apply (@manual_account_within_bounds AsciiPlatform.platform
           Samples.form Samples.fresh).
  - vm_compute. reflexivity.
  - vm_compute. discriminate.
Defined.

(** ** Backup codes of an account: the dialog *)

Section DialogFacts.
Import Zod BackupCodesDialog.






End DialogFacts.





(** ** Slices of a text *)

Section SliceFacts.
Import JsText.

Lemma take_drop (n : nat) (s : string) : take n s +:+ drop n s = s.
Proof.
  revert s. induction n as [|n IH]; intros [|c s]; simpl; try reflexivity.
  now rewrite IH.
Qed.

Lemma length_take (n : nat) (s : string) :
  len (take n s) = Nat.min n (len s).
Proof.
  revert s. induction n as [|n IH]; intros [|c s]; simpl; try reflexivity.
  now rewrite IH.
Qed.

Lemma length_drop (n : nat) (s : string) :
  len (drop n s) = (len s - n)%nat.
Proof.
  revert s. induction n as [|n IH]; intros [|c s]; simpl; try reflexivity.
  apply IH.
Qed.

Lemma drop_drop (n m : nat) (s : string) : drop n (drop m s) = drop (m + n) s.
Proof.
  revert s. induction m as [|m IH]; intros s; [reflexivity|].
  destruct s as [|c s]; simpl; [now destruct n | apply IH].
Qed.

Lemma length_repeat_char (c : code_unit) (n : nat) :
  len (repeat_char c n) = n.
Proof. induction n as [|n IH]; simpl; [reflexivity | now rewrite IH]. Qed.

Lemma length_append (s1 s2 : string) :
  len (s1 +:+ s2) = (len s1 + len s2)%nat.
Proof. induction s1 as [|c s1 IH]; simpl; [reflexivity | now rewrite IH]. Qed.

Lemma str_filter_app (p : code_unit -> bool) (s1 s2 : string) :
  str_filter p (s1 +:+ s2) = str_filter p s1 +:+ str_filter p s2.
Proof.
  induction s1 as [|c s1 IH]; simpl; [reflexivity|].
  destruct (p c); simpl; now rewrite IH.
Qed.

(** A text of more than four characters is its first two, its middle and
    its last two. *)
Lemma first_middle_last (code : string) :
  (4 < len code)%nat ->
  code = take 2 code
         +:+ take (len code - 4) (drop 2 code)
         +:+ take_last 2 code
  /\ len (take 2 code) = 2%nat
  /\ len (take (len code - 4) (drop 2 code))
     = (len code - 4)%nat
  /\ len (take_last 2 code) = 2%nat.
Proof.
  intros Hlen. unfold take_last. split; [|split; [|split]].
  - replace (drop (len code - 2) code)
      with (drop (len code - 4) (drop 2 code))
      by (rewrite drop_drop; f_equal; lia).
    now rewrite take_drop, take_drop.
  - rewrite length_take. lia.
  - rewrite length_take, length_drop. lia.
  - rewrite length_drop. lia.
Qed.

End SliceFacts.

(** X18.  Masking a backup code: a code of at most four characters is
    shown as four bullets, whatever it is; a longer code keeps its first
    two and its last two characters, and every character in between is
    replaced by a bullet, one for one in the dialog and by at most twelve
    on the page. *)
Theorem maskCode_shape (code : string) :
  (str_length code <= 4 ->
   BackupCodesDialog.maskCode code
   = JsText.repeat_char BackupCodesDialog.bullet 4
   /\ BackupCodes.maskCode code
      = JsText.repeat_char BackupCodesDialog.bullet 4)
  /\ (4 < str_length code ->
      exists first middle last,
        code = first +:+ middle +:+ last
        /\ len first = 2%nat
        /\ len last = 2%nat
        /\ BackupCodesDialog.maskCode code
           = first
             +:+ JsText.repeat_char BackupCodesDialog.bullet (len middle)
             +:+ last
        /\ len (BackupCodesDialog.maskCode code)
           = len code
        /\ BackupCodes.maskCode code
           = first
             +:+ JsText.repeat_char BackupCodesDialog.bullet
                   (Nat.min (len middle) 12)
             +:+ last).
Proof.
  unfold BackupCodesDialog.maskCode, BackupCodes.maskCode. split.
  - intros Hle. rewrite (proj2 (Z.leb_le _ _) Hle). now split.
  - intros Hgt. rewrite (proj2 (Z.leb_gt _ _) Hgt).
    assert (Hlen : (4 < len code)%nat) by (unfold str_length in Hgt; lia).
    destruct (first_middle_last code Hlen) as (Hcode & Hf & Hm & Hl).
    eexists _, _, _. split; [exact Hcode|].
    split; [exact Hf|]. split; [exact Hl|].
    rewrite Hm. split; [reflexivity|]. split; [|reflexivity].
    rewrite !length_append, length_repeat_char, Hf, Hl. lia.
Qed.

(** ** The card of an account *)

(** X19.  The code on a card is shown with one space put in, after its
    third character or at its end when it is shorter, and nothing else
    changed: the shown text is one character longer, and without its
    white space it is the code without its white space. *)
Theorem formattedCode_shows_code (code : string) :
  len (AccountCard.formattedCode code) = S (len code)
  /\ remove_whitespace (AccountCard.formattedCode code) = remove_whitespace code.
Proof.
  unfold AccountCard.formattedCode. split.
  - rewrite !length_append, length_take, length_drop.
    change (len " ") with 1%nat. lia.
  - unfold remove_whitespace. rewrite !str_filter_app.
    change (str_filter (fun c => negb (is_space c)) " ") with EmptyString.
    change (EmptyString +:+ str_filter (fun c => negb (is_space c)) (JsText.drop 3 code))
      with (str_filter (fun c => negb (is_space c)) (JsText.drop 3 code)).
    rewrite <- str_filter_app. now rewrite take_drop.
Qed.

(** ** The page of backup codes *)

Section PageFacts.
Import Zod BackupCodes.





End PageFacts.





(** ** useTOTP: more on the code and the countdown *)

Section CodeFacts.
Context `{Platform} `{OTPAuth}.



End CodeFacts.

(** X22.  The code does not depend on how the stored secret is written:
    generating from an account gives what generating from the same
    account with its secret stripped of white space and upper-cased
    gives. *)
Theorem generateCode_canonical `{Platform} `{OTPAuth} (account : Account.t)
    (w : World) :
  UseTOTP.generateCode account w
  = UseTOTP.generateCode
      (Account.Make (Account.id account) (Account.issuer account)
         (Account.label account) (OtpauthParser.clean (Account.secret account))
         (Account.algorithm account) (Account.digits account)
         (Account.period account) (Account.createdAt account)
         (Account.backupCodes account)) w.
Proof.
  unfold UseTOTP.generateCode. simpl.
  change (toUpperCase (remove_whitespace
            (OtpauthParser.clean (Account.secret account))))
    with (OtpauthParser.clean (OtpauthParser.clean (Account.secret account))).
  now rewrite clean_clean.
Qed.



